(** * NumCode: a shallow embedding of [numcode.py] and its codec properties

    The development follows the layout of the program:

    - [Py]: the Python built-ins the program calls ([str.isdigit],
      [str.split], [str.lower], [int], [str], ...), on ASCII text;
    - [Pil]: the part of Pillow the program uses (a 1-bit raster with
      [new], pixel access, [paste], [save] and [open]);
    - the tokenizer, the encoder and the decoder;
    - the ideogram grid: [id_to_cells], [create_strip], [read_cell],
      [read_header], [read_block], [read_strip];
    - [PyStr], the loader of the dictionary files, [detect_language] and
      one turn of the loop of [main];
    - the properties of the codec.

    Modelling conventions.  Python integers are [Z].  Python strings are
    [string]; the model is that of the program on ASCII text, and a
    character above code 127 is treated as a symbol that is neither a digit,
    a letter, white space nor punctuation.  The lexicons, which the program
    loads from disk into the globals [dicts_encode] and [dicts_decode] and
    never changes afterwards, are parameters.  Exceptions are [None] in the
    option monad.  Output written with [print] is not modelled.  A
    dictionary file is the list of its lines, and the directory of the
    dictionaries a finite map from file names to files.

    Domain.  The model follows the program on ASCII text ([is_ascii]), on
    numerals of at most 4300 digits, above which [int] raises ([int_ok],
    [item_ok]), and on strips with at least one block saved under the
    default name "strip.png", which Pillow can write.  The properties that
    depend on this say so in their hypotheses. *)

From Stdlib Require Import ZArith Ascii String List Lia.
From Stdlib Require Import DecimalString DecimalPos DecimalZ.
From stdpp Require Import base option list gmap strings.

Local Open Scope Z_scope.

(** Sequencing of steps that may raise: [bind x := e in k] is [k] with [x]
    the value of [e], and the exception of [e] when [e] raises one. *)
Notation "'bind' x ':=' e 'in' k" :=
  (match e with Some x => k | None => None end)
  (at level 10, x pattern, e at level 100, k at level 200, only parsing).

(** ** Python built-ins *)

Module Py.

Definition ord (c : ascii) : Z := Z.of_N (N_of_ascii c).

(** The one-character string [c]. *)
Definition chr (c : ascii) : string := String c EmptyString.

Definition in_range (lo hi : Z) (c : ascii) : bool :=
  (lo <=? ord c) && (ord c <=? hi).

(** [ch.isdigit()] *)
Definition isdigit (c : ascii) : bool := in_range 48 57 c.

(** [ch.isspace()]: TAB, LF, VT, FF, CR, the separators 28..31, space. *)
Definition isspace (c : ascii) : bool := in_range 9 13 c || in_range 28 32 c.

Definition lower_char (c : ascii) : ascii :=
  if in_range 65 90 c then ascii_of_N (N_of_ascii c + 32) else c.

Definition upper_char (c : ascii) : ascii :=
  if in_range 97 122 c then ascii_of_N (N_of_ascii c - 32) else c.

(** [s.lower()] and [s.upper()] *)
Fixpoint lower (s : string) : string :=
  match s with
  | EmptyString => EmptyString
  | String c s' => String (lower_char c) (lower s')
  end.

Fixpoint upper (s : string) : string :=
  match s with
  | EmptyString => EmptyString
  | String c s' => String (upper_char c) (upper s')
  end.

(** [ch in s] for a single character [ch] *)
Fixpoint contains (c : ascii) (s : string) : bool :=
  match s with
  | EmptyString => false
  | String c' s' => Ascii.eqb c c' || contains c s'
  end.

(** [''.join(ch for ch in s if p(ch))] *)
Fixpoint filter (p : ascii -> bool) (s : string) : string :=
  match s with
  | EmptyString => EmptyString
  | String c s' => if p c then String c (filter p s') else filter p s'
  end.

(** [s.replace(' ', '')] is [remove " " s] *)
Definition remove (c : ascii) (s : string) : string :=
  filter (fun c' => negb (Ascii.eqb c' c)) s.

(** [list(s)] *)
Fixpoint chars (s : string) : list string :=
  match s with
  | EmptyString => []
  | String c s' => chr c :: chars s'
  end.

(** The last character of [s], [s[-1]], when [s] is not empty. *)
Fixpoint last_char (s : string) : option ascii :=
  match s with
  | EmptyString => None
  | String c EmptyString => Some c
  | String _ s' => last_char s'
  end.

(** A word under construction is emitted unless it is empty. *)
Definition flush (cur : string) : list string :=
  match cur with
  | EmptyString => []
  | _ => [cur]
  end.

(** [s.split()]: the maximal runs of characters that are not white space. *)
Fixpoint split_from (cur : string) (s : string) : list string :=
  match s with
  | EmptyString => flush cur
  | String c s' =>
      if isspace c then flush cur ++ split_from EmptyString s'
      else split_from (cur +:+ chr c) s'
  end.

Definition split (s : string) : list string := split_from EmptyString s.

(** [sep.join(l)] *)
Fixpoint join (sep : string) (l : list string) : string :=
  match l with
  | [] => EmptyString
  | [x] => x
  | x :: l' => x +:+ sep +:+ join sep l'
  end.

(** [str(z)], also [f"{z}"] *)
Definition str (z : Z) : string := NilZero.string_of_int (Z.to_int z).

(** [int(s)] for a non-empty string of decimal digits, the only strings
    the program converts. *)
Fixpoint int_from (acc : Z) (s : string) : Z :=
  match s with
  | EmptyString => acc
  | String c s' => int_from (10 * acc + (ord c - 48)) s'
  end.

Definition int (s : string) : Z := int_from 0 s.

(** Truth value of an optional string: [None] and [''] are false. *)
Definition truthy (o : option string) : bool :=
  match o with
  | None | Some EmptyString => false
  | Some _ => true
  end.

End Py.

(** A Python [dict] whose iteration order the program relies on is an
    association list in insertion order (its keys are distinct). *)
Module Dict.
Section Dict.
Context {K V : Type} (eqb : K -> K -> bool).

(** [d[k]], [None] for [KeyError]; also decides [k in d]. *)
Fixpoint get (d : list (K * V)) (k : K) : option V :=
  match d with
  | [] => None
  | (k', v) :: d' => if eqb k k' then Some v else get d' k
  end.

(** [{v: k for k, v in d.items()}] *)
Definition inverse (d : list (K * V)) : list (V * K) :=
  map (fun kv => (snd kv, fst kv)) d.
End Dict.
End Dict.

(** ** Configuration *)

Definition cell : Type := Z * Z.

Definition cell_eqb (a b : cell) : bool :=
  (fst a =? fst b) && (snd a =? snd b).

Definition LANG_CELLS : list (string * cell) :=
  [("ar", (1, 5)); ("zh", (1, 6)); ("fr", (1, 7));
   ("pt", (1, 8)); ("es", (1, 9)); ("eng", (1, 10))].
Definition LANG_CELLS_INV : list (cell * string) := Dict.inverse LANG_CELLS.

Definition DATA_TYPES : list (string * cell) :=
  [("bin", (18, 6)); ("enc", (18, 7)); ("so", (18, 8)); ("im", (18, 9))].
Definition DATA_TYPES_INV : list (cell * string) := Dict.inverse DATA_TYPES.

Definition SUFFIXES : list (string * cell) :=
  [("s", (13, 7)); ("r", (13, 8)); ("n", (13, 9))].
Definition SUFFIXES_INV : list (cell * string) := Dict.inverse SUFFIXES.

Definition dquote : ascii := ascii_of_nat 34.

Definition PUNCT_ATTACH_RIGHT : gset string :=
  {[ "."; ","; ";"; ":"; "!"; "?"; ")"; Py.chr dquote; "'"; "-" ]}.

(** ** Tokenizer *)

(** The character classes of the regular expressions of [tokenize].  Both
    expressions are alternations of a run of letters (with the apostrophe),
    a run of digits, and a single punctuation mark; the classes of the
    alternatives are disjoint, except for the apostrophe, which the letter
    alternative takes first in both. *)
Inductive char_class : Type := Letter | Digit | Punct.

Definition char_class_eqb (a b : char_class) : bool :=
  match a, b with
  | Letter, Letter | Digit, Digit | Punct, Punct => true
  | _, _ => false
  end.

Definition is_letter (c : ascii) : bool :=
  Py.in_range 97 122 c || Py.in_range 65 90 c || Ascii.eqb c "'".

Definition is_punct (c : ascii) : bool :=
  Py.contains c (".,;:!?()" +:+ Py.chr dquote +:+ "'-").

Definition classify (c : ascii) : option char_class :=
  if is_letter c then Some Letter
  else if Py.in_range 48 57 c then Some Digit
  else if is_punct c then Some Punct
  else None.

(** [re.findall] with such an expression: scan from the left; a letter or a
    digit extends the run of its class or starts a new one, a punctuation
    mark is a token by itself, any other character ends the run.  [run] is
    the class of the run [cur] being read. *)
Fixpoint findall (run : option char_class) (cur : string) (s : string)
  : list string :=
  match s with
  | EmptyString => Py.flush cur
  | String c s' =>
      match classify c with
      | Some Punct => Py.flush cur ++ Py.chr c :: findall None EmptyString s'
      | Some k =>
          if from_option (char_class_eqb k) false run
          then findall run (cur +:+ Py.chr c) s'
          else Py.flush cur ++ findall (Some k) (Py.chr c) s'
      | None => Py.flush cur ++ findall None EmptyString s'
      end
  end.

Definition tokenize (text lang : string) : list string :=
  if String.eqb lang "zh" then Py.chars (Py.remove " " text)
  else if String.eqb lang "ar" then findall None EmptyString text
  else findall None EmptyString (Py.lower text).

(** ** Encoder *)

(** [re.match(r'^[0-9]+$', t)]: one or more digits up to the end of [t],
    where [$] also matches before a final line feed. *)
Fixpoint all_digits_to_end (t : string) : bool :=
  match t with
  | EmptyString => true
  | String c EmptyString => Py.in_range 48 57 c || Ascii.eqb c "010"
  | String c t' => Py.in_range 48 57 c && all_digits_to_end t'
  end.

Definition is_number (t : string) : bool :=
  match t with
  | EmptyString => false
  | String c _ => Py.in_range 48 57 c && all_digits_to_end t
  end.

(** The body of the loop of phase 1, on the pair [(raw, not_found)]. *)
Definition encode_token (enc : gmap string Z) (lang : string)
    (st : list string * list string) (t : string)
  : list string * list string :=
  let '(raw, not_found) := st in
  if is_number t then (raw ++ [t +:+ "n"], not_found)
  else
    let t_lower := if negb (String.eqb lang "zh") then Py.lower t else t in
    match enc !! t_lower with
    | Some id => (raw ++ [Py.str id +:+ "b"], not_found)
    | None =>
        match enc !! t with
        | Some id => (raw ++ [Py.str id +:+ "b"], not_found)
        | None => (raw, not_found ++ [t])
        end
    end.

Definition phase1 (enc : gmap string Z) (lang : string) (tokens : list string)
  : list string * list string :=
  fold_left (encode_token enc lang) tokens ([], []).

(** The inner loop of phase 2:
    [while i + count < len(raw) and raw[i + count] == raw[i]: count += 1]. *)
Fixpoint run_length (fuel : nat) (raw : list string) (i count : nat) : nat :=
  match fuel with
  | O => count
  | S fuel' =>
      match raw !! (i + count)%nat, raw !! i with
      | Some a, Some b =>
          if String.eqb a b then run_length fuel' raw i (S count) else count
      | _, _ => count
      end
  end.

(** The outer loop of phase 2: [while i < len(raw): ...; i += count].  Each
    round advances [i] by at least one, so [len(raw)] rounds are enough. *)
Fixpoint compress_from (fuel : nat) (raw : list string) (i : nat)
    (result : list string) : list string :=
  match fuel with
  | O => result
  | S fuel' =>
      match raw !! i with
      | None => result
      | Some x =>
          let count := run_length (length raw) raw i 1 in
          let result := result ++ [x] in
          let result :=
            if (1 <? count)%nat
            then result ++ [Py.str (Z.of_nat count) +:+ "r"] else result in
          compress_from fuel' raw (i + count)%nat result
      end
  end.

Definition compress (raw : list string) : list string :=
  compress_from (length raw) raw 0%nat [].

(** [encode], with the global [dicts_encode] as its first argument. *)
Definition encode (dicts_encode : gmap string (gmap string Z))
    (text lang : string) : list string :=
  match dicts_encode !! lang with
  | None => []
  | Some enc => compress (fst (phase1 enc lang (tokenize text lang)))
  end.

(** ** Decoder *)

(** The scan of one wire item, character by character, on the pair
    [(num_str, suffix)]. *)
Fixpoint scan_item (token : string) (num_str : string) (suffix : option string)
  : string * option string :=
  match token with
  | EmptyString => (num_str, suffix)
  | String ch rest =>
      if Py.isdigit ch then scan_item rest (num_str +:+ Py.chr ch) suffix
      else if Py.contains ch "bnsr" then scan_item rest num_str (Some (Py.chr ch))
      else scan_item rest num_str suffix
  end.

(** [suffix == s] *)
Definition suffix_is (suffix : option string) (s : string) : bool :=
  match suffix with
  | Some s' => String.eqb s' s
  | None => false
  end.

(** [for _ in range(n): words.append(w)] *)
Fixpoint append_times (n : nat) (w : string) (words : list string)
  : list string :=
  match n with
  | O => words
  | S n' => append_times n' w (words ++ [w])
  end.

(** What a wire item with digits [num_str] and tag [suffix] does to the
    list [words]: the body of the main loop of [decode] after the scan. *)
Definition apply_item (dec : gmap Z string) (words : list string)
    (num_str : string) (suffix : option string) : list string :=
  match num_str with
  | EmptyString => words
  | _ =>
      let tid := Py.int num_str in
      if suffix_is suffix "n" then words ++ [Py.str tid]
      else if suffix_is suffix "r" then
        match last words with
        | Some w => append_times (Z.to_nat (tid - 1)) w words
        | None => words
        end
      else if suffix_is suffix "s" then words
      else
        match dec !! tid with
        | Some w => words ++ [w]
        | None => words ++ ["[?" +:+ Py.str tid +:+ "]"]
        end
  end.

(** The body of the main loop of [decode], on the list [words]. *)
Definition decode_token (dec : gmap Z string) (words : list string)
    (token : string) : list string :=
  let '(num_str, suffix) := scan_item token EmptyString None in
  apply_item dec words num_str suffix.

Definition decode_words (dec : gmap Z string) (tokens : list string)
  : list string :=
  fold_left (decode_token dec) tokens [].

(** [parts and parts[-1] and parts[-1][-1] in ('(',)] *)
Definition after_open_paren (parts : list string) : bool :=
  match last parts with
  | Some p =>
      match Py.last_char p with
      | Some c => Ascii.eqb c "("
      | None => false
      end
  | None => false
  end.

(** The loop that spaces the words, [i] being the index of the word [w]. *)
Fixpoint build_parts (i : nat) (words : list string) (parts : list string)
  : list string :=
  match words with
  | [] => parts
  | w :: words' =>
      let parts :=
        if (i =? 0)%nat then parts ++ [w]
        else if bool_decide (w ∈ PUNCT_ATTACH_RIGHT) then parts ++ [w]
        else if after_open_paren parts then parts ++ [w]
        else parts ++ [" " +:+ w] in
      build_parts (S i) words' parts
  end.

Definition is_sentence_end (c : ascii) : bool := Py.contains c ".!?".

(** The letters of the second group of the capitalisation pattern. *)
Definition is_small_letter (c : ascii) : bool := Py.in_range 97 122 c.

(** [re.sub(r'([.!?])\s+([a-z...])', lambda m: m.group(1) + ' ' +
    m.group(2).upper(), text)], as a scan from the left.  [pending] is
    [Some (m, ws)] when the sentence mark [m] and then the white space [ws]
    have been read and may still start a match. *)
Fixpoint capitalize_sentences (pending : option (ascii * string)) (text : string)
  : string :=
  match text with
  | EmptyString =>
      match pending with
      | Some (m, ws) => String m ws
      | None => EmptyString
      end
  | String c text' =>
      let afresh :=
        if is_sentence_end c
        then capitalize_sentences (Some (c, EmptyString)) text'
        else String c (capitalize_sentences None text') in
      match pending with
      | Some (m, ws) =>
          if Py.isspace c
          then capitalize_sentences (Some (m, ws +:+ Py.chr c)) text'
          else
            match ws with
            | EmptyString => String m afresh
            | _ =>
                if is_small_letter c
                then String m (String " " (String (Py.upper_char c)
                       (capitalize_sentences None text')))
                else String m (ws +:+ afresh)
            end
      | None => afresh
      end
  end.

(** The second half of [decode]: from the decoded words to the text. *)
Definition reconstruct (lang : string) (words : list string) : string :=
  if String.eqb lang "zh" then Py.join EmptyString words
  else
    match words with
    | [] => EmptyString
    | _ =>
        let text := Py.join EmptyString (build_parts 0 words []) in
        match text with
        | EmptyString => text
        | String c text' =>
            capitalize_sentences None (Py.upper (Py.chr c) +:+ text')
        end
    end.

(** [decode], with the global [dicts_decode] as its first argument. *)
Definition decode (dicts_decode : gmap string (gmap Z string))
    (numcode_str lang : string) : string :=
  match dicts_decode !! lang with
  | None => EmptyString
  | Some dec => reconstruct lang (decode_words dec (Py.split numcode_str))
  end.

(** ** Pillow *)

Module Pil.

(** An image of mode ['1']: its size and the value of the pixel at
    [(x, y)]. *)
Record image : Type := Image {
  width : Z;
  height : Z;
  pixels : Z -> Z -> Z
}.

(** [Image.new('1', (w, h), color=color)] *)
Definition new (w h color : Z) : image :=
  {| width := w; height := h; pixels := fun _ _ => color |}.

Definition inside (img : image) (x y : Z) : bool :=
  (0 <=? x) && (x <? width img) && (0 <=? y) && (y <? height img).

(** [px[x, y]], an [IndexError] outside the image (the program uses no
    negative index). *)
Definition getpixel (img : image) (x y : Z) : option Z :=
  if inside img x y then Some (pixels img x y) else None.

(** [px[x, y] = v] *)
Definition putpixel (img : image) (x y v : Z) : option image :=
  if inside img x y
  then Some {| width := width img; height := height img;
               pixels := fun x' y' =>
                 if (x' =? x) && (y' =? y) then v else pixels img x' y' |}
  else None.

(** [dst.paste(src, (ox, oy))] *)
Definition paste (dst src : image) (ox oy : Z) : image :=
  {| width := width dst; height := height dst;
     pixels := fun x y =>
       if (ox <=? x) && (x <? ox + width src)
          && (oy <=? y) && (y <? oy + height src)
       then pixels src (x - ox) (y - oy)
       else pixels dst x y |}.

(** What [Image.open(f).convert('1')] gives for an image written by
    [img.save(f)]: the bitmap keeps one bit per pixel, so ink stays 0 and
    any other value reads back as 255. *)
Definition bilevel (img : image) : image :=
  {| width := width img; height := height img;
     pixels := fun x y => if pixels img x y =? 0 then 0 else 255 |}.

End Pil.

(** The image files: [img.save(filename)] binds a name, [Image.open] looks
    it up. *)
Abbreviation files := (gmap string Pil.image).

(** ** Ideogram grid *)

Definition UNITS_POS : list (Z * cell) :=
  [(9, (14, 7)); (8, (14, 8)); (7, (14, 9)); (6, (15, 7)); (5, (15, 8));
   (4, (15, 9)); (3, (16, 7)); (2, (16, 8)); (1, (16, 9))].

Definition TENS_LOW_POS : list (Z * cell) :=
  [(1, (17, 6)); (2, (16, 6)); (3, (15, 6)); (4, (14, 6)); (5, (13, 6))].

Definition TENS_HIGH_POS : list (Z * cell) :=
  [(6, (12, 6)); (7, (12, 7)); (8, (12, 8)); (9, (12, 9))].

Definition PLACES : list (Z * Z) :=
  [(100, 7); (1000, 8); (10000, 9); (100000, 6); (1000000, 5);
   (10000000, 4); (100000000, 3); (1000000000, 2)].

(** The loop over the places of [id_to_cells], on the list [cells]. *)
Definition place_cell (number : Z) (cells : list cell) (pc : Z * Z)
  : list cell :=
  let '(place, col) := pc in
  let digit := (number / place) mod 10 in
  if 0 <? digit then cells ++ [(11 - (digit - 1), col)] else cells.

Definition id_to_cells (number : Z) : option (list cell) :=
  let cells := [] in
  let u := number mod 10 in
  bind cells :=
    (if 0 <? u
     then bind pos := Dict.get Z.eqb UNITS_POS u in Some (cells ++ [pos])
     else Some cells) in
  let d := (number / 10) mod 10 in
  bind cells :=
    (if 0 <? d
     then
       if d <=? 5
       then bind pos := Dict.get Z.eqb TENS_LOW_POS d in Some (cells ++ [pos])
       else bind pos := Dict.get Z.eqb TENS_HIGH_POS d in Some (cells ++ [pos])
     else Some cells) in
  Some (fold_left (place_cell number) PLACES cells).

(** [for row, col in cells: if 0 <= row-1 < 20 and 0 <= col-1 < 10:
    px[col-1, row-1] = 0] *)
Fixpoint paint (block : Pil.image) (cells : list cell) : option Pil.image :=
  match cells with
  | [] => Some block
  | (row, col) :: cells' =>
      if (0 <=? row - 1) && (row - 1 <? 20) && (0 <=? col - 1) && (col - 1 <? 10)
      then bind block := Pil.putpixel block (col - 1) (row - 1) 0 in
           paint block cells'
      else paint block cells'
  end.

(** The scan [for ch in token: if ch in 'snrSNR': suffix = ch.lower()]. *)
Fixpoint scan_suffix (token : string) (suffix : option string) : option string :=
  match token with
  | EmptyString => suffix
  | String ch rest =>
      if Py.contains ch "snrSNR"
      then scan_suffix rest (Some (Py.lower (Py.chr ch)))
      else scan_suffix rest suffix
  end.

(** The header block of [create_strip]. *)
Definition header_block (lang data_type : option string) : option Pil.image :=
  let header := Pil.new 10 20 1 in
  bind header :=
    match lang with
    | Some l =>
        match l, Dict.get String.eqb LANG_CELLS l with
        | String _ _, Some (r, c) => Pil.putpixel header (c - 1) (r - 1) 0
        | _, _ => Some header
        end
    | None => Some header
    end in
  match data_type with
  | Some t =>
      match t, Dict.get String.eqb DATA_TYPES t with
      | String _ _, Some (r, c) => Pil.putpixel header (c - 1) (r - 1) 0
      | _, _ => Some header
      end
  | None => Some header
  end.

(** The body of the loop over [enumerate(token_list)], on the image. *)
Definition draw_token (img : Pil.image) (offset i : Z) (token : string)
  : option Pil.image :=
  let block := Pil.new 10 20 1 in
  let num_str := Py.filter Py.isdigit token in
  let suffix := scan_suffix token None in
  match num_str with
  | EmptyString => Some img
  | _ =>
      bind cells := id_to_cells (Py.int num_str) in
      let cells :=
        match suffix with
        | Some s =>
            match s, Dict.get String.eqb SUFFIXES s with
            | String _ _, Some pos => cells ++ [pos]
            | _, _ => cells
            end
        | None => cells
        end in
      bind block := paint block cells in
      Some (Pil.paste img block ((i + offset) * 10) 0)
  end.

Fixpoint draw_tokens (img : Pil.image) (offset i : Z) (token_list : list string)
  : option Pil.image :=
  match token_list with
  | [] => Some img
  | token :: rest =>
      bind img := draw_token img offset i token in
      draw_tokens img offset (i + 1) rest
  end.

(** [create_strip], with Pillow installed: the files after the call and the
    number of blocks returned. *)
Definition create_strip (token_list : list string) (lang data_type : option string)
    (filename : string) (fs : files) : option (files * Z) :=
  let has_header := Py.truthy lang || Py.truthy data_type in
  let total := Z.of_nat (length token_list) + (if has_header then 1 else 0) in
  let img := Pil.new (10 * total) 20 1 in
  bind img :=
    (if has_header
     then bind header := header_block lang data_type in
          Some (Pil.paste img header 0 0)
     else Some img) in
  let offset := if has_header then 1 else 0 in
  bind img := draw_tokens img offset 0 token_list in
  Some (<[filename := img]> fs, total).

Definition read_cell (pixels : Pil.image) (block_x row col : Z) : option bool :=
  bind v := Pil.getpixel pixels (block_x * 10 + (col - 1)) (row - 1) in
  Some (v =? 0).

(** [for (r, c), name in table.items(): if read_cell(...): found = name;
    break], the name found or [None]. *)
Fixpoint first_named (pixels : Pil.image) (block_x : Z)
    (table : list (cell * string)) : option (option string) :=
  match table with
  | [] => Some None
  | ((r, c), name) :: table' =>
      bind active := read_cell pixels block_x r c in
      if active then Some (Some name) else first_named pixels block_x table'
  end.

Definition read_header (pixels : Pil.image) (block_x : Z)
  : option (option string * option string) :=
  bind lang := first_named pixels block_x LANG_CELLS_INV in
  bind dtype := first_named pixels block_x DATA_TYPES_INV in
  Some (lang, dtype).

(** [for v, (r, c) in pos.items(): if read_cell(...): number += v * scale;
    break], the value found or [None]. *)
Fixpoint first_digit (pixels : Pil.image) (block_x : Z) (pos : list (Z * cell))
  : option (option Z) :=
  match pos with
  | [] => Some None
  | (v, (r, c)) :: pos' =>
      bind active := read_cell pixels block_x r c in
      if active then Some (Some v) else first_digit pixels block_x pos'
  end.

(** The loop [for v in range(1, 10)] of one place, on [number]. *)
Fixpoint read_place (pixels : Pil.image) (block_x : Z) (place col : Z)
    (vs : list Z) (number : Z) : option Z :=
  match vs with
  | [] => Some number
  | v :: vs' =>
      let row := 11 - (v - 1) in
      if (place =? 100000) && (12 <=? row)
      then read_place pixels block_x place col vs' number
      else
        bind active := read_cell pixels block_x row col in
        if active then Some (number + v * place)
        else read_place pixels block_x place col vs' number
  end.

Fixpoint read_places (pixels : Pil.image) (block_x : Z) (places : list (Z * Z))
    (number : Z) : option Z :=
  match places with
  | [] => Some number
  | (place, col) :: places' =>
      bind number := read_place pixels block_x place col (seqZ 1 9) number in
      read_places pixels block_x places' number
  end.

Definition read_block (pixels : Pil.image) (block_x : Z) : option (Z * string) :=
  let number := 0 in
  let suffix := "b" in
  bind u := first_digit pixels block_x UNITS_POS in
  let number := match u with Some v => number + v | None => number end in
  bind high := first_digit pixels block_x TENS_HIGH_POS in
  bind number :=
    match high with
    | Some v => Some (number + v * 10)
    | None =>
        bind low := first_digit pixels block_x TENS_LOW_POS in
        Some (match low with Some v => number + v * 10 | None => number end)
    end in
  bind number := read_places pixels block_x PLACES number in
  bind s := first_named pixels block_x SUFFIXES_INV in
  let suffix := match s with Some s => s | None => suffix end in
  Some (number, suffix).

(** [for i in range(start, num_blocks): n, s = read_block(pixels, i);
    result.append(f"{n}{s}")] *)
Fixpoint read_blocks (pixels : Pil.image) (blocks : list Z) (result : list string)
  : option (list string) :=
  match blocks with
  | [] => Some result
  | i :: blocks' =>
      bind (n, s) := read_block pixels i in
      read_blocks pixels blocks' (result ++ [Py.str n +:+ s])
  end.

(** [read_strip], with Pillow installed; a missing file is an error. *)
Definition read_strip (filename : string) (fs : files)
  : option (option string * option string * string) :=
  bind img := Pil.bilevel <$> fs !! filename in
  let num_blocks := Pil.width img / 10 in
  if num_blocks =? 0 then Some (None, None, EmptyString)
  else
    bind (lang, dtype) := read_header img 0 in
    let start := if Py.truthy lang || Py.truthy dtype then 1 else 0 in
    bind result := read_blocks img (seqZ start (num_blocks - start)) [] in
    Some (lang, dtype, Py.join " " result).

(** ** Python built-ins of the loader and of the interactive loop *)

Module PyStr.

Fixpoint lstrip (s : string) : string :=
  match s with
  | EmptyString => EmptyString
  | String c s' => if Py.isspace c then lstrip s' else s
  end.

Fixpoint rstrip (s : string) : string :=
  match s with
  | EmptyString => EmptyString
  | String c s' =>
      match rstrip s' with
      | EmptyString => if Py.isspace c then EmptyString else Py.chr c
      | r => String c r
      end
  end.

(** [s.strip()] *)
Definition strip (s : string) : string := rstrip (lstrip s).

(** [s.split(sep)] for a one-character separator: the fields between the
    separators, empty ones included. *)
Fixpoint split_sep_from (sep : ascii) (cur : string) (s : string) : list string :=
  match s with
  | EmptyString => [cur]
  | String c s' =>
      if Ascii.eqb c sep then cur :: split_sep_from sep EmptyString s'
      else split_sep_from sep (cur +:+ Py.chr c) s'
  end.

Definition split_sep (sep : ascii) (s : string) : list string :=
  split_sep_from sep EmptyString s.

(** The white space [int] skips around the numeral of an ASCII string:
    TAB, LF, VT, FF, CR and the space. *)
Definition int_space (c : ascii) : bool :=
  Py.in_range 9 13 c || Ascii.eqb c " ".

Fixpoint lskip (s : string) : string :=
  match s with
  | EmptyString => EmptyString
  | String c s' => if int_space c then lskip s' else s
  end.

Fixpoint rskip (s : string) : string :=
  match s with
  | EmptyString => EmptyString
  | String c s' =>
      match rskip s' with
      | EmptyString => if int_space c then EmptyString else Py.chr c
      | r => String c r
      end
  end.

(** The digits of a decimal literal: a digit first and last, and single
    underscores between digits.  [prev] tells that the character before
    is a digit. *)
Fixpoint digits_ok (prev : bool) (s : string) : bool :=
  match s with
  | EmptyString => prev
  | String c s' =>
      if Py.isdigit c then digits_ok true s'
      else if Ascii.eqb c "_" then prev && digits_ok false s'
      else false
  end.

(** CPython converts a numeral of at most 4300 digits and raises
    [ValueError] above. *)
Definition MAX_STR_DIGITS : nat := 4300.

Definition digits_value (s : string) : option Z :=
  let ds := Py.filter Py.isdigit s in
  if digits_ok false s && (String.length ds <=? MAX_STR_DIGITS)%nat
  then Some (Py.int ds) else None.

(** [int(s)] for any ASCII string: white space around, an optional sign,
    then the digits; [None] for [ValueError]. *)
Definition parse_int (s : string) : option Z :=
  match rskip (lskip s) with
  | String "-" r => Z.opp <$> digits_value r
  | String "+" r => digits_value r
  | r => digits_value r
  end.

End PyStr.

(** ** Loading the dictionaries *)

Definition LANG_FILES : list (string * string) :=
  [("es", "GOLD_ES.txt"); ("eng", "GOLD_EN.txt"); ("fr", "GOLD_FR.txt");
   ("zh", "GOLD_ZH.txt"); ("ar", "GOLD_AR.txt"); ("pt", "GOLD_PT.txt")].

Definition tab : ascii := ascii_of_nat 9.

Abbreviation lexicons := (gmap string Z * gmap Z string)%type.

(** What a line of a dictionary file contributes: [Some None] for a line
    with fewer than three fields, which is skipped; [None] when [int]
    raises. *)
Definition parse_line (line : string) : option (option (string * Z)) :=
  let p := PyStr.split_sep tab (PyStr.strip line) in
  if (3 <=? length p)%nat then
    bind token := PyStr.strip <$> p !! 1%nat in
    bind p0 := p !! 0%nat in
    bind tid := PyStr.parse_int p0 in
    Some (Some (token, tid))
  else Some None.

(** The body of the loop over the lines, on the pair [(enc, dec)]. *)
Definition load_line (st : lexicons) (line : string) : option lexicons :=
  bind entry := parse_line line in
  Some (match entry with
        | Some (token, tid) => (<[token := tid]> (fst st), <[tid := token]> (snd st))
        | None => st
        end).

Fixpoint load_lines (st : lexicons) (lines : list string) : option lexicons :=
  match lines with
  | [] => Some st
  | line :: lines' =>
      bind st := load_line st line in
      load_lines st lines'
  end.

(** A file is the list of its lines; [f.readline()] takes the first one
    away. *)
Definition load_file (lines : list string) : option lexicons :=
  load_lines (∅, ∅) (tail lines).

Abbreviation dictionaries :=
  (gmap string (gmap string Z) * gmap string (gmap Z string))%type.

(** The loop over [LANG_FILES.items()], on the pair [(dicts_encode,
    dicts_decode)]; [disk] gives the lines of the files of [DICT_DIR] that
    exist. *)
Fixpoint load_languages (disk : gmap string (list string))
    (langs : list (string * string)) (st : dictionaries) : option dictionaries :=
  match langs with
  | [] => Some st
  | (lang, filename) :: langs' =>
      match disk !! filename with
      | None => load_languages disk langs' st
      | Some lines =>
          bind (enc, dec) := load_file lines in
          load_languages disk langs'
            (<[lang := enc]> (fst st), <[lang := dec]> (snd st))
      end
  end.

Definition load_dictionaries (disk : gmap string (list string))
  : option dictionaries :=
  load_languages disk LANG_FILES (∅, ∅).

(** ** Language detection *)

(** [re.search(r'[lo-hi]', text)] for a class [p] of characters *)
Fixpoint has_char (p : ascii -> bool) (text : string) : bool :=
  match text with
  | EmptyString => false
  | String c text' => p c || has_char p text'
  end.

(** The characters of [\w]. *)
Definition is_word_char (c : ascii) : bool :=
  Py.in_range 97 122 c || Py.in_range 65 90 c || Py.in_range 48 57 c
  || Ascii.eqb c "_".

(** The maximal runs of word characters of a text. *)
Fixpoint word_runs (cur : string) (text : string) : list string :=
  match text with
  | EmptyString => Py.flush cur
  | String c text' =>
      if is_word_char c then word_runs (cur +:+ Py.chr c) text'
      else Py.flush cur ++ word_runs EmptyString text'
  end.

(** [re.search(r'\b(w1|...|wn)\b', text)] for words made of word
    characters: [\b] holds between a word character and a character that
    is none, or an end of the text, so a match is a maximal run of word
    characters that is one of the words. *)
Definition search_word (words : list string) (text : string) : bool :=
  existsb (fun run => existsb (String.eqb run) words) (word_runs EmptyString text).

Definition ENGLISH_WORDS : list string :=
  ["the"; "is"; "are"; "was"; "were"; "have"; "has"; "will"; "would"; "could"].

Definition FRENCH_WORDS : list string :=
  ["le"; "les"; "une"; "est"; "sont"; "avec"; "pour"; "dans"; "qui"; "mais"].

Definition detect_language (text : string) : string :=
  if has_char (Py.in_range 19968 40959) text then "zh"
  else if has_char (Py.in_range 1536 1791) text then "ar"
  else if search_word ENGLISH_WORDS (Py.lower text) then "eng"
  else if search_word FRENCH_WORDS (Py.lower text) then "fr"
  else "es".

(** ** Interactive mode *)

(** What one turn of the loop of [main] does, besides printing. *)
Inductive turn : Type :=
| Empty_input
| Goodbye
| No_strip
| Strip_read (lang dtype : option string) (content : string)
    (text : option string)
| Could_not_encode
| Encoded (lang : string) (ids : list string) (numcode_str : string)
    (blocks : Z) (text_r : string) (ok : bool).

Definition is_one_of (words : list string) (s : string) : bool :=
  existsb (String.eqb s) words.

(** The body of the loop of [main] for the line [line] read by [input]:
    the files after the turn and what the turn did; the loop goes on
    unless the turn is [Goodbye]. *)
Definition main_turn (dicts_encode : gmap string (gmap string Z))
    (dicts_decode : gmap string (gmap Z string)) (line : string) (fs : files)
  : option (files * turn) :=
  let entrada := PyStr.strip line in
  match entrada with
  | EmptyString => Some (fs, Empty_input)
  | _ =>
      if is_one_of ["salir"; "quit"; "exit"] (Py.lower entrada)
      then Some (fs, Goodbye)
      else if is_one_of ["leer"; "read"] (Py.lower entrada) then
        match fs !! "strip.png" with
        | Some _ =>
            bind (lang, dtype, content) := read_strip "strip.png" fs in
            Some (fs, Strip_read lang dtype content
                        (match lang with
                         | Some (String _ _ as l) =>
                             Some (decode dicts_decode content l)
                         | _ => None
                         end))
        | None => Some (fs, No_strip)
        end
      else
        let lang := detect_language entrada in
        let ids := encode dicts_encode entrada lang in
        match ids with
        | [] => Some (fs, Could_not_encode)
        | _ =>
            let numcode_str := Py.join " " ids in
            bind (fs, blocks) := create_strip ids (Some lang) None "strip.png" fs in
            bind (lang_r, content_r) :=
              (if blocks =? 0 then Some (Some lang, numcode_str)
               else bind (lang_r, _, content_r) := read_strip "strip.png" fs in
                    Some (lang_r, content_r)) in
            let '(lang_r, content_r) :=
              match lang_r with
              | Some (String _ _ as l) => (l, content_r)
              | _ => (lang, numcode_str)
              end in
            let text_r := decode dicts_decode content_r lang_r in
            let ok := String.eqb numcode_str content_r in
            Some (fs, Encoded lang ids numcode_str blocks text_r ok)
        end
  end.

(** * Notions used to state and prove the properties *)

(** Every character of [s] satisfies [p]. *)
Fixpoint all_chars (p : ascii -> bool) (s : string) : bool :=
  match s with
  | EmptyString => true
  | String c s' => p c && all_chars p s'
  end.

(** A wire item is a Repeat item when its tag letter is [r]; its count is
    written by its digits. *)
Definition is_repeat (item : string) : bool :=
  match Py.last_char item with
  | Some c => Ascii.eqb c "r"
  | None => false
  end.

Definition count_of (item : string) : Z := Py.int (Py.filter Py.isdigit item).

(** The sequence a compressed wire sequence stands for: an item followed by
    a Repeat item of count [k] stands for [k] copies of the item. *)
Fixpoint expand (wire : list string) : list string :=
  match wire with
  | [] => []
  | x :: rest =>
      match rest with
      | r :: rest' =>
          if is_repeat r
          then replicate (Z.to_nat (count_of r)) x ++ expand rest'
          else x :: expand rest
      | [] => [x]
      end
  end.

(** [Rle raw out]: [out] is [raw] with every maximal run of [k >= 2] equal
    items replaced by the item and the Repeat item of count [k]. *)
Inductive Rle : list string -> list string -> Prop :=
| Rle_nil : Rle [] []
| Rle_one x raw out :
    head raw <> Some x -> Rle raw out -> Rle (x :: raw) (x :: out)
| Rle_run x k raw out :
    (2 <= k)%nat -> head raw <> Some x -> Rle raw out ->
    Rle (replicate k x ++ raw) (x :: (Py.str (Z.of_nat k) +:+ "r") :: out).

(** The items phase 1 appends to [raw] for one token. *)
Definition raw_items (enc : gmap string Z) (lang : string) (t : string)
  : list string :=
  fst (encode_token enc lang ([], []) t).

(** The digits of a wire item, in order, and its last tag letter among
    [b], [n], [s], [r], if any. *)
Definition digits_of (token : string) : string := Py.filter Py.isdigit token.

Definition last_tag (token : string) : option string :=
  Py.chr <$> Py.last_char (Py.filter (fun c => Py.contains c "bnsr") token).

(** The cells [id_to_cells] lights for a units digit, a tens digit and one
    higher place. *)
Definition units_cells (u : Z) : list cell :=
  if 0 <? u then option_list (Dict.get Z.eqb UNITS_POS u) else [].

Definition tens_cells (d : Z) : list cell :=
  if 0 <? d
  then option_list (Dict.get Z.eqb (if d <=? 5 then TENS_LOW_POS else TENS_HIGH_POS) d)
  else [].

Definition place_cells (number : Z) (pc : Z * Z) : list cell :=
  place_cell number [] pc.

(** *** Blocks seen as sets of inked cells *)

Definition cell_mem (x : cell) (cells : list cell) : bool :=
  existsb (cell_eqb x) cells.

(** The cell [(row, col)] of the block [block_x] of [img] is inked. *)
Definition active (img : Pil.image) (block_x row col : Z) : bool :=
  Pil.pixels img (block_x * 10 + (col - 1)) (row - 1) =? 0.

(** The cell lies in the 20 x 10 grid of a block. *)
Definition in_grid (x : cell) : bool :=
  (1 <=? fst x) && (fst x <=? 20) && (1 <=? snd x) && (snd x <=? 10).

(** The block [block_x] lies inside [img]. *)
Definition block_ok (img : Pil.image) (block_x : Z) : Prop :=
  0 <= block_x /\ block_x * 10 + 10 <= Pil.width img /\ 20 <= Pil.height img.

(** The readers of [read_header] and [read_block], on the inked cells
    [act] of a block instead of the pixels of an image. *)
Fixpoint find_named (act : Z -> Z -> bool) (table : list (cell * string))
  : option string :=
  match table with
  | [] => None
  | ((r, c), name) :: table' =>
      if act r c then Some name else find_named act table'
  end.

Fixpoint find_digit (act : Z -> Z -> bool) (pos : list (Z * cell)) : option Z :=
  match pos with
  | [] => None
  | (v, (r, c)) :: pos' => if act r c then Some v else find_digit act pos'
  end.

Fixpoint find_place (act : Z -> Z -> bool) (place col : Z) (vs : list Z)
    (number : Z) : Z :=
  match vs with
  | [] => number
  | v :: vs' =>
      let row := 11 - (v - 1) in
      if (place =? 100000) && (12 <=? row) then find_place act place col vs' number
      else if act row col then number + v * place
      else find_place act place col vs' number
  end.

Fixpoint find_places (act : Z -> Z -> bool) (places : list (Z * Z)) (number : Z)
  : Z :=
  match places with
  | [] => number
  | (place, col) :: places' =>
      find_places act places' (find_place act place col (seqZ 1 9) number)
  end.

Definition block_value (act : Z -> Z -> bool) : Z * string :=
  let number := match find_digit act UNITS_POS with Some v => v | None => 0 end in
  let number :=
    match find_digit act TENS_HIGH_POS with
    | Some v => number + v * 10
    | None =>
        match find_digit act TENS_LOW_POS with
        | Some v => number + v * 10
        | None => number
        end
    end in
  (find_places act PLACES number,
   match find_named act SUFFIXES_INV with Some s => s | None => "b" end).

Definition header_value (act : Z -> Z -> bool) : option string * option string :=
  (find_named act LANG_CELLS_INV, find_named act DATA_TYPES_INV).

(** The marker cell [create_strip] adds for the tag [suffix]. *)
Definition suffix_cells (suffix : option string) : list cell :=
  match suffix with
  | Some s =>
      match s, Dict.get String.eqb SUFFIXES s with
      | String _ _, Some pos => [pos]
      | _, _ => []
      end
  | None => []
  end.

(** The cells [id_to_cells] returns. *)
Definition number_cells (number : Z) : list cell :=
  units_cells (number mod 10) ++ tens_cells ((number / 10) mod 10)
  ++ flat_map (place_cells number) PLACES.

(** The cells [create_strip] inks for a token, [None] for a token without
    digits, which it skips. *)
Definition token_cells (token : string) : option (list cell) :=
  match Py.filter Py.isdigit token with
  | EmptyString => None
  | num_str =>
      Some (number_cells (Py.int num_str) ++ suffix_cells (scan_suffix token None))
  end.

(** The part of the grid a cell belongs to: 0 for the units, 1 for the
    tens, 2 for the tag markers, [10 + col] for the place of column [col],
    and -1 elsewhere. *)
Definition region (x : cell) : Z :=
  let '(r, c) := x in
  if (3 <=? r) && (r <=? 11) && (2 <=? c) && (c <=? 9) then 10 + c
  else if (14 <=? r) && (r <=? 16) && (7 <=? c) && (c <=? 9) then 0
  else if ((r =? 12) && (6 <=? c) && (c <=? 9))
          || ((c =? 6) && (13 <=? r) && (r <=? 17)) then 1
  else if (r =? 13) && (7 <=? c) && (c <=? 9) then 2
  else -1.

(** The wire item a block with the inked cells [act] reads as. *)
Definition block_text (act : Z -> Z -> bool) : string :=
  let '(n, s) := block_value act in Py.str n +:+ s.

(** *** Wire tokens *)

Inductive tag : Type := Dictionary | Literal | Repeat | Sparse.

Definition tag_letter (t : tag) : string :=
  match t with
  | Dictionary => "b"
  | Literal => "n"
  | Repeat => "r"
  | Sparse => "s"
  end.

(** The canonical text of a wire token: its value in decimal, then its tag
    letter. *)
Definition wire_text (w : Z * tag) : string :=
  Py.str (fst w) +:+ tag_letter (snd w).

(** The tag [create_strip] finds in the canonical text: none for
    Dictionary. *)
Definition tag_suffix (t : tag) : option string :=
  match t with
  | Dictionary => None
  | _ => Some (tag_letter t)
  end.

(** A character that is not white space; a character of a token of the
    regular expressions. *)
Definition nospace (c : ascii) : bool := negb (Py.isspace c).

Definition token_char (c : ascii) : bool :=
  match classify c with
  | Some _ => true
  | None => false
  end.


(** *** What a strip keeps of a token *)

(** The item read back from the block [create_strip] draws for a token: the
    last ten digits of its number and its marker letter, and "0b" for a
    token without digits. *)
Definition strip_form (token : string) : string :=
  match Py.filter Py.isdigit token with
  | EmptyString => "0b"
  | num_str =>
      Py.str (Py.int num_str mod 10000000000)
      +:+ from_option id "b" (scan_suffix token None)
  end.

(** The language and the data type a header block shows: the ones given
    when they are configured. *)
Definition header_lang (lang : option string) : option string :=
  match lang with
  | Some l =>
      match l, Dict.get String.eqb LANG_CELLS l with
      | String _ _, Some _ => Some l
      | _, _ => None
      end
  | None => None
  end.

Definition header_dtype (data_type : option string) : option string :=
  match data_type with
  | Some t =>
      match t, Dict.get String.eqb DATA_TYPES t with
      | String _ _, Some _ => Some t
      | _, _ => None
      end
  | None => None
  end.


(** *** What decoding keeps of a token *)

(** The word a token gives after encoding and decoding with a lexicon whose
    two maps agree: a number in decimal without leading zeros, the form
    under which the token was found, and nothing for a token that was not
    found. *)
Definition kept_word (enc : gmap string Z) (lang : string) (t : string)
  : list string :=
  if is_number t then [Py.str (Py.int t)]
  else
    let t_lower := if negb (String.eqb lang "zh") then Py.lower t else t in
    match enc !! t_lower with
    | Some _ => [t_lower]
    | None =>
        match enc !! t with
        | Some _ => [t]
        | None => []
        end
    end.

(** *** The entries of a dictionary file *)

(** The entry of a line that is read and kept. *)
Definition line_entry (line : string) : option (string * Z) :=
  match parse_line line with
  | Some entry => entry
  | None => None
  end.

(** The line can be read: [int] does not raise on it. *)
Definition line_ok (line : string) : bool :=
  match parse_line line with
  | Some _ => true
  | None => false
  end.

(** The entries of a file, in the order of its lines, the first line left
    out. *)
Definition entries (lines : list string) : list (string * Z) :=
  omap line_entry (tail lines).

(** *** Tokens and the text rebuilt from them *)

(** The character belongs to the class [k]. *)
Definition class_is (k : char_class) (c : ascii) : bool :=
  match classify c with
  | Some k' => char_class_eqb k k'
  | None => false
  end.

(** A token of the class [k]: a non-empty run of letters or of digits, or
    one punctuation mark. *)
Definition word_token (k : char_class) (w : string) : Prop :=
  match k with
  | Punct => exists c, w = Py.chr c /\ classify c = Some Punct
  | _ => w <> EmptyString /\ all_chars (class_is k) w = true
  end.

Definition ends_with_open_paren (w : string) : bool :=
  match Py.last_char w with
  | Some c => Ascii.eqb c "("
  | None => false
  end.

(** The text the spacing loop of [decode] adds for the words [words], the
    first of them of index [i], when [after_open] tells that the text so
    far ends with an opening parenthesis. *)
Fixpoint spaced (i : nat) (after_open : bool) (words : list string) : string :=
  match words with
  | [] => EmptyString
  | w :: words' =>
      (if (i =? 0)%nat || bool_decide (w ∈ PUNCT_ATTACH_RIGHT) || after_open
       then w else " " +:+ w)
      +:+ spaced (S i) (ends_with_open_paren w) words'
  end.

(** Two texts that the tokenizer cannot tell apart, in any state of its
    scan. *)
Definition same_tokens (x y : string) : Prop :=
  forall run cur, findall run cur (Py.lower x) = findall run cur (Py.lower y).

(** The characters of a text that are not white space, without their
    case. *)
Definition squeeze (s : string) : string := Py.lower (Py.filter nospace s).

(** *** The domain of the model *)

(** [s.isascii()] *)
Definition is_ascii (s : string) : bool :=
  all_chars (fun c => Py.ord c <? 128) s.

(** [int(num_str)] returns: the numeral has at most 4300 digits. *)
Definition int_ok (num_str : string) : bool :=
  (String.length num_str <=? PyStr.MAX_STR_DIGITS)%nat.

(** An item that [decode] and [create_strip] can convert: ASCII text
    whose digits make a numeral [int] accepts. *)
Definition item_ok (item : string) : bool :=
  is_ascii item && int_ok (Py.filter Py.isdigit item).

(** * Properties *)

(** ** Python built-ins *)

Lemma append_cons (c : ascii) (s t : string) :
  String c s +:+ t = String c (s +:+ t).
Proof. reflexivity. Qed.

Lemma append_nil_l (t : string) : EmptyString +:+ t = t.
Proof. reflexivity. Qed.

Lemma append_nil_r (s : string) : s +:+ EmptyString = s.
Proof.
  induction s as [|c s IH]; [reflexivity |].
  rewrite append_cons. now f_equal.
Qed.

Lemma append_assoc (a b c : string) : (a +:+ b) +:+ c = a +:+ (b +:+ c).
Proof.
  induction a as [|x a IH]; [reflexivity |].
  rewrite !append_cons. now f_equal.
Qed.

Lemma all_chars_app p (a b : string) :
  all_chars p (a +:+ b) = all_chars p a && all_chars p b.
Proof.
  induction a as [|c a IH]; [reflexivity |].
  rewrite append_cons. simpl. rewrite IH. now rewrite andb_assoc.
Qed.

Lemma all_chars_weaken (p q : ascii -> bool) (s : string) :
  (forall c, p c = true -> q c = true) ->
  all_chars p s = true -> all_chars q s = true.
Proof.
  intros Hpq. induction s as [|c s IH]; simpl; [reflexivity |].
  intros [Hc Hs]%andb_prop. rewrite (Hpq _ Hc). now apply IH.
Qed.

Lemma filter_all p (s : string) : all_chars p s = true -> Py.filter p s = s.
Proof.
  induction s as [|c s IH]; simpl; [reflexivity |].
  intros [Hc Hs]%andb_prop. rewrite Hc. now rewrite IH.
Qed.

Lemma filter_app p (a b : string) :
  Py.filter p (a +:+ b) = Py.filter p a +:+ Py.filter p b.
Proof.
  induction a as [|c a IH]; [reflexivity |].
  rewrite append_cons. simpl. destruct (p c); [rewrite append_cons |]; now rewrite IH.
Qed.

(** *** Decimal numerals *)

Lemma uint_digits (d : Decimal.uint) :
  all_chars Py.isdigit (NilEmpty.string_of_uint d) = true.
Proof. induction d; simpl; auto. Qed.

Lemma uint_nonempty (d : Decimal.uint) :
  d <> Decimal.Nil -> NilEmpty.string_of_uint d <> EmptyString.
Proof. destruct d; simpl; congruence. Qed.

Lemma int_from_uint (d da : Decimal.uint) :
  Py.int_from (Z.of_N (Unsigned.of_lu da)) (NilEmpty.string_of_uint d)
  = Z.of_N (Unsigned.of_lu (Decimal.revapp d da)).
Proof.
  revert da.
  induction d as [|d IH|d IH|d IH|d IH|d IH|d IH|d IH|d IH|d IH|d IH];
    intros da; simpl Decimal.revapp; simpl NilEmpty.string_of_uint;
    [reflexivity | ..]; cbn [Py.int_from]; rewrite <- IH; f_equal;
    cbn [Unsigned.of_lu]; unfold Py.ord; simpl N_of_ascii; lia.
Qed.

Lemma int_uint (d : Decimal.uint) :
  Py.int (NilEmpty.string_of_uint d) = Z.of_N (Pos.of_uint d).
Proof.
  unfold Py.int. rewrite Unsigned.of_uint_alt.
  exact (int_from_uint d Decimal.Nil).
Qed.

(** [str] of a natural number is its numeral, made of digits only. *)
Lemma str_nonneg (z : Z) :
  0 <= z ->
  exists d, Py.str z = NilEmpty.string_of_uint d /\ d <> Decimal.Nil
            /\ Z.of_N (Pos.of_uint d) = z.
Proof.
  intros Hz. destruct z as [|p|p]; [| |lia].
  - exists (Decimal.D0 Decimal.Nil). repeat split; congruence.
  - exists (Pos.to_uint p). unfold Py.str. simpl.
    pose proof (Unsigned.to_uint_nonnil p) as Hn.
    repeat split; [| assumption | now rewrite Unsigned.of_to].
    unfold NilZero.string_of_uint. destruct (Pos.to_uint p); congruence.
Qed.

Lemma str_digits (z : Z) : 0 <= z -> all_chars Py.isdigit (Py.str z) = true.
Proof. intros (d & -> & _ & _)%str_nonneg. apply uint_digits. Qed.

Lemma str_nonempty (z : Z) : Py.str z <> EmptyString.
Proof.
  destruct z as [|p|p]; unfold Py.str; simpl; [congruence | | congruence].
  unfold NilZero.string_of_uint.
  pose proof (Unsigned.to_uint_nonnil p).
  destruct (Pos.to_uint p); simpl; congruence.
Qed.

(** [int(str(z)) == z] *)
Lemma int_str (z : Z) : 0 <= z -> Py.int (Py.str z) = z.
Proof. intros (d & -> & _ & <-)%str_nonneg. apply int_uint. Qed.

Lemma last_char_app (s : string) (c : ascii) :
  Py.last_char (s +:+ String c EmptyString) = Some c.
Proof.
  induction s as [|x s IH]; [reflexivity |].
  rewrite append_cons. simpl. rewrite IH.
  destruct (s +:+ String c EmptyString) eqn:E; [| reflexivity].
  destruct s; discriminate.
Qed.

Lemma last_char_cons (c : ascii) (s : string) :
  exists x, Py.last_char (String c s) = Some x.
Proof.
  revert c. induction s as [|y s IH]; intros c; [now exists c |].
  destruct (IH y) as [x Hx]. exists x. simpl in *. exact Hx.
Qed.

(** ** The encoder *)

(** *** Phase 1 *)

Lemma encode_token_acc enc lang raw not_found t :
  fst (encode_token enc lang (raw, not_found) t) = raw ++ raw_items enc lang t.
Proof.
  unfold raw_items, encode_token.
  destruct (is_number t); [reflexivity |].
  destruct (enc !! _); [reflexivity |].
  destruct (enc !! t); simpl; [reflexivity | now rewrite app_nil_r].
Qed.

Lemma fold_encode_token enc lang tokens st :
  fst (fold_left (encode_token enc lang) tokens st)
  = fst st ++ flat_map (raw_items enc lang) tokens.
Proof.
  revert st. induction tokens as [|t tokens IH]; intros [raw nf].
  - simpl. now rewrite app_nil_r.
  - cbn [fold_left flat_map]. rewrite IH, encode_token_acc.
    now rewrite <- app_assoc.
Qed.

Lemma phase1_flat enc lang tokens :
  fst (phase1 enc lang tokens) = flat_map (raw_items enc lang) tokens.
Proof. unfold phase1. now rewrite fold_encode_token. Qed.

(** An item of phase 1 ends in [n] or [b]: it is no Repeat item. *)
Lemma raw_items_not_repeat enc lang t :
  Forall (fun item => is_repeat item = false) (raw_items enc lang t).
Proof.
  unfold raw_items, encode_token, is_repeat.
  destruct (is_number t); simpl.
  { constructor; [| constructor]. now rewrite last_char_app. }
  destruct (enc !! _) as [id|]; simpl.
  { constructor; [| constructor]. now rewrite last_char_app. }
  destruct (enc !! t) as [id|]; simpl; [| constructor].
  constructor; [| constructor]. now rewrite last_char_app.
Qed.

Lemma phase1_not_repeat enc lang tokens :
  Forall (fun item => is_repeat item = false) (fst (phase1 enc lang tokens)).
Proof.
  rewrite phase1_flat. induction tokens as [|t tokens IH]; simpl.
  - constructor.
  - apply Forall_app. split; [apply raw_items_not_repeat | exact IH].
Qed.

(** *** Phase 2 *)

Lemma run_length_spec fuel pre x k rest c :
  head rest <> Some x -> (1 <= c <= k)%nat -> (k - c < fuel)%nat ->
  run_length fuel (pre ++ replicate k x ++ rest) (length pre) c = k.
Proof.
  intros Hrest. revert c.
  induction fuel as [|fuel IH]; intros c Hc Hfuel; [lia |].
  simpl.
  assert (Hi : (pre ++ replicate k x ++ rest) !! length pre = Some x).
  { rewrite lookup_app_r by lia. rewrite Nat.sub_diag.
    rewrite lookup_app_l by (rewrite length_replicate; lia).
    apply lookup_replicate_2. lia. }
  rewrite Hi.
  destruct (decide (c < k)%nat) as [Hlt|Hge].
  - assert (Hj : (pre ++ replicate k x ++ rest) !! (length pre + c)%nat = Some x).
    { rewrite lookup_app_r by lia.
      replace (length pre + c - length pre)%nat with c by lia.
      rewrite lookup_app_l by (rewrite length_replicate; lia).
      apply lookup_replicate_2. lia. }
    rewrite Hj, String.eqb_refl. apply IH; lia.
  - assert (c = k) by lia. subst c.
    rewrite lookup_app_r by lia.
    replace (length pre + k - length pre)%nat with k by lia.
    rewrite lookup_app_r by (rewrite length_replicate; lia).
    rewrite length_replicate, Nat.sub_diag.
    destruct rest as [|a rest]; simpl; [reflexivity |].
    destruct (String.eqb_spec a x) as [->|Hne]; [| reflexivity].
    now destruct Hrest.
Qed.

(** One round of the outer loop consumes a whole maximal run. *)
Lemma compress_from_run fuel pre x k rest result :
  head rest <> Some x -> (1 <= k)%nat ->
  compress_from (S fuel) (pre ++ replicate k x ++ rest) (length pre) result
  = compress_from fuel (pre ++ replicate k x ++ rest) (length pre + k)
      (if (1 <? k)%nat
       then (result ++ [x]) ++ [Py.str (Z.of_nat k) +:+ "r"]
       else result ++ [x]).
Proof.
  intros Hrest Hk. simpl.
  assert (Hi : (pre ++ replicate k x ++ rest) !! length pre = Some x).
  { rewrite lookup_app_r by lia. rewrite Nat.sub_diag.
    rewrite lookup_app_l by (rewrite length_replicate; lia).
    apply lookup_replicate_2. lia. }
  rewrite Hi.
  rewrite (run_length_spec _ pre x k rest 1 Hrest); [reflexivity | lia |].
  rewrite !length_app, length_replicate. lia.
Qed.

(** A non-empty list starts with a maximal run of its first item. *)
Lemma leading_run (x : string) (l : list string) :
  exists k rest, x :: l = replicate (S k) x ++ rest /\ head rest <> Some x.
Proof.
  induction l as [|y l IH].
  - exists 0%nat, []. split; [reflexivity | discriminate].
  - destruct (decide (y = x)) as [->|Hne].
    + destruct IH as (k & rest & E & Hrest).
      exists (S k), rest. split; [| exact Hrest].
      change (replicate (S (S k)) x ++ rest) with (x :: (replicate (S k) x ++ rest)).
      now rewrite <- E.
    + exists 0%nat, (y :: l). split; [reflexivity |]. simpl. congruence.
Qed.

Lemma compress_from_rle fuel pre suffix result :
  (length suffix <= fuel)%nat ->
  exists out,
    compress_from fuel (pre ++ suffix) (length pre) result = result ++ out
    /\ Rle suffix out.
Proof.
  revert pre suffix result.
  induction fuel as [|fuel IH]; intros pre suffix result Hfuel.
  - destruct suffix; [| simpl in Hfuel; lia].
    exists []. split; [simpl; now rewrite app_nil_r | constructor].
  - destruct suffix as [|x l].
    + exists []. split; [| constructor]. simpl.
      rewrite app_nil_r, lookup_ge_None_2 by lia. now rewrite app_nil_r.
    + destruct (leading_run x l) as (k & rest & E & Hrest).
      rewrite E. rewrite compress_from_run by (auto; lia).
      assert (Hlen : (length rest <= fuel)%nat).
      { apply (f_equal length) in E. simpl in E, Hfuel.
        rewrite length_app, length_replicate in E. lia. }
      replace (length pre + S k)%nat
        with (length (pre ++ replicate (S k) x))
        by (rewrite length_app, length_replicate; reflexivity).
      rewrite (app_assoc pre).
      destruct (IH (pre ++ replicate (S k) x) rest
                  (if (1 <? S k)%nat
                   then (result ++ [x]) ++ [Py.str (Z.of_nat (S k)) +:+ "r"]
                   else result ++ [x]) Hlen) as (out & Hout & HR).
      rewrite Hout.
      destruct k as [|k].
      * exists (x :: out). split; [simpl; now rewrite <- app_assoc |].
        simpl. now constructor.
      * exists (x :: (Py.str (Z.of_nat (S (S k))) +:+ "r") :: out). split.
        { replace (1 <? S (S k))%nat with true by reflexivity.
          now rewrite <- !app_assoc. }
        constructor; [lia | assumption | assumption].
Qed.

Lemma compress_rle (raw : list string) : Rle raw (compress raw).
Proof.
  destruct (compress_from_rle (length raw) [] raw [] (le_n _)) as (out & E & HR).
  unfold compress. simpl in E. now rewrite E.
Qed.

Lemma repeat_item_is_repeat (k : Z) : is_repeat (Py.str k +:+ "r") = true.
Proof. unfold is_repeat. now rewrite last_char_app. Qed.

Lemma repeat_item_count (k : Z) : 0 <= k -> count_of (Py.str k +:+ "r") = k.
Proof.
  intros Hk. unfold count_of.
  rewrite filter_app, (filter_all _ _ (str_digits k Hk)).
  change (Py.filter Py.isdigit "r") with EmptyString.
  rewrite append_nil_r. now apply int_str.
Qed.

Lemma Rle_head raw out : Rle raw out -> head out = head raw.
Proof.
  intros [|x raw' out' _ _|x k raw' out' Hk _ _]; try reflexivity.
  destruct k as [|k]; [lia | reflexivity].
Qed.

Lemma Rle_adjacent raw out :
  Rle raw out -> Forall (fun item => is_repeat item = false) raw ->
  forall (i : nat) a b, out !! i = Some a -> out !! S i = Some b -> a <> b.
Proof.
  induction 1 as [|x raw out Hx HR IH|x k raw out Hk Hx HR IH]; intros Hraw i a b.
  - intros Ha. discriminate.
  - apply Forall_cons in Hraw as [_ Hraw].
    destruct i as [|i]; simpl.
    + intros [= <-] Hb Heq. subst b.
      apply Hx. rewrite <- (Rle_head _ _ HR). now destruct out.
    + now apply IH.
  - apply Forall_app in Hraw as [Hrep Hraw].
    assert (Hxr : is_repeat x = false).
    { destruct k as [|k]; [lia |]. now apply Forall_cons in Hrep as [? _]. }
    destruct i as [|[|i]]; simpl.
    + intros [= <-] [= <-] Heq.
      rewrite Heq, repeat_item_is_repeat in Hxr. discriminate.
    + intros [= <-] Hb Heq. subst b.
      assert (Hh : head raw = Some (Py.str (Z.of_nat k) +:+ "r")).
      { rewrite <- (Rle_head _ _ HR). now destruct out. }
      destruct raw as [|y raw]; [discriminate |]. injection Hh as ->.
      apply Forall_cons in Hraw as [Hy _].
      rewrite repeat_item_is_repeat in Hy. discriminate.
    + now apply IH.
Qed.

Lemma Rle_repeats raw out :
  Rle raw out -> Forall (fun item => is_repeat item = false) raw ->
  forall (i : nat) item, out !! i = Some item -> is_repeat item = true ->
  exists (k j : nat) x,
    (2 <= k)%nat /\ item = Py.str (Z.of_nat k) +:+ "r"
    /\ i = S j /\ out !! j = Some x /\ is_repeat x = false.
Proof.
  induction 1 as [|x raw out Hx HR IH|x k raw out Hk Hx HR IH];
    intros Hraw i item.
  - intros Ha. discriminate.
  - apply Forall_cons in Hraw as [Hxr Hraw].
    destruct i as [|i]; simpl.
    + intros [= <-] Hrep. congruence.
    + intros Hi Hrep.
      destruct (IH Hraw i item Hi Hrep) as (k & j & y & ? & ? & -> & ? & ?).
      exists k, (S j), y. auto.
  - apply Forall_app in Hraw as [Hrep Hraw].
    assert (Hxr : is_repeat x = false).
    { destruct k as [|k]; [lia |]. now apply Forall_cons in Hrep as [? _]. }
    destruct i as [|[|i]]; simpl.
    + intros [= <-] Hr. congruence.
    + intros [= <-] _. exists k, 0%nat, x. auto.
    + intros Hi Hr.
      destruct (IH Hraw i item Hi Hr) as (k' & j & y & ? & ? & -> & ? & ?).
      exists k', (S (S j)), y. auto.
Qed.

Lemma Rle_expand raw out :
  Rle raw out -> Forall (fun item => is_repeat item = false) raw ->
  expand out = raw.
Proof.
  induction 1 as [|x raw out Hx HR IH|x k raw out Hk Hx HR IH]; intros Hraw.
  - reflexivity.
  - apply Forall_cons in Hraw as [Hxr Hraw].
    specialize (IH Hraw). pose proof (Rle_head _ _ HR) as Hh.
    destruct out as [|y out].
    + destruct raw; [reflexivity | discriminate].
    + destruct raw as [|y' raw]; [discriminate |].
      injection Hh as <-. apply Forall_cons in Hraw as [Hy _].
      cbn [expand]. rewrite Hy. cbn [expand] in IH. now rewrite IH.
  - apply Forall_app in Hraw as [_ Hraw].
    cbn [expand]. rewrite repeat_item_is_repeat.
    rewrite repeat_item_count by lia. rewrite Nat2Z.id.
    now rewrite (IH Hraw).
Qed.

(** C8.  The wire sequence returned by [encode] has no two adjacent equal
    items; each of its Repeat items has the form [<k>r] with [k >= 2] and
    comes right after an item that is not a Repeat item; and replacing each
    item that is followed by a Repeat item of count [k] by [k] copies of it
    gives back the uncompressed sequence of phase 1, so that the Repeat
    item counts the copies of the item right before it. *)
Theorem encode_rle_invariant (dicts_encode : gmap string (gmap string Z))
    (text lang : string) :
  let wire := encode dicts_encode text lang in
  (forall (i : nat) a b, wire !! i = Some a -> wire !! S i = Some b -> a <> b)
  /\ (forall (i : nat) item,
        wire !! i = Some item -> is_repeat item = true ->
        exists (k j : nat) x,
          (2 <= k)%nat /\ item = Py.str (Z.of_nat k) +:+ "r"
          /\ i = S j /\ wire !! j = Some x /\ is_repeat x = false)
  /\ (forall enc,
        dicts_encode !! lang = Some enc ->
        expand wire = fst (phase1 enc lang (tokenize text lang))).
Proof.
  unfold encode. destruct (dicts_encode !! lang) as [enc|]; simpl.
  - pose proof (compress_rle (fst (phase1 enc lang (tokenize text lang)))) as HR.
    pose proof (phase1_not_repeat enc lang (tokenize text lang)) as Hraw.
    repeat split.
    + now apply (Rle_adjacent _ _ HR Hraw).
    + now apply (Rle_repeats _ _ HR Hraw).
    + intros enc' [= <-]. now apply Rle_expand.
  - repeat split; try discriminate.
Qed.

(** ** The decoder *)

Lemma scan_item_acc (token num_str : string) (suffix : option string) :
  scan_item token num_str suffix
  = (num_str +:+ digits_of token,
     match last_tag token with Some t => Some t | None => suffix end).
Proof.
  unfold digits_of, last_tag.
  revert num_str suffix. induction token as [|ch rest IH]; intros num_str suffix.
  - simpl. now rewrite append_nil_r.
  - cbn [scan_item Py.filter]. destruct (Py.isdigit ch) eqn:Hd.
    + assert (Py.contains ch "bnsr" = false) as ->.
      { revert Hd. clear.
        destruct ch as [[] [] [] [] [] [] [] []]; vm_compute; congruence. }
      rewrite IH, append_assoc. reflexivity.
    + destruct (Py.contains ch "bnsr") eqn:Ht; rewrite IH; [| reflexivity].
      f_equal. cbn [Py.last_char].
      destruct (Py.filter (fun c => Py.contains c "bnsr") rest) as [|c f];
        [reflexivity |].
      cbn [fmap option_fmap option_map].
      destruct (last_char_cons c f) as [x ->]. reflexivity.
Qed.

Lemma scan_item_spec (token : string) :
  scan_item token EmptyString None = (digits_of token, last_tag token).
Proof. rewrite scan_item_acc. now destruct (last_tag token). Qed.

Lemma decode_token_spec dec words token :
  decode_token dec words token
  = apply_item dec words (digits_of token) (last_tag token).
Proof. unfold decode_token. now rewrite scan_item_spec. Qed.

Lemma decode_words_app dec pre post :
  decode_words dec (pre ++ post)
  = fold_left (decode_token dec) post (decode_words dec pre).
Proof. unfold decode_words. now rewrite fold_left_app. Qed.

(** C10.  The scan of a wire item collects all its digits, in order, as
    the value and keeps the last of its letters among b, n, s, r (lower
    case) as the tag, wherever they stand in the item; so the item "1b2r"
    has the value 12 and the tag r, and appends 11 more copies of the last
    word. *)
Theorem multi_tag_item (dec : gmap Z string) (words : list string) :
  (forall token,
     scan_item token EmptyString None = (digits_of token, last_tag token)
     /\ decode_token dec words token
        = apply_item dec words (digits_of token) (last_tag token))
  /\ scan_item "1b2r" EmptyString None = ("12", Some "r")
  /\ Py.int "12" = 12
  /\ decode_token dec words "1b2r"
     = match last words with
       | Some w => words ++ replicate 11 w
       | None => words
       end.
Proof.
  split; [| split; [| split]].
  - intros token. split; [apply scan_item_spec | apply decode_token_spec].
  - reflexivity.
  - reflexivity.
  - rewrite decode_token_spec.
    change (digits_of "1b2r") with "12". change (last_tag "1b2r") with (Some "r").
    unfold apply_item. change (suffix_is (Some "r") "n") with false.
    change (suffix_is (Some "r") "r") with true. cbv iota.
    change (Z.to_nat (Py.int "12" - 1)) with 11%nat.
    destruct (last words) as [w|]; [| reflexivity].
    simpl. now rewrite <- !app_assoc.
Qed.

(** C5.  Upper-case tag letters: [decode] reads the item "5n" as the
    literal 5 but the item "5N" as the dictionary entry 5, since its scan
    only knows the lower-case letters, whereas the scan of the same item in
    [create_strip] takes "5N" for the tag n. *)
Theorem upper_case_tag_is_dictionary (dec : gmap Z string) (words : list string) :
  decode_token dec words "5n" = words ++ ["5"]
  /\ scan_item "5N" EmptyString None = ("5", None)
  /\ decode_token dec words "5N"
     = words ++ [match dec !! 5 with Some w => w | None => "[?5]" end]
  /\ scan_suffix "5N" None = Some "n".
Proof.
  repeat split.
  unfold decode_token. change (scan_item "5N" EmptyString None) with ("5", @None string).
  unfold apply_item. change (Py.int "5") with 5.
  change (suffix_is None "n") with false. change (suffix_is None "r") with false.
  change (suffix_is None "s") with false. cbv iota.
  now destruct (dec !! 5).
Qed.

Lemma apply_item_dictionary dec words num_str suffix :
  num_str <> EmptyString ->
  suffix = None \/ suffix = Some "b" ->
  apply_item dec words num_str suffix
  = words ++ [match dec !! Py.int num_str with
              | Some w => w
              | None => "[?" +:+ Py.str (Py.int num_str) +:+ "]"
              end].
Proof.
  intros Hn Hs. unfold apply_item.
  destruct num_str as [|c n]; [congruence |].
  destruct Hs as [-> | ->]; cbn [suffix_is];
    [| change (String.eqb "b" "n") with false;
       change (String.eqb "b" "r") with false;
       change (String.eqb "b" "s") with false];
    cbv iota; now destruct (dec !! _).
Qed.

Lemma raw_items_found enc lang t id :
  is_number t = false ->
  enc !! (if negb (String.eqb lang "zh") then Py.lower t else t) = Some id ->
  raw_items enc lang t = [Py.str id +:+ "b"].
Proof. intros Hn Hl. unfold raw_items, encode_token. now rewrite Hn, Hl. Qed.

(** C3.  Scenario A: with a Spanish lexicon in which "hola" has the ID 7,
    [encode("hola hola hola", "es")] is ["7b", "3r"] and
    [decode("7b 3r", "es")] is "Hola hola hola". *)
Theorem scenario_A (dicts_encode : gmap string (gmap string Z))
    (dicts_decode : gmap string (gmap Z string)) enc dec :
  dicts_encode !! "es" = Some enc -> enc !! "hola" = Some 7 ->
  dicts_decode !! "es" = Some dec -> dec !! 7 = Some "hola" ->
  encode dicts_encode "hola hola hola" "es" = ["7b"; "3r"]
  /\ decode dicts_decode "7b 3r" "es" = "Hola hola hola".
Proof.
  intros Hes Hhola Hdes H7. split.
  - unfold encode. rewrite Hes, phase1_flat.
    replace (tokenize "hola hola hola" "es") with ["hola"; "hola"; "hola"]
      by (vm_compute; reflexivity).
    cbn [flat_map].
    rewrite (raw_items_found enc "es" "hola" 7) by (reflexivity || exact Hhola).
    vm_compute. reflexivity.
  - unfold decode. rewrite Hdes.
    replace (Py.split "7b 3r") with ["7b"; "3r"] by (vm_compute; reflexivity).
    unfold decode_words. cbn [fold_left].
    rewrite (decode_token_spec dec [] "7b").
    rewrite apply_item_dictionary by (vm_compute; (congruence || auto)).
    change (Py.int (digits_of "7b")) with 7. rewrite H7.
    vm_compute. reflexivity.
Qed.

Lemma scenario_A_witness :
  encode {[ "es" := {[ "hola" := 7 ]} ]} "hola hola hola" "es" = ["7b"; "3r"]
  /\ decode {[ "es" := {[ 7 := "hola" ]} ]} "7b 3r" "es" = "Hola hola hola".
Proof.
  apply (scenario_A _ _ {[ "hola" := 7 ]} {[ 7 := "hola" ]}); reflexivity.
Defined.

(** ** The grid *)

(** *** [id_to_cells] *)

Lemma digit_range (number place : Z) :
  0 < place -> 0 <= (number / place) mod 10 <= 9.
Proof. intros _. pose proof (Z.mod_pos_bound (number / place) 10). lia. Qed.

Lemma digit_cases (d : Z) :
  0 <= d <= 9 ->
  d = 0 \/ d = 1 \/ d = 2 \/ d = 3 \/ d = 4 \/ d = 5 \/ d = 6 \/ d = 7
  \/ d = 8 \/ d = 9.
Proof. lia. Qed.

Ltac by_digit H :=
  apply digit_cases in H;
  repeat (destruct H as [H | H]; [subst | ]); [.. | subst].

Lemma fold_place_cell (number : Z) (places : list (Z * Z)) (cells : list cell) :
  fold_left (place_cell number) places cells
  = cells ++ flat_map (place_cells number) places.
Proof.
  revert cells. induction places as [|[place col] places IH]; intros cells.
  - simpl. now rewrite app_nil_r.
  - cbn [fold_left flat_map]. rewrite IH. unfold place_cells, place_cell.
    destruct (0 <? _); [now rewrite <- app_assoc | reflexivity].
Qed.

(** [id_to_cells] raises no [KeyError]. *)
Lemma id_to_cells_eq (number : Z) :
  id_to_cells number = Some (number_cells number).
Proof.
  unfold id_to_cells, number_cells.
  pose proof (Z.mod_pos_bound number 10 eq_refl) as Hu.
  pose proof (Z.mod_pos_bound (number / 10) 10 eq_refl) as Hd.
  generalize dependent (number mod 10). generalize dependent ((number / 10) mod 10).
  intros d Hd u Hu.
  assert (Hu' : 0 <= u <= 9) by lia. assert (Hd' : 0 <= d <= 9) by lia.
  clear Hu Hd.
  by_digit Hu'; by_digit Hd';
    cbn -[fold_left place_cell flat_map place_cells PLACES];
    rewrite fold_place_cell; reflexivity.
Qed.

(** C6.  For each of the eight places bound to a column, [id_to_cells]
    lights the cell [(11 - (digit - 1), column)] whenever the digit
    [floor(value / place) mod 10] is not zero; and [id_to_cells(205)] is
    [[(15, 8), (10, 7)]]. *)
Theorem id_to_cells_places :
  (forall value place col,
     In (place, col) PLACES -> (value / place) mod 10 <> 0 ->
     exists cells,
       id_to_cells value = Some cells
       /\ In (11 - ((value / place) mod 10 - 1), col) cells)
  /\ PLACES = [(100, 7); (1000, 8); (10000, 9); (100000, 6); (1000000, 5);
               (10000000, 4); (100000000, 3); (1000000000, 2)]
  /\ id_to_cells 205 = Some [(15, 8); (10, 7)].
Proof.
  split; [| split; reflexivity].
  intros value place col Hin Hdigit.
  eexists. split; [apply id_to_cells_eq |]. unfold number_cells.
  apply in_or_app. right. apply in_or_app. right.
  apply in_flat_map. exists (place, col). split; [exact Hin |].
  unfold place_cells, place_cell.
  pose proof (Z.mod_pos_bound (value / place) 10 eq_refl) as Hr.
  destruct (Z.ltb_spec 0 ((value / place) mod 10)); [now left | lia].
Qed.

Lemma id_to_cells_places_witness :
  exists cells,
    id_to_cells 205 = Some cells /\ In (11 - ((205 / 100) mod 10 - 1), 7) cells.
Proof.
  apply (proj1 id_to_cells_places 205 100 7).
  - simpl. auto.
  - vm_compute. discriminate.
Defined.

(** *** Reading pixels and reading cells *)

Lemma read_cell_ok img block_x row col :
  block_ok img block_x -> in_grid (row, col) = true ->
  read_cell img block_x row col = Some (active img block_x row col).
Proof.
  intros (Hx & Hw & Hh) Hg. unfold in_grid in Hg. simpl in Hg.
  unfold read_cell, Pil.getpixel, Pil.inside, active.
  assert (Hin : (0 <=? block_x * 10 + (col - 1))
                && (block_x * 10 + (col - 1) <? Pil.width img)
                && (0 <=? row - 1) && (row - 1 <? Pil.height img) = true)
    by lia.
  now rewrite Hin.
Qed.

Lemma first_named_pure img block_x table :
  block_ok img block_x -> forallb in_grid (map fst table) = true ->
  first_named img block_x table
  = Some (find_named (active img block_x) table).
Proof.
  intros Hok. induction table as [|[[r c] name] table IH]; [reflexivity |].
  cbn [map forallb fst]. intros [Hg Ht]%andb_prop.
  cbn [first_named find_named]. rewrite (read_cell_ok _ _ _ _ Hok Hg).
  destruct (active img block_x r c); [reflexivity | now apply IH].
Qed.

Lemma first_digit_pure img block_x pos :
  block_ok img block_x -> forallb in_grid (map snd pos) = true ->
  first_digit img block_x pos = Some (find_digit (active img block_x) pos).
Proof.
  intros Hok. induction pos as [|[v [r c]] pos IH]; [reflexivity |].
  cbn [map forallb snd]. intros [Hg Ht]%andb_prop.
  cbn [first_digit find_digit]. rewrite (read_cell_ok _ _ _ _ Hok Hg).
  destruct (active img block_x r c); [reflexivity | now apply IH].
Qed.

Lemma read_place_pure img block_x place col vs number :
  block_ok img block_x ->
  forallb (fun v => in_grid (11 - (v - 1), col)) vs = true ->
  read_place img block_x place col vs number
  = Some (find_place (active img block_x) place col vs number).
Proof.
  intros Hok. induction vs as [|v vs IH]; [reflexivity |].
  cbn [forallb]. intros [Hg Ht]%andb_prop.
  cbn [read_place find_place].
  destruct ((place =? 100000) && (12 <=? 11 - (v - 1))); [now apply IH |].
  rewrite (read_cell_ok _ _ _ _ Hok Hg).
  destruct (active img block_x _ col); [reflexivity | now apply IH].
Qed.

Lemma read_places_pure img block_x places number :
  block_ok img block_x ->
  forallb (fun pc => forallb (fun v => in_grid (11 - (v - 1), snd pc)) (seqZ 1 9))
    places = true ->
  read_places img block_x places number
  = Some (find_places (active img block_x) places number).
Proof.
  intros Hok. revert number.
  induction places as [|[place col] places IH]; intros number; [reflexivity |].
  cbn [forallb snd]. intros [Hg Ht]%andb_prop.
  cbn [read_places find_places].
  rewrite (read_place_pure _ _ _ _ _ _ Hok Hg). now apply IH.
Qed.

Lemma read_block_pure img block_x :
  block_ok img block_x ->
  read_block img block_x = Some (block_value (active img block_x)).
Proof.
  intros Hok. unfold read_block, block_value.
  rewrite !(first_digit_pure _ _ _ Hok) by reflexivity.
  destruct (find_digit _ TENS_HIGH_POS);
    rewrite (read_places_pure _ _ _ _ Hok) by reflexivity;
    rewrite (first_named_pure _ _ _ Hok) by reflexivity; reflexivity.
Qed.

Lemma read_header_pure img block_x :
  block_ok img block_x ->
  read_header img block_x = Some (header_value (active img block_x)).
Proof.
  intros Hok. unfold read_header, header_value.
  now rewrite !(first_named_pure _ _ _ Hok) by reflexivity.
Qed.

(** The readers only look at the cells of their tables. *)
Lemma find_named_ext act1 act2 table :
  (forall r c name, In ((r, c), name) table -> act1 r c = act2 r c) ->
  find_named act1 table = find_named act2 table.
Proof.
  induction table as [|[[r c] name] table IH]; intros H; [reflexivity |].
  cbn [find_named]. rewrite (H r c name) by now left.
  rewrite IH; [reflexivity |]. intros r' c' n' Hin. apply (H r' c' n'). now right.
Qed.

Lemma find_digit_ext act1 act2 pos :
  (forall v r c, In (v, (r, c)) pos -> act1 r c = act2 r c) ->
  find_digit act1 pos = find_digit act2 pos.
Proof.
  induction pos as [|[v [r c]] pos IH]; intros H; [reflexivity |].
  cbn [find_digit]. rewrite (H v r c) by now left.
  rewrite IH; [reflexivity |]. intros v' r' c' Hin. apply (H v' r' c'). now right.
Qed.

Lemma find_place_ext act1 act2 place col vs number :
  (forall v, In v vs -> act1 (11 - (v - 1)) col = act2 (11 - (v - 1)) col) ->
  find_place act1 place col vs number = find_place act2 place col vs number.
Proof.
  induction vs as [|v vs IH]; intros H; [reflexivity |].
  cbn [find_place]. rewrite (H v) by now left.
  rewrite IH; [reflexivity |]. intros v' Hin. apply H. now right.
Qed.

(** *** The parts of the grid do not overlap *)

Lemma cell_mem_app x (a b : list cell) :
  cell_mem x (a ++ b) = cell_mem x a || cell_mem x b.
Proof. apply existsb_app. Qed.

Lemma cell_eqb_eq (x y : cell) : cell_eqb x y = true <-> x = y.
Proof.
  destruct x as [r c], y as [r' c']. unfold cell_eqb. simpl.
  rewrite andb_true_iff, !Z.eqb_eq. split; [intros [-> ->] | intros [= -> ->]]; auto.
Qed.

Lemma mem_disjoint (P : cell -> Prop) (x : cell) (l : list cell) :
  Forall P l -> ~ P x -> cell_mem x l = false.
Proof.
  intros Hl Hx. induction Hl as [|y l Hy _ IH]; [reflexivity |].
  simpl. rewrite IH, orb_false_r.
  destruct (cell_eqb x y) eqn:E; [| reflexivity].
  apply cell_eqb_eq in E. now subst.
Qed.

Lemma units_region (u : Z) :
  0 <= u <= 9 -> Forall (fun y => region y = 0) (units_cells u).
Proof. intros H. by_digit H; repeat constructor. Qed.

Lemma tens_region (d : Z) :
  0 <= d <= 9 -> Forall (fun y => region y = 1) (tens_cells d).
Proof. intros H. by_digit H; repeat constructor. Qed.

Lemma units_region_mod (number : Z) :
  Forall (fun y => region y = 0) (units_cells (number mod 10)).
Proof.
  apply units_region. pose proof (Z.mod_pos_bound number 10 eq_refl). lia.
Qed.

Lemma tens_region_mod (number : Z) :
  Forall (fun y => region y = 1) (tens_cells ((number / 10) mod 10)).
Proof.
  apply tens_region. pose proof (Z.mod_pos_bound (number / 10) 10 eq_refl). lia.
Qed.

Lemma suffix_region (suffix : option string) :
  Forall (fun y => region y = 2) (suffix_cells suffix).
Proof.
  destruct suffix as [[|a s]|]; try constructor. unfold suffix_cells, SUFFIXES.
  cbn [Dict.get].
  repeat (destruct (String.eqb _ _); [repeat constructor |]). constructor.
Qed.

Lemma place_region (number place col : Z) :
  In (place, col) PLACES ->
  Forall (fun y => region y = 10 + col) (place_cells number (place, col)).
Proof.
  intros Hin. unfold place_cells, place_cell.
  pose proof (digit_range number place) as Hd.
  assert (Hp : 0 < place).
  { simpl in Hin. repeat (destruct Hin as [[= <- <-]|Hin]; [lia |]). easy. }
  specialize (Hd Hp). revert Hd. generalize ((number / place) mod 10) as d.
  intros d Hd. simpl in Hin.
  repeat (destruct Hin as [[= <- <-]|Hin]; [by_digit Hd; repeat constructor |]).
  easy.
Qed.

Lemma places_region (number : Z) :
  Forall (fun y => 12 <= region y <= 19) (flat_map (place_cells number) PLACES).
Proof.
  apply Forall_flat_map, Forall_forall. intros [place col] Hin%list_elem_of_In.
  eapply Forall_impl; [apply (place_region number place col Hin) |].
  intros y Hy. simpl in Hy. simpl in Hin.
  repeat (destruct Hin as [[= <- <-]|Hin]; [lia |]). easy.
Qed.

Lemma mem_place_other number x place col :
  In (place, col) PLACES -> region x <> 10 + col ->
  cell_mem x (place_cells number (place, col)) = false.
Proof.
  intros Hin Hx. eapply mem_disjoint; [apply (place_region _ _ _ Hin) | exact Hx].
Qed.

Section Block.

(** The cells inked for the number [number] and the tag [suffix]. *)
Variables (number : Z) (suffix : option string).

Lemma mem_units x :
  region x = 0 ->
  cell_mem x (number_cells number ++ suffix_cells suffix)
  = cell_mem x (units_cells (number mod 10)).
Proof.
  intros Hx. unfold number_cells. rewrite !cell_mem_app.
  rewrite (mem_disjoint _ x _ (tens_region_mod number)) by lia.
  rewrite (mem_disjoint _ x _ (places_region number)) by lia.
  rewrite (mem_disjoint _ x _ (suffix_region suffix)) by lia.
  now rewrite !orb_false_r.
Qed.

Lemma mem_tens x :
  region x = 1 ->
  cell_mem x (number_cells number ++ suffix_cells suffix)
  = cell_mem x (tens_cells ((number / 10) mod 10)).
Proof.
  intros Hx. unfold number_cells. rewrite !cell_mem_app.
  rewrite (mem_disjoint _ x _ (units_region_mod number)) by lia.
  rewrite (mem_disjoint _ x _ (places_region number)) by lia.
  rewrite (mem_disjoint _ x _ (suffix_region suffix)) by lia.
  now rewrite !orb_false_r.
Qed.

Lemma mem_suffix x :
  region x = 2 ->
  cell_mem x (number_cells number ++ suffix_cells suffix)
  = cell_mem x (suffix_cells suffix).
Proof.
  intros Hx. unfold number_cells. rewrite !cell_mem_app.
  rewrite (mem_disjoint _ x _ (units_region_mod number)) by lia.
  rewrite (mem_disjoint _ x _ (tens_region_mod number)) by lia.
  now rewrite (mem_disjoint _ x _ (places_region number)) by lia.
Qed.

Lemma mem_place x place col :
  In (place, col) PLACES -> region x = 10 + col ->
  cell_mem x (number_cells number ++ suffix_cells suffix)
  = cell_mem x (place_cells number (place, col)).
Proof.
  intros Hin Hx. unfold number_cells. rewrite !cell_mem_app.
  assert (Hc : 2 <= col <= 9).
  { simpl in Hin. repeat (destruct Hin as [[= <- <-]|Hin]; [lia |]). easy. }
  rewrite (mem_disjoint _ x _ (units_region_mod number)) by lia.
  rewrite (mem_disjoint _ x _ (tens_region_mod number)) by lia.
  rewrite (mem_disjoint _ x _ (suffix_region suffix)) by lia.
  rewrite orb_false_r. cbn [orb].
  unfold PLACES. cbn [flat_map]. rewrite !cell_mem_app.
  simpl in Hin.
  repeat (destruct Hin as [[= <- <-]|Hin];
          [rewrite ?(mem_place_other number x 100 7),
             ?(mem_place_other number x 1000 8),
             ?(mem_place_other number x 10000 9),
             ?(mem_place_other number x 100000 6),
             ?(mem_place_other number x 1000000 5),
             ?(mem_place_other number x 10000000 4),
             ?(mem_place_other number x 100000000 3),
             ?(mem_place_other number x 1000000000 2)
             by (simpl; auto 10 || lia);
           cbn [orb cell_mem existsb]; now rewrite ?orb_false_r |]).
  easy.
Qed.

(** What the readers find in the cells of one part. *)
Lemma find_units (u : Z) :
  0 <= u <= 9 ->
  match find_digit (fun r c => cell_mem (r, c) (units_cells u)) UNITS_POS with
  | Some v => v
  | None => 0
  end = u.
Proof. intros H. by_digit H; reflexivity. Qed.

Lemma find_tens (d n : Z) :
  0 <= d <= 9 ->
  match find_digit (fun r c => cell_mem (r, c) (tens_cells d)) TENS_HIGH_POS with
  | Some v => n + v * 10
  | None =>
      match find_digit (fun r c => cell_mem (r, c) (tens_cells d)) TENS_LOW_POS with
      | Some v => n + v * 10
      | None => n
      end
  end = n + d * 10.
Proof. intros H. by_digit H; cbn; lia. Qed.

Lemma find_place_cells (place col n : Z) :
  In (place, col) PLACES ->
  find_place (fun r c => cell_mem (r, c) (place_cells number (place, col)))
    place col (seqZ 1 9) n
  = n + (number / place) mod 10 * place.
Proof.
  intros Hin. unfold place_cells, place_cell.
  assert (Hp : 0 < place).
  { simpl in Hin. repeat (destruct Hin as [[= <- <-]|Hin]; [lia |]). easy. }
  pose proof (digit_range number place Hp) as Hd.
  revert Hd. generalize ((number / place) mod 10) as d. intros d Hd.
  simpl in Hin. change (seqZ 1 9) with [1; 2; 3; 4; 5; 6; 7; 8; 9].
  repeat (destruct Hin as [[= <- <-]|Hin];
          [by_digit Hd; rewrite ?Z.mul_0_l, ?Z.add_0_r; reflexivity |]).
  easy.
Qed.

Lemma find_units_block :
  match find_digit
          (fun r c => cell_mem (r, c) (number_cells number ++ suffix_cells suffix))
          UNITS_POS with
  | Some v => v
  | None => 0
  end = number mod 10.
Proof.
  rewrite <- (find_units (number mod 10))
    by (pose proof (Z.mod_pos_bound number 10 eq_refl); lia).
  erewrite find_digit_ext; [reflexivity |].
  intros v r c Hin. apply mem_units.
  simpl in Hin. repeat (destruct Hin as [[= <- <- <-]|Hin]; [reflexivity |]). easy.
Qed.

Lemma find_tens_block (n : Z) :
  match find_digit
          (fun r c => cell_mem (r, c) (number_cells number ++ suffix_cells suffix))
          TENS_HIGH_POS with
  | Some v => n + v * 10
  | None =>
      match find_digit
              (fun r c => cell_mem (r, c) (number_cells number ++ suffix_cells suffix))
              TENS_LOW_POS with
      | Some v => n + v * 10
      | None => n
      end
  end = n + (number / 10) mod 10 * 10.
Proof.
  rewrite <- (find_tens ((number / 10) mod 10) n)
    by (pose proof (Z.mod_pos_bound (number / 10) 10 eq_refl); lia).
  erewrite (find_digit_ext _ _ TENS_HIGH_POS), (find_digit_ext _ _ TENS_LOW_POS);
    [reflexivity | |];
    intros v r c Hin; apply mem_tens; simpl in Hin;
    repeat (destruct Hin as [[= <- <- <-]|Hin]; [reflexivity |]); easy.
Qed.

Lemma find_place_block (place col n : Z) :
  In (place, col) PLACES ->
  find_place
    (fun r c => cell_mem (r, c) (number_cells number ++ suffix_cells suffix))
    place col (seqZ 1 9) n
  = n + (number / place) mod 10 * place.
Proof.
  intros Hin. rewrite <- (find_place_cells place col n Hin).
  apply find_place_ext. intros v Hv. apply (mem_place _ place col Hin).
  assert (Hc : 2 <= col <= 9).
  { simpl in Hin. repeat (destruct Hin as [[= <- <-]|Hin]; [lia |]). easy. }
  assert (Hr : 1 <= v <= 9) by (apply list_elem_of_In, elem_of_seqZ in Hv; lia).
  unfold region.
  replace ((3 <=? 11 - (v - 1)) && (11 - (v - 1) <=? 11) && (2 <=? col) && (col <=? 9))
    with true by lia.
  reflexivity.
Qed.

Lemma find_suffix_block :
  find_named
    (fun r c => cell_mem (r, c) (number_cells number ++ suffix_cells suffix))
    SUFFIXES_INV
  = find_named (fun r c => cell_mem (r, c) (suffix_cells suffix)) SUFFIXES_INV.
Proof.
  apply find_named_ext. intros r c name Hin. apply mem_suffix.
  simpl in Hin. repeat (destruct Hin as [[= <- <- <-]|Hin]; [reflexivity |]). easy.
Qed.

(** Reading the cells inked for a number of at most ten digits gives back
    the number, and the tag of its marker. *)
Lemma block_value_cells :
  0 <= number <= 9999999999 ->
  block_value
    (fun r c => cell_mem (r, c) (number_cells number ++ suffix_cells suffix))
  = (number,
     match find_named (fun r c => cell_mem (r, c) (suffix_cells suffix))
             SUFFIXES_INV with
     | Some s => s
     | None => "b"
     end).
Proof.
  intros Hn. unfold block_value.
  rewrite find_units_block, find_tens_block, find_suffix_block.
  f_equal. unfold PLACES. cbn [find_places].
  rewrite !find_place_block by (simpl; auto 10).
  Z.div_mod_to_equations; lia.
Qed.

End Block.

(** *** Painting, pasting and saving *)

Lemma active_new w h block_x r c : active (Pil.new w h 1) block_x r c = false.
Proof. reflexivity. Qed.

Lemma active_bilevel img block_x r c :
  active (Pil.bilevel img) block_x r c = active img block_x r c.
Proof.
  unfold active, Pil.bilevel. simpl.
  now destruct (Pil.pixels img _ _ =? 0).
Qed.

Lemma block_ok_bilevel img block_x :
  block_ok (Pil.bilevel img) block_x <-> block_ok img block_x.
Proof. reflexivity. Qed.

Lemma active_paste dst src i block_x r c :
  Pil.width src = 10 -> Pil.height src = 20 -> in_grid (r, c) = true ->
  active (Pil.paste dst src (i * 10) 0) block_x r c
  = if block_x =? i then active src 0 r c else active dst block_x r c.
Proof.
  intros Hw Hh Hg. unfold in_grid in Hg. simpl in Hg.
  unfold active, Pil.paste. simpl. rewrite Hw, Hh.
  destruct (Z.eqb_spec block_x i) as [->|Hne].
  - replace ((i * 10 <=? i * 10 + (c - 1)) && (i * 10 + (c - 1) <? i * 10 + 10)
             && (0 <=? r - 1) && (r - 1 <? 0 + 20)) with true by lia.
    replace (i * 10 + (c - 1) - i * 10) with (0 * 10 + (c - 1)) by lia.
    now replace (r - 1 - 0) with (r - 1) by lia.
  - replace ((i * 10 <=? block_x * 10 + (c - 1))
             && (block_x * 10 + (c - 1) <? i * 10 + 10)
             && (0 <=? r - 1) && (r - 1 <? 0 + 20)) with false by lia.
    reflexivity.
Qed.

Lemma paint_ok (block : Pil.image) (cells : list cell) :
  Pil.width block = 10 -> Pil.height block = 20 ->
  exists block',
    paint block cells = Some block'
    /\ Pil.width block' = 10 /\ Pil.height block' = 20
    /\ forall r c, in_grid (r, c) = true ->
         active block' 0 r c = cell_mem (r, c) cells || active block 0 r c.
Proof.
  revert block. induction cells as [|[row col] cells IH]; intros block Hw Hh.
  - exists block. repeat split; auto.
  - cbn [paint].
    destruct ((0 <=? row - 1) && (row - 1 <? 20) && (0 <=? col - 1)
              && (col - 1 <? 10)) eqn:Hguard.
    + unfold Pil.putpixel, Pil.inside. rewrite Hw, Hh.
      replace ((0 <=? col - 1) && (col - 1 <? 10) && (0 <=? row - 1)
               && (row - 1 <? 20)) with true by lia.
      match goal with |- context [paint ?b cells] =>
        destruct (IH b eq_refl eq_refl) as (block' & Hp & Hw' & Hh' & Hact) end.
      exists block'. repeat split; auto.
      intros r c Hg. rewrite (Hact r c Hg). unfold cell_mem. cbn [existsb].
      unfold active, cell_eqb. cbn [Pil.pixels fst snd].
      replace (0 * 10 + (c - 1) =? col - 1) with (c =? col) by lia.
      replace (r - 1 =? row - 1) with (r =? row) by lia.
      destruct (r =? row), (c =? col); cbn [andb orb];
        now rewrite ?orb_true_r, ?orb_false_r.
    + destruct (IH block Hw Hh) as (block' & Hp & Hw' & Hh' & Hact).
      exists block'. repeat split; auto.
      intros r c Hg. rewrite (Hact r c Hg). unfold cell_mem. cbn [existsb].
      unfold in_grid in Hg. unfold cell_eqb. cbn [fst snd] in *.
      replace ((r =? row) && (c =? col)) with false by lia. reflexivity.
Qed.

(** The block painted for a list of cells shows exactly these cells. *)
Lemma paint_new (cells : list cell) :
  exists block,
    paint (Pil.new 10 20 1) cells = Some block
    /\ Pil.width block = 10 /\ Pil.height block = 20
    /\ forall r c, in_grid (r, c) = true -> active block 0 r c = cell_mem (r, c) cells.
Proof.
  destruct (paint_ok (Pil.new 10 20 1) cells eq_refl eq_refl)
    as (block & Hp & Hw & Hh & Hact).
  exists block. repeat split; auto.
  intros r c Hg. rewrite (Hact r c Hg), active_new. apply orb_false_r.
Qed.

Lemma find_places_ext act1 act2 places number :
  (forall place col v, In (place, col) places -> In v (seqZ 1 9) ->
     act1 (11 - (v - 1)) col = act2 (11 - (v - 1)) col) ->
  find_places act1 places number = find_places act2 places number.
Proof.
  revert number. induction places as [|[place col] places IH]; intros number H;
    [reflexivity |].
  cbn [find_places].
  rewrite (find_place_ext act1 act2 place col)
    by (intros v Hv; apply (H place col v); [now left | exact Hv]).
  apply IH. intros p c v Hin Hv. apply (H p c v); [now right | exact Hv].
Qed.

(** Two blocks with the same inked cells read the same. *)
Lemma block_value_ext act1 act2 :
  (forall r c, in_grid (r, c) = true -> act1 r c = act2 r c) ->
  block_value act1 = block_value act2.
Proof.
  intros H. unfold block_value.
  rewrite (find_digit_ext act1 act2 UNITS_POS), (find_digit_ext act1 act2 TENS_HIGH_POS),
    (find_digit_ext act1 act2 TENS_LOW_POS), (find_named_ext act1 act2 SUFFIXES_INV),
    (find_places_ext act1 act2 PLACES); [reflexivity | ..].
  - intros place col v Hin Hv. apply H.
    assert (Hr : 1 <= v <= 9) by (apply list_elem_of_In, elem_of_seqZ in Hv; lia).
    simpl in Hin. unfold in_grid. cbn [fst snd].
    repeat (destruct Hin as [[= <- <-]|Hin]; [lia |]). easy.
  - intros r c name Hin. apply H. simpl in Hin.
    repeat (destruct Hin as [[= <- <- <-]|Hin]; [reflexivity |]). easy.
  - intros v r c Hin. apply H. simpl in Hin.
    repeat (destruct Hin as [[= <- <- <-]|Hin]; [reflexivity |]). easy.
  - intros v r c Hin. apply H. simpl in Hin.
    repeat (destruct Hin as [[= <- <- <-]|Hin]; [reflexivity |]). easy.
  - intros v r c Hin. apply H. simpl in Hin.
    repeat (destruct Hin as [[= <- <- <-]|Hin]; [reflexivity |]). easy.
Qed.

Lemma header_value_ext act1 act2 :
  (forall r c, in_grid (r, c) = true -> act1 r c = act2 r c) ->
  header_value act1 = header_value act2.
Proof.
  intros H. unfold header_value.
  rewrite (find_named_ext act1 act2 LANG_CELLS_INV),
    (find_named_ext act1 act2 DATA_TYPES_INV); [reflexivity | |];
    intros r c name Hin; apply H; simpl in Hin;
    repeat (destruct Hin as [[= <- <- <-]|Hin]; [reflexivity |]); easy.
Qed.

(** C1.  For every [v] from 0 to 9,999,999,999, the block painted from
    [id_to_cells(v)], with no tag marker, reads back as [(v, 'b')]. *)
Theorem grid_round_trip (v : Z) :
  0 <= v <= 9999999999 ->
  exists cells block,
    id_to_cells v = Some cells
    /\ paint (Pil.new 10 20 1) cells = Some block
    /\ read_block block 0 = Some (v, "b").
Proof.
  intros Hv.
  destruct (paint_new (number_cells v)) as (block & Hp & Hw & Hh & Hact).
  exists (number_cells v), block. split; [apply id_to_cells_eq |].
  split; [exact Hp |].
  rewrite read_block_pure by (unfold block_ok; lia).
  rewrite (block_value_ext _ _ Hact).
  rewrite <- (app_nil_r (number_cells v)).
  change [] with (suffix_cells None) at 1.
  now rewrite block_value_cells.
Qed.

Lemma grid_round_trip_witness :
  exists cells block,
    id_to_cells 9876543210 = Some cells
    /\ paint (Pil.new 10 20 1) cells = Some block
    /\ read_block block 0 = Some (9876543210, "b").
Proof. apply grid_round_trip. lia. Defined.

(** *** Strips *)

Lemma draw_token_ok img offset i token :
  exists img',
    draw_token img offset i token = Some img'
    /\ Pil.width img' = Pil.width img /\ Pil.height img' = Pil.height img
    /\ forall block_x r c, in_grid (r, c) = true ->
         active img' block_x r c
         = match token_cells token with
           | Some cells =>
               if block_x =? i + offset then cell_mem (r, c) cells
               else active img block_x r c
           | None => active img block_x r c
           end.
Proof.
  unfold draw_token, token_cells.
  destruct (Py.filter Py.isdigit token) as [|d ds] eqn:E.
  - exists img. repeat split; auto.
  - rewrite id_to_cells_eq.
    set (number := Py.int (String d ds)).
    set (suffix := scan_suffix token None).
    assert (Hcells :
      match suffix with
      | Some s =>
          match s, Dict.get String.eqb SUFFIXES s with
          | String _ _, Some pos => number_cells number ++ [pos]
          | _, _ => number_cells number
          end
      | None => number_cells number
      end = number_cells number ++ suffix_cells suffix).
    { unfold suffix_cells. destruct suffix as [[|a s']|];
        rewrite ?app_nil_r; try reflexivity.
      destruct (Dict.get String.eqb SUFFIXES (String a s'));
        now rewrite ?app_nil_r. }
    rewrite Hcells.
    destruct (paint_new (number_cells number ++ suffix_cells suffix))
      as (block & -> & Hw & Hh & Hact).
    eexists. split; [reflexivity |]. repeat split; auto.
    intros block_x r c Hg. rewrite (active_paste _ _ _ _ _ _ Hw Hh Hg).
    now rewrite (Hact r c Hg).
Qed.

Lemma draw_tokens_ok token_list img offset i :
  exists img',
    draw_tokens img offset i token_list = Some img'
    /\ Pil.width img' = Pil.width img /\ Pil.height img' = Pil.height img
    /\ forall block_x r c, in_grid (r, c) = true ->
         active img' block_x r c
         = match (if i + offset <=? block_x
                  then token_list !! Z.to_nat (block_x - (i + offset))
                  else None) with
           | Some token =>
               match token_cells token with
               | Some cells => cell_mem (r, c) cells
               | None => active img block_x r c
               end
           | None => active img block_x r c
           end.
Proof.
  revert img i. induction token_list as [|token rest IH]; intros img i.
  - exists img. repeat split; auto. intros block_x r c _.
    now destruct (i + offset <=? block_x).
  - cbn [draw_tokens].
    destruct (draw_token_ok img offset i token) as (img1 & -> & Hw1 & Hh1 & H1).
    destruct (IH img1 (i + 1)) as (img' & -> & Hw & Hh & H').
    exists img'. split; [reflexivity |]. split; [congruence |]. split; [congruence |].
    intros block_x r c Hg. rewrite (H' _ _ _ Hg), (H1 _ _ _ Hg).
    destruct (Z.leb_spec (i + offset) block_x) as [Hle|Hlt].
    + destruct (Z.eqb_spec block_x (i + offset)) as [->|Hne].
      * replace (i + 1 + offset <=? i + offset) with false by lia.
        now rewrite Z.sub_diag.
      * replace (i + 1 + offset <=? block_x) with true by lia.
        replace (Z.to_nat (block_x - (i + offset)))
          with (S (Z.to_nat (block_x - (i + 1 + offset)))) by lia.
        cbn [lookup list_lookup].
        destruct (rest !! _) as [t|]; [| now destruct (token_cells token)].
        destruct (token_cells t); [reflexivity |]. now destruct (token_cells token).
    + replace (i + 1 + offset <=? block_x) with false by lia.
      replace (block_x =? i + offset) with false by lia.
      now destruct (token_cells token).
Qed.

Lemma read_blocks_ok img blocks result :
  Forall (block_ok img) blocks ->
  read_blocks img blocks result
  = Some (result ++ map (fun i => block_text (active img i)) blocks).
Proof.
  intros H. revert result.
  induction H as [|i blocks Hi _ IH]; intros result.
  - simpl. now rewrite app_nil_r.
  - cbn [read_blocks map]. rewrite (read_block_pure _ _ Hi).
    unfold block_text at 1. destruct (block_value (active img i)) as [n s].
    rewrite IH. now rewrite <- app_assoc.
Qed.

Lemma header_block_lang (L : string) :
  In L (map fst LANG_CELLS) ->
  exists header,
    header_block (Some L) None = Some header
    /\ Pil.width header = 10 /\ Pil.height header = 20
    /\ header_value (active header 0) = (Some L, None)
    /\ Py.truthy (Some L) = true.
Proof.
  intros Hin. simpl in Hin.
  repeat (destruct Hin as [<-|Hin];
          [eexists; split; [reflexivity |]; repeat split |]).
  easy.
Qed.

Lemma map_seqZ_lookup {A} (f : Z -> A) (l : list A) (start : Z) :
  (forall (j : nat) x, l !! j = Some x -> f (start + Z.of_nat j) = x) ->
  map f (seqZ start (Z.of_nat (length l))) = l.
Proof.
  revert start. induction l as [|x l IH]; intros start H; [reflexivity |].
  rewrite seqZ_cons by (simpl; lia). cbn [map]. f_equal.
  - rewrite <- (H 0%nat x eq_refl). f_equal. lia.
  - replace (Z.pred (Z.of_nat (length (x :: l)))) with (Z.of_nat (length l))
      by (simpl; lia).
    apply IH. intros j y Hj. rewrite <- (H (S j) y Hj). f_equal. lia.
Qed.

(** What [create_strip] writes for a configured language and no data
    type: a header block that shows the language only, then one block per
    token. *)
Lemma create_strip_lang (token_list : list string) (L filename : string)
    (fs : files) :
  In L (map fst LANG_CELLS) ->
  exists img,
    create_strip token_list (Some L) None filename fs
    = Some (<[filename := img]> fs, Z.of_nat (length token_list) + 1)
    /\ Pil.width img = 10 * (Z.of_nat (length token_list) + 1)
    /\ Pil.height img = 20
    /\ header_value (active img 0) = (Some L, None)
    /\ forall (j : nat) token r c,
         token_list !! j = Some token -> in_grid (r, c) = true ->
         active img (1 + Z.of_nat j) r c
         = match token_cells token with
           | Some cells => cell_mem (r, c) cells
           | None => false
           end.
Proof.
  intros HL.
  destruct (header_block_lang L HL) as (header & Hhdr & Hw & Hh & Hval & Htruthy).
  unfold create_strip. rewrite Htruthy. cbn [orb]. rewrite Hhdr.
  set (total := Z.of_nat (length token_list) + 1).
  set (img1 := Pil.paste (Pil.new (10 * total) 20 1) header 0 0).
  destruct (draw_tokens_ok token_list img1 1 0) as (img & -> & Hwi & Hhi & Hact).
  exists img. split; [reflexivity |]. split; [exact Hwi |]. split; [exact Hhi |].
  assert (H1 : forall block_x r c, in_grid (r, c) = true ->
            active img1 block_x r c
            = if block_x =? 0 then active header 0 r c else false).
  { intros block_x r c Hg. unfold img1. change 0 with (0 * 10) at 1.
    now rewrite (active_paste _ _ _ _ _ _ Hw Hh Hg), active_new. }
  split.
  - rewrite <- Hval. apply header_value_ext. intros r c Hg.
    rewrite (Hact _ _ _ Hg), (H1 _ _ _ Hg). reflexivity.
  - intros j token r c Hj Hg. rewrite (Hact _ _ _ Hg), (H1 _ _ _ Hg).
    rewrite (proj2 (Z.leb_le (0 + 1) (1 + Z.of_nat j))) by lia.
    replace (Z.to_nat (1 + Z.of_nat j - (0 + 1))) with j by lia.
    rewrite Hj, (proj2 (Z.eqb_neq (1 + Z.of_nat j) 0)) by lia. reflexivity.
Qed.

(** What [read_strip] returns for such a file. *)
Lemma read_strip_lang (token_list : list string) (L filename : string)
    (fs : files) (img : Pil.image) :
  Pil.width img = 10 * (Z.of_nat (length token_list) + 1) ->
  Pil.height img = 20 ->
  header_value (active img 0) = (Some L, None) ->
  Py.truthy (Some L) = true ->
  read_strip filename (<[filename := img]> fs)
  = Some (Some L, None,
          Py.join " " (map (fun i => block_text (active img i))
                         (seqZ 1 (Z.of_nat (length token_list))))).
Proof.
  intros Hw Hh Hval Htruthy. unfold read_strip.
  rewrite lookup_insert_eq. cbn [fmap option_fmap option_map].
  change (Pil.width (Pil.bilevel img)) with (Pil.width img). rewrite Hw.
  rewrite (Z.mul_comm 10), Z.div_mul by lia.
  replace (Z.of_nat (length token_list) + 1 =? 0) with false by lia.
  rewrite read_header_pure by (unfold block_ok; simpl; lia).
  rewrite (header_value_ext _ (active img 0))
    by (intros; apply active_bilevel).
  rewrite Hval, Htruthy. cbn [orb].
  replace (Z.of_nat (length token_list) + 1 - 1)
    with (Z.of_nat (length token_list)) by lia.
  rewrite read_blocks_ok.
  - cbn [app]. do 3 f_equal. apply map_ext_in. intros i _.
    unfold block_text.
    now rewrite (block_value_ext (active (Pil.bilevel img) i) (active img i))
      by (intros; apply active_bilevel).
  - apply Forall_forall. intros i Hi%elem_of_seqZ.
    unfold block_ok. simpl. lia.
Qed.

Lemma block_value_ext_text act1 act2 :
  (forall r c, in_grid (r, c) = true -> act1 r c = act2 r c) ->
  block_text act1 = block_text act2.
Proof. intros H. unfold block_text. now rewrite (block_value_ext _ _ H). Qed.

(** *** Canonical wire items *)

Lemma digit_not_marker (c : ascii) :
  Py.isdigit c = true -> Py.contains c "snrSNR" = false.
Proof. destruct c as [[] [] [] [] [] [] [] []]; vm_compute; congruence. Qed.

Lemma scan_suffix_app (a b : string) (suffix : option string) :
  scan_suffix (a +:+ b) suffix = scan_suffix b (scan_suffix a suffix).
Proof.
  revert suffix. induction a as [|c a IH]; intros suffix; [reflexivity |].
  rewrite append_cons. cbn [scan_suffix]. now destruct (Py.contains c "snrSNR").
Qed.

Lemma scan_suffix_digits (s : string) (suffix : option string) :
  all_chars Py.isdigit s = true -> scan_suffix s suffix = suffix.
Proof.
  induction s as [|c s IH]; [reflexivity |]. cbn [all_chars scan_suffix].
  intros [Hc Hs]%andb_prop. now rewrite (digit_not_marker c Hc), IH.
Qed.

Lemma token_cells_wire (v : Z) (t : tag) :
  0 <= v ->
  token_cells (wire_text (v, t))
  = Some (number_cells v ++ suffix_cells (tag_suffix t)).
Proof.
  intros Hv. unfold token_cells, wire_text. cbn [fst snd].
  rewrite filter_app, (filter_all _ _ (str_digits v Hv)).
  rewrite scan_suffix_app, (scan_suffix_digits _ _ (str_digits v Hv)).
  replace (Py.filter Py.isdigit (tag_letter t)) with EmptyString
    by now destruct t.
  replace (scan_suffix (tag_letter t) None) with (tag_suffix t) by now destruct t.
  rewrite append_nil_r. pose proof (str_nonempty v) as Hne.
  destruct (Py.str v) as [|c s] eqn:E; [congruence |].
  rewrite <- E, int_str by exact Hv. reflexivity.
Qed.

Lemma block_text_wire (v : Z) (t : tag) :
  0 <= v <= 9999999999 ->
  block_text
    (fun r c => cell_mem (r, c) (number_cells v ++ suffix_cells (tag_suffix t)))
  = wire_text (v, t).
Proof.
  intros Hv. unfold block_text. rewrite block_value_cells by exact Hv.
  unfold wire_text. cbn [fst snd]. now destruct t.
Qed.

(** C7.  Header round trip.  For every list of ASCII tokens of at most
    4300 digits each and every configured language [L], [create_strip]
    with [L], no data type and the default file name writes one block more
    than there are tokens, and [read_strip] finds in the file the language
    [L], no data type, and a wire text; this text is the list of tokens
    joined by spaces when each token is the canonical text of a wire token
    whose value is at most 9,999,999,999.  So ["5b"] with "eng" gives 2
    blocks and reads back as [("eng", None, "5b")]. *)
Theorem header_round_trip :
  (forall (token_list : list string) (L : string) (fs : files),
     In L (map fst LANG_CELLS) ->
     forallb item_ok token_list = true ->
     exists fs' wire,
       create_strip token_list (Some L) None "strip.png" fs
       = Some (fs', Z.of_nat (length token_list) + 1)
       /\ read_strip "strip.png" fs' = Some (Some L, None, wire)
       /\ forall ws : list (Z * tag),
            token_list = map wire_text ws ->
            Forall (fun w => 0 <= fst w <= 9999999999) ws ->
            wire = Py.join " " token_list)
  /\ (forall (fs : files),
        exists fs',
          create_strip ["5b"] (Some "eng") None "strip.png" fs = Some (fs', 2)
          /\ read_strip "strip.png" fs' = Some (Some "eng", None, "5b")).
Proof.
  assert (Hgen : forall (token_list : list string) (L filename : string) (fs : files),
     In L (map fst LANG_CELLS) ->
     exists fs' wire,
       create_strip token_list (Some L) None filename fs
       = Some (fs', Z.of_nat (length token_list) + 1)
       /\ read_strip filename fs' = Some (Some L, None, wire)
       /\ forall ws : list (Z * tag),
            token_list = map wire_text ws ->
            Forall (fun w => 0 <= fst w <= 9999999999) ws ->
            wire = Py.join " " token_list).
  { intros token_list L filename fs HL.
    destruct (create_strip_lang token_list L filename fs HL)
      as (img & Hcreate & Hw & Hh & Hval & Hact).
    destruct (header_block_lang L HL) as (_ & _ & _ & _ & _ & Htruthy).
    eexists _, _. split; [exact Hcreate |].
    split; [apply (read_strip_lang token_list L filename fs img Hw Hh Hval Htruthy) |].
    intros ws Hws Hrange. f_equal.
    apply map_seqZ_lookup. intros j token Hj.
    rewrite (block_value_ext_text _ _ (fun r c => Hact j token r c Hj)).
    subst token_list. rewrite list_lookup_fmap in Hj.
    destruct (ws !! j) as [[v t]|] eqn:Ew; [| discriminate].
    injection Hj as <-.
    assert (Hv : 0 <= v <= 9999999999).
    { rewrite Forall_lookup in Hrange. apply (Hrange j (v, t) Ew). }
    rewrite token_cells_wire by lia. now apply block_text_wire. }
  split; [intros token_list L fs HL _; now apply Hgen |].
  intros fs.
  destruct (Hgen ["5b"] "eng" "strip.png" fs) as (fs' & wire & Hc & Hr & Hwire);
    [simpl; auto 10 |].
  exists fs'. split; [exact Hc |].
  rewrite Hr, (Hwire [(5, Dictionary)]); [reflexivity | reflexivity |].
  repeat constructor; simpl; lia.
Qed.

(** ** The run-length law *)

(** *** Splitting a wire text *)

Lemma split_from_nospace (cur s rest : string) :
  all_chars nospace s = true ->
  Py.split_from cur (s +:+ rest) = Py.split_from (cur +:+ s) rest.
Proof.
  revert cur. induction s as [|c s IH]; intros cur; cbn [all_chars].
  - intros _. now rewrite append_nil_l, append_nil_r.
  - intros [Hc Hs]%andb_prop. rewrite append_cons. cbn [Py.split_from].
    unfold nospace in Hc. apply negb_true_iff in Hc. rewrite Hc.
    rewrite IH by exact Hs. now rewrite append_assoc.
Qed.

Lemma split_from_end (cur s : string) :
  all_chars nospace s = true -> Py.split_from cur s = Py.flush (cur +:+ s).
Proof.
  intros Hs. rewrite <- (append_nil_r s) at 1.
  now rewrite (split_from_nospace _ s) by exact Hs.
Qed.


Lemma split_one (a : string) :
  a <> EmptyString -> all_chars nospace a = true -> Py.split a = [a].
Proof.
  intros Ha Hsa. unfold Py.split. rewrite (split_from_end _ a Hsa), append_nil_l.
  destruct a; [congruence | reflexivity].
Qed.

Lemma digit_nospace (c : ascii) : Py.isdigit c = true -> nospace c = true.
Proof. destruct c as [[] [] [] [] [] [] [] []]; vm_compute; congruence. Qed.

(** [str(z)] is an optional minus sign and a non-empty run of digits. *)
Lemma str_shape (z : Z) :
  exists sign ds,
    Py.str z = sign +:+ ds /\ (sign = EmptyString \/ sign = "-")
    /\ ds <> EmptyString /\ all_chars Py.isdigit ds = true.
Proof.
  destruct z as [|p|p].
  - exists EmptyString, "0". repeat split; auto; discriminate.
  - destruct (str_nonneg (Z.pos p)) as (d & E & Hd & _); [lia |].
    exists EmptyString, (NilEmpty.string_of_uint d).
    repeat split; auto using uint_nonempty, uint_digits.
  - exists "-", (NilEmpty.string_of_uint (Pos.to_uint p)).
    pose proof (Unsigned.to_uint_nonnil p) as Hn.
    repeat split; auto using uint_nonempty, uint_digits.
    unfold Py.str. simpl. unfold NilZero.string_of_uint.
    rewrite append_cons, append_nil_l.
    destruct (Pos.to_uint p); congruence.
Qed.

Lemma str_nospace (z : Z) : all_chars nospace (Py.str z) = true.
Proof.
  destruct (str_shape z) as (sign & ds & -> & Hsign & _ & Hds).
  rewrite all_chars_app, (all_chars_weaken _ _ _ digit_nospace Hds).
  now destruct Hsign as [-> | ->].
Qed.

Lemma str_has_digits (z : Z) : Py.filter Py.isdigit (Py.str z) <> EmptyString.
Proof.
  destruct (str_shape z) as (sign & ds & -> & Hsign & Hne & Hds).
  rewrite filter_app, (filter_all _ _ Hds).
  now destruct Hsign as [-> | ->].
Qed.

(** *** The tokens of [tokenize] *)

Lemma flush_tokens (P : string -> Prop) (cur : string) :
  P cur -> Forall P (Py.flush cur).
Proof. intros H. destruct cur; repeat constructor. exact H. Qed.

Lemma findall_tokens (run : option char_class) (cur s : string) :
  all_chars token_char cur = true ->
  Forall (fun t => all_chars token_char t = true) (findall run cur s).
Proof.
  revert run cur. induction s as [|c s IH]; intros run cur Hcur.
  - now apply flush_tokens.
  - cbn [findall]. destruct (classify c) as [k|] eqn:Ec.
    + assert (Hc : token_char c = true) by (unfold token_char; now rewrite Ec).
      assert (Hrun : Forall (fun t => all_chars token_char t = true)
                (if from_option (char_class_eqb k) false run
                 then findall run (cur +:+ Py.chr c) s
                 else Py.flush cur ++ findall (Some k) (Py.chr c) s)).
      { destruct (from_option _ false run).
        - apply IH. rewrite all_chars_app, Hcur. simpl. now rewrite Hc.
        - apply Forall_app. split; [now apply flush_tokens |].
          apply IH. simpl. now rewrite Hc. }
      destruct k; try exact Hrun.
      apply Forall_app. split; [now apply flush_tokens |].
      constructor; [simpl; now rewrite Hc | now apply IH].
    + apply Forall_app. split; [now apply flush_tokens | now apply IH].
Qed.

Lemma number_token_digits (t : string) :
  all_chars token_char t = true -> is_number t = true ->
  all_chars Py.isdigit t = true.
Proof.
  intros Ht Hn. unfold is_number in Hn. destruct t as [|c t]; [discriminate |].
  apply andb_prop in Hn as [_ Hn]. revert c Ht Hn.
  induction t as [|c' t IH]; intros c Ht Hn.
  - cbn [all_chars all_digits_to_end] in *. rewrite andb_true_r in *.
    apply orb_prop in Hn as [Hn | Hn]; [exact Hn |].
    apply Ascii.eqb_eq in Hn. subst c. discriminate.
  - cbn [all_chars all_digits_to_end] in Ht, Hn.
    apply andb_prop in Ht as [_ Ht]. apply andb_prop in Hn as [Hc Hn].
    cbn [all_chars]. unfold Py.isdigit at 1. rewrite Hc.
    exact (IH c' Ht Hn).
Qed.

Lemma chars_tokens (s : string) :
  Forall (fun t => exists c, t = Py.chr c) (Py.chars s).
Proof. induction s as [|c s IH]; constructor; eauto. Qed.

(** A number token of [tokenize] is a run of digits. *)
Lemma tokenize_number (text lang t : string) :
  In t (tokenize text lang) -> is_number t = true ->
  all_chars Py.isdigit t = true.
Proof.
  unfold tokenize. intros Hin Hn.
  destruct (String.eqb lang "zh").
  - pose proof (chars_tokens (Py.remove " " text)) as H.
    rewrite Forall_forall in H. destruct (H t) as [c ->];
      [now apply list_elem_of_In |].
    unfold is_number in Hn. apply andb_prop in Hn as [Hc _].
    simpl. unfold Py.isdigit. now rewrite Hc.
  - apply number_token_digits; [| exact Hn].
    assert (H : forall s, Forall (fun t => all_chars token_char t = true)
                  (findall None EmptyString s))
      by (intros s; now apply findall_tokens).
    destruct (String.eqb lang "ar");
      [specialize (H text) | specialize (H (Py.lower text))];
      rewrite Forall_forall in H; apply H; now apply list_elem_of_In.
Qed.

(** White space separates tokens: a text made of a token repeated with
    spaces in between has this token as its tokens. *)
Lemma lower_app (a b : string) : Py.lower (a +:+ b) = Py.lower a +:+ Py.lower b.
Proof.
  induction a as [|c a IH]; [reflexivity |].
  rewrite append_cons. cbn [Py.lower]. now rewrite IH.
Qed.

Lemma chars_app (a b : string) : Py.chars (a +:+ b) = Py.chars a ++ Py.chars b.
Proof.
  induction a as [|c a IH]; [reflexivity |].
  rewrite append_cons. cbn [Py.chars]. now rewrite IH.
Qed.




(** *** Encoding a run *)




(** *** Decoding an item and a Repeat item *)

Lemma append_nonempty (a b : string) : b <> EmptyString -> a +:+ b <> EmptyString.
Proof. destruct a; [now rewrite append_nil_l | rewrite append_cons; discriminate]. Qed.

Lemma last_tag_app (s : string) (c : ascii) :
  Py.contains c "bnsr" = true ->
  last_tag (s +:+ String c EmptyString) = Some (Py.chr c).
Proof.
  intros Hc. unfold last_tag. rewrite filter_app. cbn [Py.filter]. rewrite Hc.
  now rewrite last_char_app.
Qed.

Lemma append_times_replicate (n : nat) (w : string) (words : list string) :
  append_times n w words = words ++ replicate n w.
Proof.
  revert words. induction n as [|n IH]; intros words; simpl.
  - now rewrite app_nil_r.
  - now rewrite IH, <- app_assoc.
Qed.

Lemma decode_dictionary_item dec words (id : Z) :
  exists w, decode_token dec words (Py.str id +:+ "b") = words ++ [w].
Proof.
  eexists. rewrite decode_token_spec. apply apply_item_dictionary.
  - unfold digits_of. rewrite filter_app.
    change (Py.filter Py.isdigit "b") with EmptyString. rewrite append_nil_r.
    apply str_has_digits.
  - right. now rewrite last_tag_app.
Qed.

Lemma decode_literal_item dec words (X : string) :
  X <> EmptyString -> all_chars Py.isdigit X = true ->
  decode_token dec words (X +:+ "n") = words ++ [Py.str (Py.int X)].
Proof.
  intros Hne HX. rewrite decode_token_spec, last_tag_app by reflexivity.
  unfold digits_of. rewrite filter_app, (filter_all _ _ HX).
  change (Py.filter Py.isdigit "n") with EmptyString. rewrite append_nil_r.
  unfold apply_item. destruct X; [congruence | reflexivity].
Qed.

Lemma decode_repeat_item dec words w (k : nat) :
  (1 <= k)%nat ->
  decode_token dec (words ++ [w]) (Py.str (Z.of_nat k) +:+ "r")
  = words ++ replicate k w.
Proof.
  intros Hk. rewrite decode_token_spec, last_tag_app by reflexivity.
  unfold digits_of. rewrite filter_app, (filter_all _ _ (str_digits _ (Nat2Z.is_nonneg k))).
  change (Py.filter Py.isdigit "r") with EmptyString. rewrite append_nil_r.
  unfold apply_item. pose proof (str_nonempty (Z.of_nat k)) as Hne.
  destruct (Py.str (Z.of_nat k)) as [|c s] eqn:E; [congruence |]. rewrite <- E.
  change (suffix_is (Some (Py.chr "r")) "n") with false.
  change (suffix_is (Some (Py.chr "r")) "r") with true. cbv iota.
  rewrite last_snoc, int_str, append_times_replicate by lia.
  replace (Z.to_nat (Z.of_nat k - 1)) with (k - 1)%nat by lia.
  rewrite <- app_assoc. f_equal.
  destruct k as [|k]; [lia |]. simpl. now rewrite Nat.sub_0_r.
Qed.



(** ** The lossy asymmetry *)







(** ** Scenarios and edge cases of the strip *)

Lemma header_round_trip_witness :
  exists fs' wire,
    create_strip ["5b"; "17n"] (Some "eng") None "strip.png" ∅ = Some (fs', 3)
    /\ read_strip "strip.png" fs' = Some (Some "eng", None, wire)
    /\ wire = "5b 17n".
Proof.
  destruct (proj1 header_round_trip ["5b"; "17n"] "eng" ∅)
    as (fs' & wire & Hc & Hr & Hw); [simpl; auto 10 | reflexivity |].
  exists fs', wire. split; [exact Hc |]. split; [exact Hr |].
  apply (Hw [(5, Dictionary); (17, Literal)]); [reflexivity |].
  repeat constructor; simpl; lia.
Defined.

(** C7, the limits of the round trip.  A token of eleven digits does not
    come back from the strip: the grid has ten digit places, and
    [id_to_cells] drops the eleventh digit.  A token with leading zeros
    comes back without them, and a token without a tag letter comes back
    with the letter b. *)
Lemma strip_round_trip_counterexample :
  (bind (fs', _) :=
     create_strip ["12345678901n"] (Some "eng") None "strip.png" ∅ in
   read_strip "strip.png" fs') = Some (Some "eng", None, "2345678901n")
  /\ (bind (fs', _) := create_strip ["007n"] (Some "eng") None "strip.png" ∅ in
      read_strip "strip.png" fs') = Some (Some "eng", None, "7n")
  /\ (bind (fs', _) := create_strip ["5"] (Some "eng") None "strip.png" ∅ in
      read_strip "strip.png" fs') = Some (Some "eng", None, "5b")
  /\ ~ (exists fs' n,
          create_strip ["12345678901n"] (Some "eng") None "strip.png" ∅
          = Some (fs', n)
          /\ read_strip "strip.png" fs'
             = Some (Some "eng", None, Py.join " " ["12345678901n"])).
Proof.
  split; [vm_compute; reflexivity |]. split; [vm_compute; reflexivity |].
  split; [vm_compute; reflexivity |].
  intros (fs' & n & Hc & Hr).
  assert (H : (bind (fs', _) :=
                 create_strip ["12345678901n"] (Some "eng") None "strip.png" ∅ in
               read_strip "strip.png" fs')
              = Some (Some "eng", None, Py.join " " ["12345678901n"]))
    by (rewrite Hc; exact Hr).
  vm_compute in H. discriminate H.
Qed.

Lemma blank_block_value act :
  (forall r c, in_grid (r, c) = true -> act r c = false) ->
  block_value act = (0, "b").
Proof. intros H. now rewrite (block_value_ext act (fun _ _ => false)). Qed.

(** C9.  [id_to_cells(0)] is the empty list; a block of a strip with no
    inked cell reads as [(0, 'b')], so that every blank block among the
    data blocks contributes the item "0b"; and the strip of the token "0b"
    reads like a blank strip of one block. *)
Theorem blank_block_reads_zero :
  id_to_cells 0 = Some []
  /\ (forall img block_x,
        block_ok img block_x ->
        (forall r c, in_grid (r, c) = true -> active img block_x r c = false) ->
        read_block img block_x = Some (0, "b"))
  /\ (forall img blocks result,
        Forall (fun i =>
                  block_ok img i
                  /\ forall r c, in_grid (r, c) = true -> active img i r c = false)
          blocks ->
        read_blocks img blocks result
        = Some (result ++ map (fun _ => "0b") blocks))
  /\ (forall (filename : string) (fs : files),
        exists fs',
          create_strip ["0b"] None None filename fs = Some (fs', 1)
          /\ read_strip filename fs' = Some (None, None, "0b")
          /\ read_strip filename (<[filename := Pil.new 10 20 1]> fs)
             = Some (None, None, "0b")).
Proof.
  split; [reflexivity |]. split; [| split].
  - intros img block_x Hok Hblank.
    now rewrite read_block_pure, (blank_block_value _ Hblank).
  - intros img blocks result H.
    rewrite read_blocks_ok by (eapply Forall_impl; [exact H | now intros i [? _]]).
    do 2 f_equal. apply map_ext_in. intros i Hi.
    rewrite Forall_forall in H. destruct (H i) as [_ Hblank];
      [now apply list_elem_of_In |].
    unfold block_text. now rewrite (blank_block_value _ Hblank).
  - intros filename fs. eexists. split; [reflexivity |].
    unfold read_strip. rewrite !lookup_insert_eq. split; reflexivity.
Qed.

Lemma blank_block_reads_zero_witness :
  read_block (Pil.new 30 20 1) 2 = Some (0, "b").
Proof.
  apply (proj1 (proj2 blank_block_reads_zero)).
  - unfold block_ok. simpl. lia.
  - intros r c _. reflexivity.
Defined.

Lemma encode_rle_invariant_witness :
  let wire := encode {[ "es" := {[ "hola" := 7 ]} ]} "hola hola hola 12 12" "es" in
  (exists (k j : nat) x,
     (2 <= k)%nat /\ "3r" = Py.str (Z.of_nat k) +:+ "r"
     /\ 1%nat = S j /\ wire !! j = Some x /\ is_repeat x = false)
  /\ "7b" <> "3r"
  /\ expand wire
     = fst (phase1 {[ "hola" := 7 ]} "es" (tokenize "hola hola hola 12 12" "es")).
Proof.
  pose proof (encode_rle_invariant {[ "es" := {[ "hola" := 7 ]} ]}
                "hola hola hola 12 12" "es") as (Hadj & Hrep & Hexp).
  split; [| split].
  - apply (Hrep 1%nat "3r"); reflexivity.
  - apply (Hadj 0%nat "7b" "3r"); reflexivity.
  - apply (Hexp {[ "hola" := 7 ]}). reflexivity.
Defined.

(** * Further properties of the grid and of the strips *)

(** ** Numbers of any size *)

(** Reading the cells inked for any number gives its last ten digits. *)
Lemma block_value_any (number : Z) (suffix : option string) :
  block_value
    (fun r c => cell_mem (r, c) (number_cells number ++ suffix_cells suffix))
  = (number mod 10000000000,
     match find_named (fun r c => cell_mem (r, c) (suffix_cells suffix))
             SUFFIXES_INV with
     | Some s => s
     | None => "b"
     end).
Proof.
  unfold block_value.
  rewrite find_units_block, find_tens_block, find_suffix_block.
  f_equal. unfold PLACES. cbn [find_places].
  rewrite !find_place_block by (simpl; auto 10).
  Z.div_mod_to_equations; lia.
Qed.

Lemma digit_shift (v q place : Z) :
  In place [10; 100; 1000; 10000; 100000; 1000000; 10000000; 100000000;
            1000000000] ->
  ((v + 10000000000 * q) / place) mod 10 = (v / place) mod 10.
Proof.
  intros Hin. simpl in Hin.
  repeat (destruct Hin as [<-|Hin]; [Z.div_mod_to_equations; lia |]). easy.
Qed.

Lemma units_shift (v q : Z) : (v + 10000000000 * q) mod 10 = v mod 10.
Proof. Z.div_mod_to_equations; lia. Qed.

Lemma number_cells_shift (v q : Z) :
  number_cells (v + 10000000000 * q) = number_cells v.
Proof.
  unfold number_cells.
  rewrite units_shift, (digit_shift v q 10) by (simpl; auto 20).
  do 2 f_equal. unfold PLACES, place_cells, place_cell. cbn [flat_map].
  now rewrite !digit_shift by (simpl; auto 20).
Qed.

(** ** The shape of the cells of a number *)

Lemma region_bounds (x : cell) :
  0 <= region x -> 3 <= fst x <= 17 /\ 2 <= snd x <= 9.
Proof.
  destruct x as [r c]. unfold region. cbn [fst snd].
  destruct ((3 <=? r) && (r <=? 11) && (2 <=? c) && (c <=? 9)) eqn:E1; [lia |].
  destruct ((14 <=? r) && (r <=? 16) && (7 <=? c) && (c <=? 9)) eqn:E2; [lia |].
  destruct (((r =? 12) && (6 <=? c) && (c <=? 9))
            || ((c =? 6) && (13 <=? r) && (r <=? 17))) eqn:E3; [lia |].
  destruct ((r =? 13) && (7 <=? c) && (c <=? 9)) eqn:E4; lia.
Qed.

Lemma units_cells_length (u : Z) : (length (units_cells u) <= 1)%nat.
Proof.
  unfold units_cells. destruct (0 <? u); [| simpl; lia].
  destruct (Dict.get Z.eqb UNITS_POS u); simpl; lia.
Qed.

Lemma tens_cells_length (d : Z) : (length (tens_cells d) <= 1)%nat.
Proof.
  unfold tens_cells. destruct (0 <? d); [| simpl; lia].
  destruct (Dict.get Z.eqb _ d); simpl; lia.
Qed.

Lemma place_cells_length (number : Z) (pc : Z * Z) :
  (length (place_cells number pc) <= 1)%nat.
Proof.
  destruct pc as [place col]. unfold place_cells, place_cell.
  destruct (0 <? _); simpl; lia.
Qed.

Lemma NoDup_short {A} (l : list A) : (length l <= 1)%nat -> NoDup l.
Proof.
  destruct l as [|x [|y l]]; simpl; intros H; [constructor | | lia].
  constructor; [apply not_elem_of_nil | constructor].
Qed.

(** Lists of cells from distinct parts of the grid, each with at most one
    cell, have no cell in common. *)
Lemma NoDup_parts (parts : list (Z * list cell)) :
  NoDup (map fst parts) ->
  Forall (fun p => (length (snd p) <= 1)%nat
                   /\ Forall (fun y => region y = fst p) (snd p)) parts ->
  NoDup (concat (map snd parts)).
Proof.
  induction parts as [|[g l] parts IH]; intros Hg Hp; [constructor |].
  cbn [map concat fst snd] in *.
  apply NoDup_cons in Hg as [Hg Hgs]. apply Forall_cons in Hp as [[Hl Hr] Hp].
  apply NoDup_app. split; [now apply NoDup_short |]. split; [| now apply IH].
  intros x Hx Hin. rewrite Forall_forall in Hr. specialize (Hr x Hx).
  cbn [fst] in Hr. apply Hg. clear IH Hgs Hg Hl.
  induction parts as [|[g' l'] parts IH]; cbn [map concat fst snd] in *.
  - now apply not_elem_of_nil in Hin.
  - apply Forall_cons in Hp as [[_ Hr'] Hp].
    apply elem_of_app in Hin as [Hin | Hin].
    + rewrite Forall_forall in Hr'. specialize (Hr' x Hin). cbn [fst] in Hr'.
      apply elem_of_cons. left. congruence.
    + apply elem_of_cons. right. now apply IH.
Qed.

Lemma number_cells_parts (number : Z) :
  number_cells number
  = concat (map snd
      ((0, units_cells (number mod 10))
       :: (1, tens_cells ((number / 10) mod 10))
       :: map (fun pc => (10 + snd pc, place_cells number pc)) PLACES)).
Proof.
  unfold number_cells, PLACES. cbn [map concat flat_map snd].
  now rewrite !app_nil_r.
Qed.

(** X1.  The cells of a number: at most ten, all different, and all in
    rows 3 to 17 and columns 2 to 9 of the block, whatever the number. *)
Theorem id_to_cells_shape (number : Z) :
  exists cells,
    id_to_cells number = Some cells
    /\ (length cells <= 10)%nat
    /\ NoDup cells
    /\ Forall (fun x => 3 <= fst x <= 17 /\ 2 <= snd x <= 9) cells.
Proof.
  exists (number_cells number). split; [apply id_to_cells_eq |].
  split; [| split].
  - unfold number_cells, PLACES. cbn [flat_map].
    rewrite !length_app.
    pose proof (units_cells_length (number mod 10)).
    pose proof (tens_cells_length ((number / 10) mod 10)).
    repeat match goal with
           | |- context [length (place_cells number ?pc)] =>
               lazymatch goal with
               | _ : (length (place_cells number pc) <= 1)%nat |- _ => fail
               | _ => pose proof (place_cells_length number pc)
               end
           end.
    change (length (@nil cell)) with 0%nat. lia.
  - rewrite number_cells_parts. apply NoDup_parts.
    + cbn [map fst snd PLACES]. unfold PLACES. cbn [map fst snd].
      apply NoDup_ListNoDup. repeat constructor; simpl; intuition lia.
    + constructor; [split; [apply units_cells_length | apply units_region_mod] |].
      constructor; [split; [apply tens_cells_length | apply tens_region_mod] |].
      apply Forall_fmap, Forall_forall. intros [place col] Hin%list_elem_of_In.
      cbn [fst snd]. split; [apply place_cells_length | now apply place_region].
  - unfold number_cells. rewrite !Forall_app. repeat split.
    + eapply Forall_impl; [apply units_region_mod |].
      intros x Hx. apply region_bounds. simpl in Hx. lia.
    + eapply Forall_impl; [apply tens_region_mod |].
      intros x Hx. apply region_bounds. simpl in Hx. lia.
    + eapply Forall_impl; [apply places_region |].
      intros x Hx. apply region_bounds. simpl in Hx. lia.
Qed.

(** X2.  Two numbers have the same cells exactly when they have the same
    last ten digits: [id_to_cells] is one-to-one up to 9,999,999,999 and
    ignores the digits above. *)
Theorem id_to_cells_same_cells (v w : Z) :
  id_to_cells v = id_to_cells w <-> v mod 10000000000 = w mod 10000000000.
Proof.
  rewrite !id_to_cells_eq. split.
  - intros [= H].
    pose proof (block_value_any v None) as Hv.
    pose proof (block_value_any w None) as Hw.
    rewrite H in Hv. rewrite Hv in Hw. now injection Hw.
  - intros H. f_equal.
    rewrite (Z.div_mod v 10000000000), (Z.div_mod w 10000000000) by lia.
    rewrite H, !(Z.add_comm (_ * _)), !number_cells_shift. reflexivity.
Qed.

(** ** What a block can read as *)

Lemma find_digit_in act pos v :
  find_digit act pos = Some v -> In v (map fst pos).
Proof.
  induction pos as [|[v' [r c]] pos IH]; [discriminate |].
  cbn [find_digit map fst]. destruct (act r c); [intros [= ->]; now left |].
  intros H. right. now apply IH.
Qed.

Lemma find_named_in act table s :
  find_named act table = Some s -> In s (map snd table).
Proof.
  induction table as [|[[r c] name] table IH]; [discriminate |].
  cbn [find_named map snd]. destruct (act r c); [intros [= ->]; now left |].
  intros H. right. now apply IH.
Qed.

Lemma find_place_digit act place col vs n :
  Forall (fun v => 1 <= v <= 9) vs ->
  exists d, 0 <= d <= 9 /\ find_place act place col vs n = n + d * place.
Proof.
  induction 1 as [|v vs Hv _ IH]; [exists 0; simpl; lia |].
  cbn [find_place].
  destruct ((place =? 100000) && (12 <=? 11 - (v - 1))); [exact IH |].
  destruct (act _ col); [exists v; lia | exact IH].
Qed.

Lemma block_value_range act :
  exists n t, block_value act = (n, tag_letter t) /\ 0 <= n <= 9999999999.
Proof.
  unfold block_value.
  assert (Hu : exists u, 0 <= u <= 9
            /\ match find_digit act UNITS_POS with Some v => v | None => 0 end = u).
  { destruct (find_digit act UNITS_POS) as [v|] eqn:E; [| exists 0; lia].
    exists v. split; [| reflexivity]. apply find_digit_in in E. simpl in E. lia. }
  destruct Hu as (u & Hu & ->).
  assert (Ht : exists t, 0 <= t <= 9
            /\ match find_digit act TENS_HIGH_POS with
               | Some v => u + v * 10
               | None =>
                   match find_digit act TENS_LOW_POS with
                   | Some v => u + v * 10
                   | None => u
                   end
               end = u + t * 10).
  { destruct (find_digit act TENS_HIGH_POS) as [v|] eqn:E.
    - exists v. split; [| reflexivity]. apply find_digit_in in E. simpl in E. lia.
    - destruct (find_digit act TENS_LOW_POS) as [v|] eqn:E'; [| exists 0; lia].
      exists v. split; [| reflexivity]. apply find_digit_in in E'. simpl in E'. lia. }
  destruct Ht as (t & Ht & ->).
  assert (Hs : exists g, match find_named act SUFFIXES_INV with
                         | Some s => s
                         | None => "b"
                         end = tag_letter g).
  { destruct (find_named act SUFFIXES_INV) as [s|] eqn:E; [| now exists Dictionary].
    apply find_named_in in E. simpl in E.
    destruct E as [<-|[<-|[<-|[]]]];
      [now exists Sparse | now exists Repeat | now exists Literal]. }
  destruct Hs as (g & ->).
  assert (Hvs : Forall (fun v => 1 <= v <= 9) (seqZ 1 9)).
  { apply Forall_forall. intros v Hv%elem_of_seqZ. lia. }
  unfold PLACES. cbn [find_places].
  repeat match goal with
         | |- context [find_place act ?p ?c (seqZ 1 9) ?n] =>
             let d := fresh "d" in
             let Hd := fresh "Hd" in
             let E := fresh "E" in
             destruct (find_place_digit act p c (seqZ 1 9) n Hvs) as (d & Hd & E);
             rewrite E; clear E
         end.
  eexists _, g. split; [reflexivity | lia].
Qed.

Lemma named_truthy table act name :
  forallb (fun e => Py.truthy (Some (snd e))) table = true ->
  find_named act table = Some name -> Py.truthy (Some name) = true.
Proof.
  intros Hall E. rewrite forallb_forall in Hall.
  induction table as [|[[r c] n] table IH]; [discriminate |].
  cbn [find_named] in E. destruct (act r c).
  - injection E as <-. apply (Hall ((r, c), n)). now left.
  - apply IH; [| exact E]. intros e He. apply Hall. now right.
Qed.

(** X3.  Whatever the pixels of an image of height 20 or more,
    [read_strip] returns: its language and data type are configured ones
    or none, it gives one item for each block of ten columns apart from a
    header, and each item is the canonical text of a wire token of value
    at most 9,999,999,999. *)
Theorem read_strip_canonical (img : Pil.image) (filename : string) (fs : files) :
  0 <= Pil.width img -> 20 <= Pil.height img ->
  exists lang dtype items,
    read_strip filename (<[filename := img]> fs)
    = Some (lang, dtype, Py.join " " items)
    /\ (forall l, lang = Some l -> In l (map fst LANG_CELLS))
    /\ (forall t, dtype = Some t -> In t (map fst DATA_TYPES))
    /\ Z.of_nat (length items)
       = Pil.width img / 10
         - (if Py.truthy lang || Py.truthy dtype then 1 else 0)
    /\ Forall (fun item => exists n t,
                 item = wire_text (n, t) /\ 0 <= n <= 9999999999) items.
Proof.
  intros Hw Hh. unfold read_strip. rewrite lookup_insert_eq.
  cbn [fmap option_fmap option_map].
  change (Pil.width (Pil.bilevel img)) with (Pil.width img).
  pose proof (Z.div_pos (Pil.width img) 10 Hw eq_refl) as Hnb.
  pose proof (Z.mul_div_le (Pil.width img) 10 eq_refl) as Hle.
  destruct (Z.eqb_spec (Pil.width img / 10) 0) as [E0|Hne].
  { exists None, None, []. rewrite E0. repeat split; try discriminate.
    constructor. }
  rewrite read_header_pure by (unfold block_ok; simpl; lia).
  unfold header_value.
  set (lang := find_named (active (Pil.bilevel img) 0) LANG_CELLS_INV).
  set (dtype := find_named (active (Pil.bilevel img) 0) DATA_TYPES_INV).
  assert (Hstart : 0 <= (if Py.truthy lang || Py.truthy dtype then 1 else 0) <= 1)
    by (destruct (Py.truthy lang || Py.truthy dtype); lia).
  rewrite read_blocks_ok.
  2:{ apply Forall_forall. intros i Hi%elem_of_seqZ. unfold block_ok. simpl. lia. }
  eexists lang, dtype, _. split; [reflexivity |].
  split; [| split; [| split]].
  - intros l Hl. apply find_named_in in Hl. exact Hl.
  - intros t Ht. apply find_named_in in Ht. exact Ht.
  - cbn [app]. rewrite length_map, length_seqZ. lia.
  - cbn [app]. apply Forall_fmap, Forall_forall. intros i _.
    cbv [compose]. unfold block_text.
    destruct (block_value_range (active (Pil.bilevel img) i)) as (n & t & -> & Hn).
    now exists n, t.
Qed.

Lemma read_strip_canonical_witness :
  exists lang dtype items,
    read_strip "strip.png" (<[ "strip.png" := Pil.new 25 20 0 ]> ∅)
    = Some (lang, dtype, Py.join " " items)
    /\ (forall l, lang = Some l -> In l (map fst LANG_CELLS))
    /\ (forall t, dtype = Some t -> In t (map fst DATA_TYPES))
    /\ Z.of_nat (length items)
       = Pil.width (Pil.new 25 20 0) / 10
         - (if Py.truthy lang || Py.truthy dtype then 1 else 0)
    /\ Forall (fun item => exists n t,
                 item = wire_text (n, t) /\ 0 <= n <= 9999999999) items.
Proof. apply read_strip_canonical; simpl; lia. Defined.

(** ** Strips of any tokens, with any header *)

Lemma dict_get_in {V} (d : list (string * V)) (k : string) (v : V) :
  Dict.get String.eqb d k = Some v -> In k (map fst d).
Proof.
  induction d as [|[k' v'] d IH]; [discriminate |]. cbn [Dict.get map fst].
  destruct (String.eqb_spec k k') as [->|_]; [now left | right; now apply IH].
Qed.

Lemma header_lang_cases (lang : option string) :
  header_lang lang = None
  \/ exists l, lang = Some l /\ header_lang lang = Some l
               /\ In l (map fst LANG_CELLS).
Proof.
  destruct lang as [[|a l]|]; [now left | | now left]. unfold header_lang.
  destruct (Dict.get String.eqb LANG_CELLS (String a l)) eqn:E; [| now left].
  right. exists (String a l). repeat split. now apply dict_get_in in E.
Qed.

Lemma header_dtype_cases (data_type : option string) :
  header_dtype data_type = None
  \/ exists t, data_type = Some t /\ header_dtype data_type = Some t
               /\ In t (map fst DATA_TYPES).
Proof.
  destruct data_type as [[|a t]|]; [now left | | now left]. unfold header_dtype.
  destruct (Dict.get String.eqb DATA_TYPES (String a t)) eqn:E; [| now left].
  right. exists (String a t). repeat split. now apply dict_get_in in E.
Qed.

Lemma header_block_norm (lang data_type : option string) :
  header_block lang data_type
  = header_block (header_lang lang) (header_dtype data_type).
Proof.
  unfold header_block, header_lang, header_dtype.
  destruct lang as [[|a l]|], data_type as [[|b t]|]; try reflexivity;
    try destruct (Dict.get String.eqb LANG_CELLS (String a l)) as [[r c]|] eqn:El;
    try destruct (Dict.get String.eqb DATA_TYPES (String b t)) as [[r' c']|] eqn:Et;
    cbv beta iota zeta; rewrite ?El, ?Et; reflexivity.
Qed.

Lemma header_norm_idem (lang data_type : option string) :
  header_lang (header_lang lang) = header_lang lang
  /\ header_dtype (header_dtype data_type) = header_dtype data_type.
Proof.
  unfold header_lang, header_dtype.
  destruct lang as [[|a l]|], data_type as [[|b t]|]; try (split; reflexivity);
    try destruct (Dict.get String.eqb LANG_CELLS (String a l)) as [[r c]|] eqn:El;
    try destruct (Dict.get String.eqb DATA_TYPES (String b t)) as [[r' c']|] eqn:Et;
    rewrite ?El, ?Et; split; reflexivity.
Qed.

(** The header block shows the configured language and data type, and
    nothing else. *)
Lemma header_block_ok (lang data_type : option string) :
  exists header,
    header_block lang data_type = Some header
    /\ Pil.width header = 10 /\ Pil.height header = 20
    /\ header_value (active header 0) = (header_lang lang, header_dtype data_type)
    /\ (header_lang lang = None -> header_dtype data_type = None ->
        forall r c, active header 0 r c = false).
Proof.
  rewrite header_block_norm.
  destruct (header_norm_idem lang data_type) as [Hil Hit].
  revert Hil Hit.
  destruct (header_lang_cases lang) as [-> | (l & _ & -> & Hin)];
    destruct (header_dtype_cases data_type) as [-> | (t & _ & -> & Hin')];
    intros Hil Hit.
  - eexists. split; [reflexivity |]. repeat split.
  - simpl in Hin'.
    repeat (destruct Hin' as [<-|Hin']; [| try (exfalso; exact Hin')]);
      (eexists; split; [reflexivity |]; repeat split; discriminate).
  - simpl in Hin.
    repeat (destruct Hin as [<-|Hin]; [| try (exfalso; exact Hin)]);
      (eexists; split; [reflexivity |]; repeat split; discriminate).
  - simpl in Hin, Hin'.
    repeat (destruct Hin as [<-|Hin]; [| try (exfalso; exact Hin)]);
    repeat (destruct Hin' as [<-|Hin']; [| try (exfalso; exact Hin')]);
      (eexists; split; [reflexivity |]; repeat split; discriminate).
Qed.

Lemma scan_suffix_cases (token : string) (suffix : option string) :
  scan_suffix token suffix = suffix
  \/ scan_suffix token suffix = Some "s"
  \/ scan_suffix token suffix = Some "n"
  \/ scan_suffix token suffix = Some "r".
Proof.
  revert suffix. induction token as [|ch rest IH]; intros suffix; [now left |].
  cbn [scan_suffix]. destruct (Py.contains ch "snrSNR") eqn:E; [| apply IH].
  assert (Hch : Py.lower (Py.chr ch) = "s" \/ Py.lower (Py.chr ch) = "n"
                \/ Py.lower (Py.chr ch) = "r").
  { revert E. clear. destruct ch as [[] [] [] [] [] [] [] []]; vm_compute;
      intros E; try discriminate E; auto. }
  destruct (IH (Some (Py.lower (Py.chr ch)))) as [-> | H]; [| now right].
  right. destruct Hch as [-> | [-> | ->]]; auto.
Qed.

(** A block that shows the cells of a token reads as its [strip_form]. *)
Lemma block_text_token (token : string) (act : Z -> Z -> bool) :
  (forall r c, in_grid (r, c) = true ->
     act r c = match token_cells token with
               | Some cells => cell_mem (r, c) cells
               | None => false
               end) ->
  block_text act = strip_form token.
Proof.
  intros H. unfold strip_form. unfold token_cells in H.
  destruct (Py.filter Py.isdigit token) as [|d ds].
  - unfold block_text. now rewrite (blank_block_value act H).
  - rewrite (block_value_ext_text _ _ H). unfold block_text.
    rewrite block_value_any. f_equal.
    destruct (scan_suffix_cases token None) as [-> | [-> | [-> | ->]]];
      reflexivity.
Qed.

Lemma find_named_none act table :
  (forall r c name, In ((r, c), name) table -> act r c = false) ->
  find_named act table = None.
Proof.
  induction table as [|[[r c] name] table IH]; intros H; [reflexivity |].
  cbn [find_named]. rewrite (H r c name) by now left.
  apply IH. intros r' c' n' Hin. apply (H r' c' n'). now right.
Qed.

(** The cells of a token never look like a header. *)
Lemma header_value_token (token : string) (act : Z -> Z -> bool) :
  (forall r c, in_grid (r, c) = true ->
     act r c = match token_cells token with
               | Some cells => cell_mem (r, c) cells
               | None => false
               end) ->
  header_value act = (None, None).
Proof.
  intros H.
  assert (Hrow : forall r c, in_grid (r, c) = true -> r = 1 \/ r = 18 ->
            act r c = false).
  { intros r c Hg Hr. rewrite (H r c Hg). unfold token_cells.
    destruct (Py.filter Py.isdigit token) as [|d ds]; [reflexivity |].
    apply (mem_disjoint (fun y => 3 <= fst y <= 17)); [| simpl; lia].
    apply Forall_app. split.
    - unfold number_cells. rewrite !Forall_app. repeat split.
      + eapply Forall_impl; [apply units_region_mod |].
        intros x Hx. apply region_bounds. simpl in Hx. lia.
      + eapply Forall_impl; [apply tens_region_mod |].
        intros x Hx. apply region_bounds. simpl in Hx. lia.
      + eapply Forall_impl; [apply places_region |].
        intros x Hx. apply region_bounds. simpl in Hx. lia.
    - eapply Forall_impl; [apply suffix_region |].
      intros x Hx. apply region_bounds. simpl in Hx. lia. }
  unfold header_value. f_equal; apply find_named_none; intros r c name Hin;
    simpl in Hin;
    repeat (destruct Hin as [[= <- <- <-]|Hin]; [apply Hrow; auto |]); easy.
Qed.

(** What [create_strip] writes, for any tokens and any header. *)
Lemma create_strip_spec (token_list : list string) (lang data_type : option string)
    (filename : string) (fs : files) :
  let offset := if Py.truthy lang || Py.truthy data_type then 1 else 0 in
  exists img,
    create_strip token_list lang data_type filename fs
    = Some (<[filename := img]> fs, Z.of_nat (length token_list) + offset)
    /\ Pil.width img = 10 * (Z.of_nat (length token_list) + offset)
    /\ Pil.height img = 20
    /\ (offset = 1 ->
        header_value (active img 0) = (header_lang lang, header_dtype data_type)
        /\ (header_lang lang = None -> header_dtype data_type = None ->
            forall r c, in_grid (r, c) = true -> active img 0 r c = false))
    /\ forall (j : nat) token r c,
         token_list !! j = Some token -> in_grid (r, c) = true ->
         active img (offset + Z.of_nat j) r c
         = match token_cells token with
           | Some cells => cell_mem (r, c) cells
           | None => false
           end.
Proof.
  unfold create_strip.
  destruct (Py.truthy lang || Py.truthy data_type); cbv zeta.
  - destruct (header_block_ok lang data_type)
      as (header & -> & Hw & Hh & Hval & Hblank).
    set (total := Z.of_nat (length token_list) + 1).
    set (img1 := Pil.paste (Pil.new (10 * total) 20 1) header 0 0).
    destruct (draw_tokens_ok token_list img1 1 0) as (img & -> & Hwi & Hhi & Hact).
    exists img. split; [reflexivity |]. split; [exact Hwi |]. split; [exact Hhi |].
    assert (H1 : forall block_x r c, in_grid (r, c) = true ->
              active img1 block_x r c
              = if block_x =? 0 then active header 0 r c else false).
    { intros block_x r c Hg. unfold img1. change 0 with (0 * 10) at 1.
      now rewrite (active_paste _ _ _ _ _ _ Hw Hh Hg), active_new. }
    assert (H0 : forall r c, in_grid (r, c) = true ->
              active img 0 r c = active header 0 r c).
    { intros r c Hg. rewrite (Hact _ _ _ Hg), (H1 _ _ _ Hg). reflexivity. }
    split.
    + intros _. split.
      * rewrite <- Hval. now apply header_value_ext.
      * intros Hl Ht r c Hg. rewrite (H0 r c Hg). now apply Hblank.
    + intros j token r c Hj Hg. rewrite (Hact _ _ _ Hg), (H1 _ _ _ Hg).
      rewrite (proj2 (Z.leb_le (0 + 1) (1 + Z.of_nat j))) by lia.
      replace (Z.to_nat (1 + Z.of_nat j - (0 + 1))) with j by lia.
      rewrite Hj, (proj2 (Z.eqb_neq (1 + Z.of_nat j) 0)) by lia. reflexivity.
  - set (total := Z.of_nat (length token_list) + 0).
    destruct (draw_tokens_ok token_list (Pil.new (10 * total) 20 1) 0 0)
      as (img & -> & Hwi & Hhi & Hact).
    exists img. split; [reflexivity |]. split; [exact Hwi |]. split; [exact Hhi |].
    split; [discriminate |].
    intros j token r c Hj Hg. rewrite (Hact _ _ _ Hg), active_new.
    rewrite (proj2 (Z.leb_le (0 + 0) (0 + Z.of_nat j))) by lia.
    replace (Z.to_nat (0 + Z.of_nat j - (0 + 0))) with j by lia.
    now rewrite Hj.
Qed.

Lemma map_seqZ_items {A} (f : Z -> A) (l : list A) (start n : Z) :
  n = Z.of_nat (length l) ->
  (forall (j : nat) x, l !! j = Some x -> f (start + Z.of_nat j) = x) ->
  map f (seqZ start n) = l.
Proof. intros ->. apply map_seqZ_lookup. Qed.

(** What [read_strip] then reads: the header shown, and the [strip_form]
    of the tokens, after the item "0b" when the strip has a header block
    that shows nothing. *)
Lemma strip_round_trip_general (token_list : list string)
    (lang data_type : option string) (filename : string) (fs : files) :
  exists fs',
    create_strip token_list lang data_type filename fs
    = Some (fs', Z.of_nat (length token_list)
                 + if Py.truthy lang || Py.truthy data_type then 1 else 0)
    /\ read_strip filename fs'
       = Some (header_lang lang, header_dtype data_type,
               Py.join " "
                 ((if (Py.truthy lang || Py.truthy data_type)
                      && negb (Py.truthy (header_lang lang)
                               || Py.truthy (header_dtype data_type))
                   then ["0b"] else [])
                  ++ map strip_form token_list)).
Proof.
  destruct (create_strip_spec token_list lang data_type filename fs)
    as (img & Hc & Hw & Hh & Hhdr & Hact).
  cbv zeta in *. eexists. split; [exact Hc |].
  assert (Htext : forall (j : nat) token offset,
            offset = (if Py.truthy lang || Py.truthy data_type then 1 else 0) ->
            token_list !! j = Some token ->
            block_text (active (Pil.bilevel img) (offset + Z.of_nat j))
            = strip_form token).
  { intros j token offset -> Hj. apply block_text_token. intros r c Hg.
    rewrite active_bilevel. now apply Hact. }
  assert (Hlt : forall l, header_lang lang = Some l -> Py.truthy (Some l) = true).
  { intros l Hl. destruct lang as [[|a s]|]; try discriminate.
    unfold header_lang in Hl. destruct (Dict.get _ _ _); [| discriminate].
    now injection Hl as <-. }
  assert (Htt : forall t, header_dtype data_type = Some t ->
            Py.truthy (Some t) = true).
  { intros t Ht. destruct data_type as [[|a s]|]; try discriminate.
    unfold header_dtype in Ht. destruct (Dict.get _ _ _); [| discriminate].
    now injection Ht as <-. }
  unfold read_strip. rewrite lookup_insert_eq. cbn [fmap option_fmap option_map].
  change (Pil.width (Pil.bilevel img)) with (Pil.width img). rewrite Hw.
  rewrite (Z.mul_comm 10), Z.div_mul by lia.
  destruct (Py.truthy lang || Py.truthy data_type) eqn:Hhas.
  - destruct (Hhdr eq_refl) as [Hval Hblank].
    rewrite (proj2 (Z.eqb_neq _ 0)) by lia.
    rewrite read_header_pure by (unfold block_ok; simpl; lia).
    rewrite (header_value_ext _ (active img 0)) by (intros; apply active_bilevel).
    rewrite Hval. cbn [andb].
    assert (Hs : 0 <= (if Py.truthy (header_lang lang)
                          || Py.truthy (header_dtype data_type)
                       then 1 else 0) <= 1)
      by (destruct (Py.truthy (header_lang lang)
                    || Py.truthy (header_dtype data_type)); lia).
    rewrite read_blocks_ok
      by (apply Forall_forall; intros i Hi%elem_of_seqZ;
          unfold block_ok; simpl; lia).
    cbn [app]. do 3 f_equal.
    destruct (Py.truthy (header_lang lang) || Py.truthy (header_dtype data_type))
      eqn:Hshown; cbn [negb app].
    + apply map_seqZ_items; [rewrite length_map; lia |].
      intros j x Hj. rewrite list_lookup_fmap in Hj.
      destruct (token_list !! j) as [token|] eqn:Et; [| discriminate].
      injection Hj as <-. now apply (Htext j token 1).
    + assert (Hl : header_lang lang = None).
      { destruct (header_lang lang) as [l|] eqn:E; [| reflexivity].
        rewrite (Hlt l eq_refl) in Hshown. discriminate. }
      assert (Ht : header_dtype data_type = None).
      { destruct (header_dtype data_type) as [t|] eqn:E; [| reflexivity].
        rewrite (Htt t eq_refl), orb_true_r in Hshown. discriminate. }
      apply map_seqZ_items; [cbn [length]; rewrite length_map; lia |].
      intros [|j] x Hj.
      * injection Hj as <-. unfold block_text.
        rewrite (blank_block_value (active (Pil.bilevel img) (0 + Z.of_nat 0)));
          [reflexivity |].
        intros r c Hg. rewrite active_bilevel. now apply Hblank.
      * change (map strip_form token_list !! j = Some x) in Hj.
        rewrite list_lookup_fmap in Hj.
        destruct (token_list !! j) as [token|] eqn:Et; [| discriminate].
        injection Hj as <-.
        replace (0 + Z.of_nat (S j)) with (1 + Z.of_nat j) by lia.
        now apply (Htext j token 1).
  - assert (Hl : header_lang lang = None).
    { destruct (header_lang lang) as [l|] eqn:E; [| reflexivity].
      destruct lang as [[|a s]|]; try discriminate. }
    assert (Ht : header_dtype data_type = None).
    { destruct (header_dtype data_type) as [t|] eqn:E; [| reflexivity].
      destruct data_type as [[|a s]|]; try discriminate.
      rewrite orb_true_r in Hhas. discriminate. }
    rewrite Hl, Ht. cbn [andb app].
    destruct token_list as [|token rest] eqn:Etl; [reflexivity |].
    rewrite <- Etl in *.
    assert (Hlen : 0 < Z.of_nat (length token_list)) by (rewrite Etl; simpl; lia).
    rewrite (proj2 (Z.eqb_neq _ 0)) by lia.
    rewrite read_header_pure by (unfold block_ok; simpl; lia).
    rewrite (header_value_token token).
    2:{ intros r c Hg. rewrite active_bilevel.
        apply (Hact 0%nat token r c); [now rewrite Etl | exact Hg]. }
    cbn [Py.truthy orb].
    rewrite read_blocks_ok
      by (apply Forall_forall; intros i Hi%elem_of_seqZ; unfold block_ok; simpl; lia).
    cbn [app]. do 3 f_equal.
    apply map_seqZ_items; [rewrite length_map; lia |].
    intros j x Hj. rewrite list_lookup_fmap in Hj.
    destruct (token_list !! j) as [tok|] eqn:Et; [| discriminate].
    injection Hj as <-. now apply (Htext j tok 0).
Qed.

Lemma dict_get_none {V} (d : list (string * V)) (k : string) :
  ~ In k (map fst d) -> Dict.get String.eqb d k = None.
Proof.
  intros H. destruct (Dict.get String.eqb d k) eqn:E; [| reflexivity].
  destruct H. now apply dict_get_in in E.
Qed.

Lemma header_lang_configured (lang : option string) :
  lang = None \/ (exists l, lang = Some l /\ In l (map fst LANG_CELLS)) ->
  header_lang lang = lang /\ Py.truthy (header_lang lang) = Py.truthy lang.
Proof.
  intros [-> | (l & -> & Hin)]; [now split |]. simpl in Hin.
  repeat (destruct Hin as [<-|Hin]; [now split |]). easy.
Qed.

Lemma header_dtype_configured (data_type : option string) :
  data_type = None \/ (exists t, data_type = Some t /\ In t (map fst DATA_TYPES)) ->
  header_dtype data_type = data_type
  /\ Py.truthy (header_dtype data_type) = Py.truthy data_type.
Proof.
  intros [-> | (t & -> & Hin)]; [now split |]. simpl in Hin.
  repeat (destruct Hin as [<-|Hin]; [now split |]). easy.
Qed.

(** X4.  For any ASCII tokens of at most 4300 digits each, with a
    configured language or none and a configured data type or none, and
    at least one block to draw, [read_strip] gives back the language and
    the data type [create_strip] was given, and the tokens in the form the
    grid keeps of them: "0b" for a token without digits, else the last ten
    digits of its number, without leading zeros, and its marker letter (the
    last of s, n, r in either case, else b).  Without language and data
    type the strip has no header block. *)
Theorem strip_round_trip_headers (token_list : list string)
    (lang data_type : option string) (fs : files) :
  lang = None \/ (exists l, lang = Some l /\ In l (map fst LANG_CELLS)) ->
  data_type = None \/ (exists t, data_type = Some t /\ In t (map fst DATA_TYPES)) ->
  forallb item_ok token_list = true ->
  (token_list = [] -> Py.truthy lang || Py.truthy data_type = true) ->
  exists fs',
    create_strip token_list lang data_type "strip.png" fs
    = Some (fs', Z.of_nat (length token_list)
                 + if Py.truthy lang || Py.truthy data_type then 1 else 0)
    /\ read_strip "strip.png" fs'
       = Some (lang, data_type, Py.join " " (map strip_form token_list)).
Proof.
  intros Hl Ht _ _.
  destruct (strip_round_trip_general token_list lang data_type "strip.png" fs)
    as (fs' & Hc & Hr).
  exists fs'. split; [exact Hc |]. rewrite Hr.
  destruct (header_lang_configured lang Hl) as [El Etl].
  destruct (header_dtype_configured data_type Ht) as [Et Ett].
  rewrite Etl, Ett, El, Et.
  now destruct (Py.truthy lang || Py.truthy data_type).
Qed.

Lemma strip_round_trip_headers_witness :
  exists fs',
    create_strip ["12345678901n"; "x"; "007R"] None (Some "im") "strip.png" ∅
    = Some (fs', 4)
    /\ read_strip "strip.png" fs'
       = Some (None, Some "im", "2345678901n 0b 7r").
Proof.
  apply (strip_round_trip_headers ["12345678901n"; "x"; "007R"] None (Some "im") ∅).
  - now left.
  - right. exists "im". split; [reflexivity | simpl; auto 10].
  - reflexivity.
  - discriminate.
Defined.

(** X5.  A language name that is not configured still makes
    [create_strip] put a header block, which shows nothing; [read_strip]
    then finds no header and reads this block as data: the wire text
    starts with an item "0b" that no token stands for.  The tokens are
    ASCII, of at most 4300 digits each. *)
Theorem unconfigured_language_adds_item (token_list : list string)
    (l : string) (fs : files) :
  l <> EmptyString -> ~ In l (map fst LANG_CELLS) ->
  forallb item_ok token_list = true ->
  exists fs',
    create_strip token_list (Some l) None "strip.png" fs
    = Some (fs', Z.of_nat (length token_list) + 1)
    /\ read_strip "strip.png" fs'
       = Some (None, None, Py.join " " ("0b" :: map strip_form token_list)).
Proof.
  intros Hne Hin _.
  destruct (strip_round_trip_general token_list (Some l) None "strip.png" fs)
    as (fs' & Hc & Hr).
  assert (Htr : Py.truthy (Some l) = true) by (destruct l; [congruence | reflexivity]).
  assert (Hh : header_lang (Some l) = None).
  { unfold header_lang. destruct l as [|a s]; [reflexivity |].
    now rewrite (dict_get_none _ _ Hin). }
  rewrite Htr in Hc, Hr. rewrite Hh in Hr. exists fs'. split; [exact Hc | exact Hr].
Qed.

Lemma unconfigured_language_adds_item_witness :
  exists fs',
    create_strip ["5b"] (Some "de") None "strip.png" ∅ = Some (fs', 2)
    /\ read_strip "strip.png" fs' = Some (None, None, "0b 5b").
Proof.
  apply (unconfigured_language_adds_item ["5b"] "de" ∅).
  - discriminate.
  - simpl. intros H. repeat (destruct H as [H|H]; [discriminate H |]). exact H.
  - reflexivity.
Defined.

Lemma strip_form_canonical (token : string) :
  exists v t, 0 <= v <= 9999999999 /\ strip_form token = wire_text (v, t).
Proof.
  unfold strip_form. destruct (Py.filter Py.isdigit token) as [|d ds].
  - exists 0, Dictionary. split; [lia | reflexivity].
  - pose proof (Z.mod_pos_bound (Py.int (String d ds)) 10000000000 eq_refl).
    destruct (scan_suffix_cases token None) as [-> | [-> | [-> | ->]]];
      [exists (Py.int (String d ds) mod 10000000000), Dictionary
      | exists (Py.int (String d ds) mod 10000000000), Sparse
      | exists (Py.int (String d ds) mod 10000000000), Literal
      | exists (Py.int (String d ds) mod 10000000000), Repeat];
      (split; [lia | reflexivity]).
Qed.

Lemma strip_form_wire (v : Z) (t : tag) :
  0 <= v <= 9999999999 -> strip_form (wire_text (v, t)) = wire_text (v, t).
Proof.
  intros Hv. unfold strip_form, wire_text. cbn [fst snd].
  rewrite filter_app, (filter_all _ _ (str_digits v (proj1 Hv))).
  rewrite scan_suffix_app, (scan_suffix_digits _ _ (str_digits v (proj1 Hv))).
  replace (Py.filter Py.isdigit (tag_letter t)) with EmptyString by now destruct t.
  rewrite append_nil_r. pose proof (str_nonempty v) as Hne.
  destruct (Py.str v) as [|c s] eqn:E; [congruence |].
  rewrite <- E, int_str, Z.mod_small by lia. now destruct t.
Qed.

(** * Further properties of the text codec *)

(** ** Encoding then decoding *)

Lemma split_join (l : list string) :
  Forall (fun x => x <> EmptyString /\ all_chars nospace x = true) l ->
  Py.split (Py.join " " l) = l.
Proof.
  induction 1 as [|x l [Hne Hsp] Hl IH]; [reflexivity |].
  destruct l as [|y l]; [now apply split_one |].
  change (Py.join " " (x :: y :: l)) with (x +:+ " " +:+ Py.join " " (y :: l)).
  unfold Py.split in *. rewrite (split_from_nospace _ x) by exact Hsp.
  rewrite append_nil_l, append_cons, append_nil_l. cbn [Py.split_from].
  change (Py.isspace " ") with true. cbv iota. rewrite IH.
  destruct x; [congruence | reflexivity].
Qed.

Lemma Rle_Forall (P : string -> Prop) raw out :
  Rle raw out -> Forall P raw -> (forall k, P (Py.str k +:+ "r")) ->
  Forall P out.
Proof.
  intros HR Hraw Hrep.
  induction HR as [|x raw out Hx HR IH|x k raw out Hk Hx HR IH].
  - constructor.
  - apply Forall_cons in Hraw as [Hx' Hraw]. constructor; auto.
  - apply Forall_app in Hraw as [Hxs Hraw].
    destruct k as [|k]; [lia |]. apply Forall_cons in Hxs as [Hx' _].
    constructor; [exact Hx' |]. constructor; auto.
Qed.

Lemma decode_replicate dec x w (k : nat) words :
  (forall ws, decode_token dec ws x = ws ++ [w]) ->
  fold_left (decode_token dec) (replicate k x) words = words ++ replicate k w.
Proof.
  intros Hx. revert words. induction k as [|k IH]; intros words; simpl.
  - now rewrite app_nil_r.
  - now rewrite Hx, IH, <- app_assoc.
Qed.

(** Decoding does not see the compression. *)
Lemma Rle_decode dec raw out :
  Rle raw out ->
  Forall (fun x => exists w, forall ws, decode_token dec ws x = ws ++ [w]) raw ->
  forall words,
    fold_left (decode_token dec) out words
    = fold_left (decode_token dec) raw words.
Proof.
  induction 1 as [|x raw out Hx HR IH|x k raw out Hk Hx HR IH]; intros Hraw words.
  - reflexivity.
  - apply Forall_cons in Hraw as [_ Hraw]. cbn [fold_left]. now apply IH.
  - apply Forall_app in Hraw as [Hxs Hraw].
    destruct k as [|k]; [lia |]. apply Forall_cons in Hxs as [[w Hw] _].
    rewrite fold_left_app, (decode_replicate dec x w (S k) words Hw).
    cbn [fold_left]. rewrite Hw, decode_repeat_item by lia. now apply IH.
Qed.

Lemma raw_items_decode enc dec lang t :
  (is_number t = true -> all_chars Py.isdigit t = true) ->
  Forall (fun x => (x <> EmptyString /\ all_chars nospace x = true)
                   /\ exists w, forall ws, decode_token dec ws x = ws ++ [w])
    (raw_items enc lang t).
Proof.
  intros Hnum. unfold raw_items, encode_token.
  assert (Hb : forall id,
            (Py.str id +:+ "b" <> EmptyString
             /\ all_chars nospace (Py.str id +:+ "b") = true)
            /\ exists w, forall ws,
                 decode_token dec ws (Py.str id +:+ "b") = ws ++ [w]).
  { intros id. split.
    - split; [apply append_nonempty; discriminate |].
      now rewrite all_chars_app, str_nospace.
    - eexists. intros ws. rewrite decode_token_spec. apply apply_item_dictionary.
      + unfold digits_of. rewrite filter_app.
        change (Py.filter Py.isdigit "b") with EmptyString. rewrite append_nil_r.
        apply str_has_digits.
      + right. now rewrite last_tag_app. }
  destruct (is_number t) eqn:En; cbn [fst].
  - specialize (Hnum eq_refl).
    assert (Hne : t <> EmptyString) by (destruct t; [discriminate | congruence]).
    constructor; [| constructor]. split.
    + split; [apply append_nonempty; discriminate |].
      rewrite all_chars_app, (all_chars_weaken _ _ _ digit_nospace Hnum). reflexivity.
    + exists (Py.str (Py.int t)). intros ws. now apply decode_literal_item.
  - destruct (enc !! _) as [id|]; cbn [fst]; [constructor; [apply Hb | constructor] |].
    destruct (enc !! t) as [id|]; cbn [fst]; [| constructor].
    constructor; [apply Hb | constructor].
Qed.

Lemma phase1_decode enc dec text lang :
  Forall (fun x => (x <> EmptyString /\ all_chars nospace x = true)
                   /\ exists w, forall ws, decode_token dec ws x = ws ++ [w])
    (fst (phase1 enc lang (tokenize text lang))).
Proof.
  rewrite phase1_flat.
  assert (H : Forall (fun t => is_number t = true -> all_chars Py.isdigit t = true)
                (tokenize text lang)).
  { apply Forall_forall. intros t Hin%list_elem_of_In.
    now apply (tokenize_number text lang). }
  induction H as [|t ts Ht _ IH]; [constructor |]. cbn [flat_map].
  apply Forall_app. split; [now apply raw_items_decode | exact IH].
Qed.

(** X7.  Compression is invisible to the decoder: the wire text of
    [encode], split again, is the wire sequence, and it decodes to the same
    words as the uncompressed sequence of phase 1. *)
Theorem compression_is_transparent (dicts_encode : gmap string (gmap string Z))
    (dec : gmap Z string) (enc : gmap string Z) (text lang : string) :
  dicts_encode !! lang = Some enc ->
  let wire := encode dicts_encode text lang in
  Py.split (Py.join " " wire) = wire
  /\ decode_words dec wire
     = decode_words dec (fst (phase1 enc lang (tokenize text lang))).
Proof.
  intros Henc wire. subst wire. unfold encode. rewrite Henc.
  pose proof (phase1_decode enc dec text lang) as Hraw.
  pose proof (compress_rle (fst (phase1 enc lang (tokenize text lang)))) as HR.
  split.
  - apply split_join. apply (Rle_Forall _ _ _ HR).
    + eapply Forall_impl; [exact Hraw | now intros x [H _]].
    + intros k. split; [apply append_nonempty; discriminate |].
      now rewrite all_chars_app, str_nospace.
  - unfold decode_words. apply (Rle_decode dec _ _ HR).
    eapply Forall_impl; [exact Hraw | now intros x [_ H]].
Qed.

Lemma compression_is_transparent_witness :
  let wire := encode {[ "es" := {[ "hola" := 7 ]} ]} "hola hola 12 12 12" "es" in
  Py.split (Py.join " " wire) = wire
  /\ decode_words {[ 7 := "hola" ]} wire
     = decode_words {[ 7 := "hola" ]}
         (fst (phase1 {[ "hola" := 7 ]} "es" (tokenize "hola hola 12 12 12" "es"))).
Proof.
  apply (compression_is_transparent {[ "es" := {[ "hola" := 7 ]} ]}
           {[ 7 := "hola" ]} {[ "hola" := 7 ]} "hola hola 12 12 12" "es").
  reflexivity.
Defined.

Lemma raw_items_kept enc dec lang t words :
  (forall t id, enc !! t = Some id -> 0 <= id /\ dec !! id = Some t) ->
  (is_number t = true -> all_chars Py.isdigit t = true) ->
  fold_left (decode_token dec) (raw_items enc lang t) words
  = words ++ kept_word enc lang t.
Proof.
  intros Hlex Hnum. unfold raw_items, encode_token, kept_word.
  assert (Hb : forall key id, enc !! key = Some id ->
            decode_token dec words (Py.str id +:+ "b") = words ++ [key]).
  { intros key id Hk. destruct (Hlex key id Hk) as [Hid Hdec].
    rewrite decode_token_spec, apply_item_dictionary.
    - unfold digits_of. rewrite filter_app, (filter_all _ _ (str_digits id Hid)).
      change (Py.filter Py.isdigit "b") with EmptyString.
      now rewrite append_nil_r, int_str, Hdec.
    - unfold digits_of. rewrite filter_app.
      change (Py.filter Py.isdigit "b") with EmptyString. rewrite append_nil_r.
      apply str_has_digits.
    - right. now rewrite last_tag_app. }
  destruct (is_number t) eqn:En; cbn [fst fold_left].
  - specialize (Hnum eq_refl).
    assert (Hne : t <> EmptyString) by (destruct t; [discriminate | congruence]).
    now apply decode_literal_item.
  - destruct (enc !! (if negb (String.eqb lang "zh") then Py.lower t else t))
      as [id|] eqn:E1; cbn [fst fold_left]; [now apply Hb |].
    destruct (enc !! t) as [id|] eqn:E2; cbn [fst fold_left]; [now apply Hb |].
    now rewrite app_nil_r.
Qed.

Lemma decode_flat_kept enc dec lang tokens :
  (forall t id, enc !! t = Some id -> 0 <= id /\ dec !! id = Some t) ->
  Forall (fun t => is_number t = true -> all_chars Py.isdigit t = true) tokens ->
  forall words,
    fold_left (decode_token dec) (flat_map (raw_items enc lang) tokens) words
    = words ++ flat_map (kept_word enc lang) tokens.
Proof.
  intros Hlex H. induction H as [|t ts Ht _ IH]; intros words.
  - simpl. now rewrite app_nil_r.
  - cbn [flat_map].
    rewrite fold_left_app, (raw_items_kept enc dec lang t words Hlex Ht), IH.
    now rewrite <- app_assoc.
Qed.

Lemma decode_encode_words (dicts_encode : gmap string (gmap string Z))
    (enc : gmap string Z) (dec : gmap Z string) (text lang : string) :
  dicts_encode !! lang = Some enc ->
  (forall t id, enc !! t = Some id -> 0 <= id /\ dec !! id = Some t) ->
  decode_words dec (Py.split (Py.join " " (encode dicts_encode text lang)))
  = flat_map (kept_word enc lang) (tokenize text lang).
Proof.
  intros Henc Hlex.
  pose proof (phase1_decode enc dec text lang) as Hraw.
  pose proof (compress_rle (fst (phase1 enc lang (tokenize text lang)))) as HR.
  unfold encode. rewrite Henc. rewrite split_join.
  2:{ apply (Rle_Forall _ _ _ HR).
      - eapply Forall_impl; [exact Hraw | now intros x [H _]].
      - intros k. split; [apply append_nonempty; discriminate |].
        now rewrite all_chars_app, str_nospace. }
  unfold decode_words. rewrite (Rle_decode dec _ _ HR)
    by (eapply Forall_impl; [exact Hraw | now intros x [_ H]]).
  rewrite phase1_flat.
  assert (H : Forall (fun t => is_number t = true -> all_chars Py.isdigit t = true)
                (tokenize text lang)).
  { apply Forall_forall. intros t Hin%list_elem_of_In.
    now apply (tokenize_number text lang). }
  now rewrite (decode_flat_kept enc dec lang _ Hlex H).
Qed.

(** X8.  Round trip of a text.  For an ASCII text whose wire items have
    at most 4300 digits each, with a lexicon whose reverse map gives back
    the token of every ID, none negative, decoding the wire text of
    [encode] gives, in order, one word for each token that is a number or
    is found in the lexicon: the number without leading zeros, or the form
    under which the token was found.  The tokens that are not found are
    missing, and [decode] lays the words out as text. *)
Theorem text_round_trip (dicts_encode : gmap string (gmap string Z))
    (dicts_decode : gmap string (gmap Z string))
    (enc : gmap string Z) (dec : gmap Z string) (text lang : string) :
  dicts_encode !! lang = Some enc -> dicts_decode !! lang = Some dec ->
  (forall t id, enc !! t = Some id -> 0 <= id /\ dec !! id = Some t) ->
  is_ascii text = true ->
  forallb item_ok (encode dicts_encode text lang) = true ->
  let wire_text := Py.join " " (encode dicts_encode text lang) in
  decode_words dec (Py.split wire_text)
  = flat_map (kept_word enc lang) (tokenize text lang)
  /\ decode dicts_decode wire_text lang
     = reconstruct lang (flat_map (kept_word enc lang) (tokenize text lang)).
Proof.
  intros Henc Hdec Hlex _ _ wt. subst wt.
  pose proof (decode_encode_words dicts_encode enc dec text lang Henc Hlex)
    as Hwords.
  split; [exact Hwords |]. unfold decode. now rewrite Hdec, Hwords.
Qed.

Lemma text_round_trip_witness :
  let wire_text :=
    Py.join " " (encode {[ "es" := {[ "hola" := 7 ]} ]} "Hola hola 007 mundo" "es") in
  decode_words {[ 7 := "hola" ]} (Py.split wire_text)
  = flat_map (kept_word {[ "hola" := 7 ]} "es") (tokenize "Hola hola 007 mundo" "es")
  /\ decode {[ "es" := {[ 7 := "hola" ]} ]} wire_text "es"
     = reconstruct "es"
         (flat_map (kept_word {[ "hola" := 7 ]} "es")
            (tokenize "Hola hola 007 mundo" "es")).
Proof.
  apply (text_round_trip {[ "es" := {[ "hola" := 7 ]} ]}
           {[ "es" := {[ 7 := "hola" ]} ]} {[ "hola" := 7 ]} {[ 7 := "hola" ]}
           "Hola hola 007 mundo" "es");
    [reflexivity | reflexivity | | reflexivity | reflexivity].
  intros t id H. apply lookup_singleton_Some in H as [<- <-].
  split; [lia | reflexivity].
Defined.

(** ** The size of the wire sequence *)

Lemma Rle_length raw out : Rle raw out -> (length out <= length raw)%nat.
Proof.
  induction 1 as [|x raw out Hx HR IH|x k raw out Hk Hx HR IH]; simpl.
  - lia.
  - lia.
  - rewrite length_app, length_replicate. lia.
Qed.

Lemma Rle_no_run raw out :
  Rle raw out ->
  (forall (i : nat) a b, raw !! i = Some a -> raw !! S i = Some b -> a <> b) ->
  out = raw.
Proof.
  induction 1 as [|x raw out Hx HR IH|x k raw out Hk Hx HR IH]; intros Hadj.
  - reflexivity.
  - f_equal. apply IH. intros i a b Ha Hb. apply (Hadj (S i) a b); assumption.
  - destruct k as [|[|k]]; [lia | lia |]. now destruct (Hadj 0%nat x x).
Qed.

Lemma raw_items_length enc lang t : (length (raw_items enc lang t) <= 1)%nat.
Proof.
  unfold raw_items, encode_token. destruct (is_number t); [simpl; lia |].
  destruct (enc !! _); [simpl; lia |]. destruct (enc !! t); simpl; lia.
Qed.

(** X9.  The wire sequence is never longer than the token sequence, and
    when no two neighbours of the uncompressed sequence are equal it is
    this sequence, unchanged. *)
Theorem encode_size (dicts_encode : gmap string (gmap string Z))
    (text lang : string) :
  (length (encode dicts_encode text lang) <= length (tokenize text lang))%nat
  /\ forall enc,
       dicts_encode !! lang = Some enc ->
       let raw := fst (phase1 enc lang (tokenize text lang)) in
       (forall (i : nat) a b, raw !! i = Some a -> raw !! S i = Some b -> a <> b) ->
       encode dicts_encode text lang = raw.
Proof.
  unfold encode. split.
  - destruct (dicts_encode !! lang) as [enc|]; [| simpl; lia].
    pose proof (Rle_length _ _ (compress_rle (fst (phase1 enc lang (tokenize text lang))))) as H.
    etransitivity; [exact H |]. clear H. rewrite phase1_flat.
    induction (tokenize text lang) as [|t ts IH]; [simpl; lia |].
    cbn [flat_map]. rewrite length_app. cbn [length].
    pose proof (raw_items_length enc lang t). lia.
  - intros enc -> Hadj. now apply Rle_no_run; [apply compress_rle |].
Qed.

Lemma encode_size_witness :
  encode {[ "es" := {[ "hola" := 7; "mundo" := 8 ]} ]} "hola mundo hola" "es"
  = fst (phase1 {[ "hola" := 7; "mundo" := 8 ]} "es" (tokenize "hola mundo hola" "es")).
Proof.
  apply (proj2 (encode_size {[ "es" := {[ "hola" := 7; "mundo" := 8 ]} ]}
                  "hola mundo hola" "es") {[ "hola" := 7; "mundo" := 8 ]});
    [reflexivity |].
  intros [|[|[|i]]] a b Ha Hb; vm_compute in Ha, Hb; congruence.
Defined.

(** ** The tokenizer *)

Lemma classify_letter c : classify c = Some Letter -> is_letter c = true.
Proof.
  unfold classify. destruct (is_letter c); [reflexivity |].
  destruct (Py.in_range 48 57 c); [discriminate |].
  destruct (is_punct c); discriminate.
Qed.

Lemma classify_digit c : classify c = Some Digit -> Py.isdigit c = true.
Proof.
  unfold classify, Py.isdigit. destruct (is_letter c); [discriminate |].
  destruct (Py.in_range 48 57 c); [reflexivity |].
  destruct (is_punct c); discriminate.
Qed.

Lemma classify_punct c : classify c = Some Punct -> is_punct c = true.
Proof.
  unfold classify. destruct (is_letter c); [discriminate |].
  destruct (Py.in_range 48 57 c); [discriminate |].
  destruct (is_punct c); [reflexivity | discriminate].
Qed.

Lemma findall_shape (run : option char_class) (cur s : string) :
  cur = EmptyString
  \/ (run = Some Letter /\ all_chars is_letter cur = true)
  \/ (run = Some Digit /\ all_chars Py.isdigit cur = true) ->
  Forall (fun t => t <> EmptyString
                   /\ (all_chars is_letter t = true
                       \/ all_chars Py.isdigit t = true
                       \/ exists c, t = Py.chr c /\ is_punct c = true))
    (findall run cur s).
Proof.
  revert run cur. induction s as [|c s IH]; intros run cur Hinv.
  - destruct cur as [|a cur]; [constructor |]. constructor; [| constructor].
    split; [discriminate |].
    destruct Hinv as [H | [[_ H] | [_ H]]]; [discriminate | now left | right; now left].
  - assert (Hflush : Forall (fun t => t <> EmptyString
                   /\ (all_chars is_letter t = true
                       \/ all_chars Py.isdigit t = true
                       \/ exists c, t = Py.chr c /\ is_punct c = true))
              (Py.flush cur)).
    { destruct cur as [|a cur]; [constructor |]. constructor; [| constructor].
      split; [discriminate |].
      destruct Hinv as [H | [[_ H] | [_ H]]];
        [discriminate | now left | right; now left]. }
    cbn [findall]. destruct (classify c) as [k|] eqn:Ec.
    + assert (Hrun : k <> Punct ->
                Forall (fun t => t <> EmptyString
                   /\ (all_chars is_letter t = true
                       \/ all_chars Py.isdigit t = true
                       \/ exists c, t = Py.chr c /\ is_punct c = true))
                  (if from_option (char_class_eqb k) false run
                   then findall run (cur +:+ Py.chr c) s
                   else Py.flush cur ++ findall (Some k) (Py.chr c) s)).
      { intros Hk.
        assert (Hc : (k = Letter /\ is_letter c = true)
                     \/ (k = Digit /\ Py.isdigit c = true)).
        { destruct k; [left | right | congruence]; split; auto using
            classify_letter, classify_digit. }
        destruct (from_option (char_class_eqb k) false run) eqn:Er.
        - apply IH. right.
          assert (run = Some k) as ->.
          { destruct run as [k'|]; [| discriminate]. simpl in Er.
            now destruct k, k'. }
          rewrite !all_chars_app. cbn [Py.chr all_chars].
          destruct Hc as [[-> Hc] | [-> Hc]]; rewrite Hc, !andb_true_r.
          + left. split; [reflexivity |].
            destruct Hinv as [-> | [[_ H] | [[=] _]]]; [reflexivity | exact H].
          + right. split; [reflexivity |].
            destruct Hinv as [-> | [[[=] _] | [_ H]]]; [reflexivity | exact H].
        - apply Forall_app. split; [exact Hflush |]. apply IH. right.
          cbn [Py.chr all_chars].
          destruct Hc as [[-> Hc] | [-> Hc]]; rewrite Hc; auto. }
      destruct k; [now apply Hrun | now apply Hrun |].
      apply Forall_app. split; [exact Hflush |].
      constructor; [| apply IH; now left].
      split; [discriminate |]. right. right. exists c.
      split; [reflexivity | now apply classify_punct].
    + apply Forall_app. split; [exact Hflush | apply IH; now left].
Qed.

Lemma chars_remove_space (s : string) :
  Forall (fun t => exists c, t = Py.chr c /\ c <> " "%char) (Py.chars (Py.remove " " s)).
Proof.
  unfold Py.remove. induction s as [|c s IH]; [constructor |]. cbn [Py.filter].
  destruct (Ascii.eqb_spec c " ") as [->|Hne]; cbn [negb]; [exact IH |].
  cbn [Py.chars]. constructor; [now exists c | exact IH].
Qed.

(** X10.  The tokens of an ASCII text.  For Chinese every token is one
    character that is not a space.  For the other languages every token
    is a non-empty run of letters and apostrophes, a non-empty run of
    digits, or one punctuation mark. *)
Theorem tokenize_shape (text lang t : string) :
  is_ascii text = true ->
  In t (tokenize text lang) ->
  if String.eqb lang "zh"
  then exists c, t = Py.chr c /\ c <> " "%char
  else t <> EmptyString
       /\ (all_chars is_letter t = true
           \/ all_chars Py.isdigit t = true
           \/ exists c, t = Py.chr c /\ is_punct c = true).
Proof.
  unfold tokenize. intros _ Hin%list_elem_of_In. destruct (String.eqb lang "zh").
  - pose proof (chars_remove_space text) as H. rewrite Forall_forall in H.
    now apply H.
  - assert (H : forall s, Forall (fun t => t <> EmptyString
                   /\ (all_chars is_letter t = true
                       \/ all_chars Py.isdigit t = true
                       \/ exists c, t = Py.chr c /\ is_punct c = true))
                  (findall None EmptyString s))
      by (intros s; apply findall_shape; now left).
    destruct (String.eqb lang "ar");
      [specialize (H text) | specialize (H (Py.lower text))];
      rewrite Forall_forall in H; now apply H.
Qed.

Lemma tokenize_shape_witness :
  "don't" <> EmptyString
  /\ (all_chars is_letter "don't" = true
      \/ all_chars Py.isdigit "don't" = true
      \/ exists c, "don't" = Py.chr c /\ is_punct c = true).
Proof.
  apply (tokenize_shape "I DON'T know, 42!" "eng" "don't"); [reflexivity |].
  vm_compute. auto.
Defined.

Lemma lower_upper_char (c : ascii) :
  Py.lower_char (Py.upper_char c) = Py.lower_char c.
Proof. destruct c as [[] [] [] [] [] [] [] []]; reflexivity. Qed.

Lemma lower_lower_char (c : ascii) :
  Py.lower_char (Py.lower_char c) = Py.lower_char c.
Proof. destruct c as [[] [] [] [] [] [] [] []]; reflexivity. Qed.

Lemma lower_upper (s : string) : Py.lower (Py.upper s) = Py.lower s.
Proof.
  induction s as [|c s IH]; [reflexivity |].
  cbn [Py.upper Py.lower]. now rewrite lower_upper_char, IH.
Qed.

Lemma lower_lower (s : string) : Py.lower (Py.lower s) = Py.lower s.
Proof.
  induction s as [|c s IH]; [reflexivity |].
  cbn [Py.lower]. now rewrite lower_lower_char, IH.
Qed.

Lemma findall_chars_of (P : ascii -> bool) (run : option char_class)
    (cur s : string) :
  all_chars P cur = true -> all_chars P s = true ->
  Forall (fun t => all_chars P t = true) (findall run cur s).
Proof.
  revert run cur. induction s as [|c s IH]; intros run cur Hcur Hs.
  - now apply flush_tokens.
  - cbn [all_chars] in Hs. apply andb_prop in Hs as [Hc Hs].
    assert (Hnext : all_chars P (cur +:+ Py.chr c) = true).
    { rewrite all_chars_app, Hcur. simpl. now rewrite Hc. }
    assert (Hone : all_chars P (Py.chr c) = true) by (simpl; now rewrite Hc).
    cbn [findall].
    destruct (classify c) as [[| |]|];
      try destruct (from_option _ false run);
      repeat first [ apply Forall_app; split | apply flush_tokens
                   | apply Forall_cons; split | apply IH ];
      auto.
Qed.

Lemma lower_fixed (t : string) :
  all_chars (fun c => Ascii.eqb (Py.lower_char c) c) t = true -> Py.lower t = t.
Proof.
  induction t as [|c t IH]; [reflexivity |]. cbn [all_chars Py.lower].
  intros [Hc Ht]%andb_prop. apply Ascii.eqb_eq in Hc. now rewrite Hc, IH.
Qed.

Lemma lower_is_lower (s : string) :
  all_chars (fun c => Ascii.eqb (Py.lower_char c) c) (Py.lower s) = true.
Proof.
  induction s as [|c s IH]; [reflexivity |]. cbn [Py.lower all_chars].
  now rewrite lower_lower_char, Ascii.eqb_refl, IH.
Qed.

(** X11.  Outside Chinese and Arabic the tokenizer, and with it the
    encoder, ignores the case of an ASCII text, and every token is in
    lower case. *)
Theorem tokenize_ignores_case (text lang : string) :
  is_ascii text = true ->
  String.eqb lang "zh" = false -> String.eqb lang "ar" = false ->
  tokenize (Py.upper text) lang = tokenize text lang
  /\ tokenize (Py.lower text) lang = tokenize text lang
  /\ Forall (fun t => Py.lower t = t) (tokenize text lang)
  /\ forall dicts_encode,
       encode dicts_encode (Py.upper text) lang = encode dicts_encode text lang.
Proof.
  intros _ Hzh Har.
  assert (Hup : tokenize (Py.upper text) lang = tokenize text lang).
  { unfold tokenize. now rewrite Hzh, Har, lower_upper. }
  repeat split.
  - exact Hup.
  - unfold tokenize. now rewrite Hzh, Har, lower_lower.
  - unfold tokenize. rewrite Hzh, Har.
    eapply Forall_impl;
      [apply (findall_chars_of (fun c => Ascii.eqb (Py.lower_char c) c));
       [reflexivity | apply lower_is_lower] |].
    intros t. apply lower_fixed.
  - intros dicts_encode. unfold encode. now rewrite Hup.
Qed.

Lemma tokenize_ignores_case_witness :
  tokenize (Py.upper "Hello, World") "eng" = tokenize "Hello, World" "eng"
  /\ tokenize (Py.lower "Hello, World") "eng" = tokenize "Hello, World" "eng"
  /\ Forall (fun t => Py.lower t = t) (tokenize "Hello, World" "eng")
  /\ forall dicts_encode,
       encode dicts_encode (Py.upper "Hello, World") "eng"
       = encode dicts_encode "Hello, World" "eng".
Proof. apply (tokenize_ignores_case "Hello, World" "eng"); reflexivity. Defined.

Lemma join_empty_cons (x : string) (l : list string) :
  Py.join EmptyString (x :: l) = x +:+ Py.join EmptyString l.
Proof.
  destruct l as [|y l]; cbn [Py.join]; [now rewrite append_nil_r |].
  now rewrite append_nil_l.
Qed.

Lemma join_flush (cur : string) (l : list string) :
  Py.join EmptyString (Py.flush cur ++ l) = cur +:+ Py.join EmptyString l.
Proof.
  destruct cur as [|c cur]; [now rewrite append_nil_l |].
  cbn [Py.flush app]. apply join_empty_cons.
Qed.

Lemma join_findall (run : option char_class) (cur s : string) :
  Py.join EmptyString (findall run cur s) = cur +:+ Py.filter token_char s.
Proof.
  revert run cur. induction s as [|c s IH]; intros run cur.
  - cbn [findall Py.filter]. rewrite <- (app_nil_r (Py.flush cur)).
    now rewrite join_flush.
  - cbn [findall Py.filter]. unfold token_char at 1.
    destruct (classify c) as [[| |]|];
      try destruct (from_option _ false run);
      rewrite ?join_flush, ?join_empty_cons, ?IH, ?append_nil_l,
        ?append_assoc; reflexivity.
Qed.

Lemma join_chars (s : string) : Py.join EmptyString (Py.chars s) = s.
Proof.
  induction s as [|c s IH]; [reflexivity |].
  cbn [Py.chars]. now rewrite join_empty_cons, IH.
Qed.

(** X12.  The tokens of an ASCII text, put side by side, are the text
    without the characters that belong to no token: the text without its
    spaces for Chinese; for the other languages the text (in lower case
    except for Arabic) without the characters that are no letter,
    apostrophe, digit or punctuation mark.  No character is added,
    reordered or changed. *)
Theorem tokenize_keeps_characters (text lang : string) :
  is_ascii text = true ->
  Py.join EmptyString (tokenize text lang)
  = if String.eqb lang "zh" then Py.remove " " text
    else Py.filter token_char
           (if String.eqb lang "ar" then text else Py.lower text).
Proof.
  intros _.
  unfold tokenize. destruct (String.eqb lang "zh"); [apply join_chars |].
  destruct (String.eqb lang "ar"); now rewrite join_findall, append_nil_l.
Qed.

Lemma tokenize_keeps_characters_witness :
  Py.join EmptyString (tokenize "Don't stop: 42 km/h!" "eng")
  = Py.filter token_char (Py.lower "Don't stop: 42 km/h!").
Proof. apply (tokenize_keeps_characters "Don't stop: 42 km/h!" "eng"). reflexivity. Defined.

Lemma findall_separator (run : option char_class) (cur s : string) (c : ascii)
    (rest : string) :
  classify c = None ->
  findall run cur (s +:+ String c rest)
  = findall run cur s ++ findall None EmptyString rest.
Proof.
  intros Hc. revert run cur. induction s as [|c' s IH]; intros run cur.
  - rewrite append_nil_l. cbn [findall]. now rewrite Hc.
  - rewrite append_cons. cbn [findall].
    destruct (classify c') as [[| |]|]; rewrite ?IH;
      try destruct (from_option _ false run); rewrite ?IH;
      now rewrite <- ?app_assoc.
Qed.

Lemma classify_lower_none (c : ascii) :
  classify c = None -> classify (Py.lower_char c) = None.
Proof.
  destruct c as [[] [] [] [] [] [] [] []]; vm_compute; congruence.
Qed.

(** X13.  In an ASCII text a character that belongs to no token
    separates tokens and leaves no trace, whatever it is: the tokens of a
    text around such a character are the tokens of the part before it
    followed by those of the part after it.  Chinese is the exception:
    there only the space is dropped, and any other character is a
    token. *)
Theorem tokenize_separator (a b lang : string) (c : ascii) :
  is_ascii (a +:+ String c b) = true ->
  token_char c = false ->
  tokenize (a +:+ String c b) lang
  = tokenize a lang
    ++ (if String.eqb lang "zh" && negb (Ascii.eqb c " ") then [Py.chr c] else [])
    ++ tokenize b lang.
Proof.
  intros _ Hc. unfold token_char in Hc.
  destruct (classify c) as [k|] eqn:Ec; [discriminate |].
  unfold tokenize. destruct (String.eqb lang "zh"); cbn [andb].
  - unfold Py.remove. rewrite filter_app, chars_app. cbn [Py.filter].
    now destruct (Ascii.eqb c " ").
  - cbn [app]. destruct (String.eqb lang "ar").
    + now apply findall_separator.
    + rewrite lower_app. cbn [Py.lower].
      apply findall_separator. now apply classify_lower_none.
Qed.

Lemma tokenize_separator_witness :
  tokenize ("uno" +:+ String "_" "dos") "es"
  = tokenize "uno" "es"
    ++ (if String.eqb "es" "zh" && negb (Ascii.eqb "_" " ") then [Py.chr "_"] else [])
    ++ tokenize "dos" "es".
Proof. apply (tokenize_separator "uno" "dos" "es" "_"); reflexivity. Defined.

(** ** The decoder *)

Lemma decode_token_grows dec words token :
  exists more, decode_token dec words token = words ++ more.
Proof.
  rewrite decode_token_spec. unfold apply_item.
  destruct (digits_of token) as [|c ds]; [exists []; now rewrite app_nil_r |].
  destruct (suffix_is (last_tag token) "n"); [eauto |].
  destruct (suffix_is (last_tag token) "r").
  - destruct (last words) as [w|]; [| exists []; now rewrite app_nil_r].
    rewrite append_times_replicate. eauto.
  - destruct (suffix_is (last_tag token) "s");
      [exists []; now rewrite app_nil_r |].
    destruct (dec !! _); eauto.
Qed.

(** X14.  The decoder only ever appends words: the words decoded from a
    wire sequence begin with the words decoded from any of its prefixes. *)
Theorem decode_words_grow (dec : gmap Z string) (pre post : list string) :
  exists more, decode_words dec (pre ++ post) = decode_words dec pre ++ more.
Proof.
  rewrite decode_words_app. generalize (decode_words dec pre) as words.
  induction post as [|item post IH]; intros words.
  - exists []. now rewrite app_nil_r.
  - cbn [fold_left]. destruct (decode_token_grows dec words item) as [m ->].
    destruct (IH (words ++ m)) as [more ->].
    exists (m ++ more). now rewrite app_assoc.
Qed.

Lemma decode_token_skip dec words item :
  digits_of item = EmptyString \/ last_tag item = Some "s" ->
  decode_token dec words item = words.
Proof.
  rewrite decode_token_spec. unfold apply_item.
  intros [-> | ->]; [reflexivity |].
  now destruct (digits_of item).
Qed.

(** X15.  Padding is transparent: an ASCII wire item without a digit,
    or whose tag is s and whose digits are at most 4300, can be put in or
    taken out anywhere in a wire sequence of ASCII items of at most 4300
    digits, also between an item and its Repeat item, without any effect
    on the decoded words. *)
Theorem decode_skips_padding (dec : gmap Z string) (pre post : list string)
    (item : string) :
  forallb item_ok (pre ++ post) = true ->
  is_ascii item = true ->
  digits_of item = EmptyString
  \/ (last_tag item = Some "s" /\ int_ok (digits_of item) = true) ->
  decode_words dec (pre ++ item :: post) = decode_words dec (pre ++ post).
Proof.
  intros _ _ H. rewrite !decode_words_app. cbn [fold_left].
  rewrite decode_token_skip; [reflexivity |].
  destruct H as [H | [H _]]; auto.
Qed.

Lemma decode_skips_padding_witness :
  decode_words {[ 7 := "hola" ]} (["7b"] ++ "0s" :: ["3r"])
  = decode_words {[ 7 := "hola" ]} (["7b"] ++ ["3r"]).
Proof.
  apply (decode_skips_padding {[ 7 := "hola" ]} ["7b"] ["3r"] "0s");
    [reflexivity | reflexivity | right; split; reflexivity].
Defined.

Lemma split_from_chars_of (P : ascii -> bool) (cur s : string) :
  all_chars P cur = true -> all_chars P s = true ->
  Forall (fun t => all_chars P t = true) (Py.split_from cur s).
Proof.
  revert cur. induction s as [|c s IH]; intros cur Hcur Hs.
  - now apply flush_tokens.
  - cbn [all_chars] in Hs. apply andb_prop in Hs as [Hc Hs].
    cbn [Py.split_from]. destruct (Py.isspace c).
    + apply Forall_app. split; [now apply flush_tokens | now apply IH].
    + apply IH; [| exact Hs]. rewrite all_chars_app, Hcur. simpl. now rewrite Hc.
Qed.

Lemma no_digit_filter (t : string) :
  all_chars (fun c => negb (Py.isdigit c)) t = true -> digits_of t = EmptyString.
Proof.
  unfold digits_of. induction t as [|c t IH]; [reflexivity |].
  cbn [all_chars Py.filter]. intros [Hc Ht]%andb_prop.
  apply negb_true_iff in Hc. rewrite Hc. now apply IH.
Qed.

(** X16.  Without a digit nothing is decoded: an ASCII wire text in
    which no digit occurs decodes to the empty text, in every language. *)
Theorem decode_without_digits (dicts_decode : gmap string (gmap Z string))
    (numcode_str lang : string) :
  is_ascii numcode_str = true ->
  all_chars (fun c => negb (Py.isdigit c)) numcode_str = true ->
  decode dicts_decode numcode_str lang = EmptyString.
Proof.
  intros _ H. unfold decode. destruct (dicts_decode !! lang) as [dec|]; [| reflexivity].
  assert (Hw : decode_words dec (Py.split numcode_str) = []).
  { unfold Py.split.
    pose proof (split_from_chars_of _ EmptyString numcode_str eq_refl H) as HF.
    unfold decode_words. induction HF as [|t ts Ht _ IH]; [reflexivity |].
    cbn [fold_left]. rewrite decode_token_skip; [exact IH |].
    left. now apply no_digit_filter. }
  rewrite Hw. unfold reconstruct. now destruct (String.eqb lang "zh").
Qed.

Lemma decode_without_digits_witness :
  decode {[ "es" := {[ 7 := "hola" ]} ]} "b n xr  s" "es" = EmptyString.
Proof.
  apply (decode_without_digits {[ "es" := {[ 7 := "hola" ]} ]} "b n xr  s" "es");
    reflexivity.
Defined.

Lemma capitalize_pending_head (m : ascii) (ws text : string) :
  exists rest, capitalize_sentences (Some (m, ws)) text = String m rest.
Proof.
  revert ws. induction text as [|c text IH]; intros ws.
  - cbn [capitalize_sentences]. eauto.
  - cbn [capitalize_sentences]. destruct (Py.isspace c); [apply IH |].
    destruct ws as [|w ws]; [eauto |].
    destruct (is_small_letter c); eauto.
Qed.

Lemma capitalize_head (c : ascii) (text : string) :
  exists rest, capitalize_sentences None (String c text) = String c rest.
Proof.
  cbn [capitalize_sentences]. destruct (is_sentence_end c); [| eauto].
  apply capitalize_pending_head.
Qed.

Lemma upper_not_small (c : ascii) : is_small_letter (Py.upper_char c) = false.
Proof. destruct c as [[] [] [] [] [] [] [] []]; reflexivity. Qed.

(** X17.  Outside Chinese a decoded text never begins with a small
    letter: its first character is the upper case of the first character
    of the first word. *)
Theorem decode_first_character (dicts_decode : gmap string (gmap Z string))
    (numcode_str lang : string) (c : ascii) (rest : string) :
  String.eqb lang "zh" = false ->
  decode dicts_decode numcode_str lang = String c rest ->
  is_small_letter c = false.
Proof.
  intros Hzh. unfold decode.
  destruct (dicts_decode !! lang) as [dec|]; [| discriminate].
  unfold reconstruct. rewrite Hzh.
  destruct (decode_words dec (Py.split numcode_str)) as [|w ws]; [discriminate |].
  destruct (Py.join EmptyString (build_parts 0 (w :: ws) [])) as [|c0 text];
    [discriminate |].
  cbn [Py.upper Py.chr]. rewrite append_cons, append_nil_l.
  destruct (capitalize_head (Py.upper_char c0) text) as [r ->].
  intros [= <- _]. apply upper_not_small.
Qed.

Lemma decode_first_character_witness :
  is_small_letter "H" = false.
Proof.
  apply (decode_first_character {[ "es" := {[ 7 := "hola" ]} ]} "7b 7b" "es"
           "H" "ola hola"); reflexivity.
Defined.

(** ** Language detection *)

Lemma has_char_none (p : ascii -> bool) (text : string) :
  (forall c, p c = false) -> has_char p text = false.
Proof.
  intros Hp. induction text as [|c text IH]; [reflexivity |].
  cbn [has_char]. now rewrite Hp, IH.
Qed.

Lemma has_char_ascii (lo hi : Z) (text : string) :
  127 < lo -> is_ascii text = true ->
  has_char (Py.in_range lo hi) text = false.
Proof.
  intros Hlo. unfold is_ascii. induction text as [|c text IH]; [reflexivity |].
  cbn [all_chars has_char]. intros [Hc Ht]%andb_prop. rewrite (IH Ht), orb_false_r.
  apply Z.ltb_lt in Hc. unfold Py.in_range.
  apply andb_false_iff. left. apply Z.leb_gt. lia.
Qed.

Lemma is_ascii_upper (text : string) :
  is_ascii text = true -> is_ascii (Py.upper text) = true.
Proof.
  unfold is_ascii. induction text as [|c text IH]; [reflexivity |].
  cbn [Py.upper all_chars]. intros [Hc Ht]%andb_prop. rewrite (IH Ht), andb_true_r.
  revert Hc. destruct c as [[] [] [] [] [] [] [] []]; vm_compute; congruence.
Qed.

Lemma detect_language_cases (text : string) :
  In (detect_language text) ["zh"; "ar"; "eng"; "fr"; "es"].
Proof.
  unfold detect_language.
  repeat match goal with |- context [if ?b then _ else _] => destruct b end;
    simpl; auto 10.
Qed.

(** X18.  On an ASCII text the detected language is eng, fr or es, each
    of them a language with a header cell and a dictionary file, never
    Portuguese, Chinese or Arabic; and the detection ignores case. *)
Theorem detect_language_configured (text : string) :
  is_ascii text = true ->
  In (detect_language text) ["eng"; "fr"; "es"]
  /\ In (detect_language text) (map fst LANG_CELLS)
  /\ In (detect_language text) (map fst LANG_FILES)
  /\ detect_language (Py.upper text) = detect_language text.
Proof.
  intros Hascii.
  assert (H : In (detect_language text) ["eng"; "fr"; "es"]).
  { unfold detect_language. rewrite !has_char_ascii by (lia || assumption).
    repeat match goal with |- context [if ?b then _ else _] => destruct b end;
      simpl; auto 10. }
  split; [exact H |]. repeat split.
  - simpl in H |- *. intuition.
  - simpl in H |- *. intuition.
  - unfold detect_language. rewrite lower_upper.
    now rewrite !has_char_ascii by (lia || assumption || now apply is_ascii_upper).
Qed.

Lemma detect_language_configured_witness :
  In (detect_language "Ou est LE chat?") ["eng"; "fr"; "es"]
  /\ In (detect_language "Ou est LE chat?") (map fst LANG_CELLS)
  /\ In (detect_language "Ou est LE chat?") (map fst LANG_FILES)
  /\ detect_language (Py.upper "Ou est LE chat?") = detect_language "Ou est LE chat?".
Proof. apply (detect_language_configured "Ou est LE chat?"). reflexivity. Defined.

Lemma word_runs_separator (cur s : string) (c : ascii) (rest : string) :
  is_word_char c = false ->
  word_runs cur (s +:+ String c rest)
  = word_runs cur s ++ word_runs EmptyString rest.
Proof.
  intros Hc. revert cur. induction s as [|c' s IH]; intros cur.
  - rewrite append_nil_l. cbn [word_runs]. now rewrite Hc.
  - rewrite append_cons. cbn [word_runs].
    destruct (is_word_char c'); rewrite IH; [reflexivity |].
    now rewrite app_assoc.
Qed.

Lemma word_char_lower (c : ascii) :
  is_word_char (Py.lower_char c) = is_word_char c.
Proof. destruct c as [[] [] [] [] [] [] [] []]; reflexivity. Qed.

Lemma search_word_between (words : list string) (a b w : string) (c1 c2 : ascii) :
  is_word_char c1 = false -> is_word_char c2 = false ->
  word_runs EmptyString w = [w] -> In w words ->
  search_word words (a +:+ String c1 (w +:+ String c2 b)) = true.
Proof.
  intros H1 H2 Hw Hin. unfold search_word.
  rewrite word_runs_separator by exact H1.
  rewrite word_runs_separator by exact H2.
  rewrite Hw, !existsb_app. cbn [existsb].
  assert (existsb (String.eqb w) words = true) as ->.
  { apply existsb_exists. exists w. split; [exact Hin | apply String.eqb_refl]. }
  now rewrite orb_true_r.
Qed.

(** X19.  English wins over French and Spanish: an ASCII text in which
    one of the ten English marker words stands, in any case, between two
    characters that are no word characters is detected as English,
    whatever else the text holds. *)
Theorem english_marker_wins (a b w : string) (c1 c2 : ascii) :
  is_ascii (a +:+ String c1 (w +:+ String c2 b)) = true ->
  In (Py.lower w) ENGLISH_WORDS ->
  is_word_char c1 = false -> is_word_char c2 = false ->
  detect_language (a +:+ String c1 (w +:+ String c2 b)) = "eng".
Proof.
  intros Hascii Hin H1 H2.
  assert (Hs : search_word ENGLISH_WORDS
                 (Py.lower (a +:+ String c1 (w +:+ String c2 b))) = true).
  { rewrite lower_app. cbn [Py.lower]. rewrite lower_app. cbn [Py.lower].
    apply search_word_between; rewrite ?word_char_lower; try assumption.
    revert Hin. generalize (Py.lower w) as lw. intros lw Hin.
    simpl in Hin.
    repeat (destruct Hin as [<- | Hin]; [reflexivity |]). destruct Hin. }
  unfold detect_language. rewrite Hs.
  now rewrite !has_char_ascii by (lia || assumption).
Qed.

Lemma english_marker_wins_witness :
  detect_language ("le chat" +:+ String " " ("IS" +:+ String "," " mais oui"))
  = "eng".
Proof.
  apply (english_marker_wins "le chat" " mais oui" "IS" " " ",");
    [reflexivity | vm_compute; auto | reflexivity | reflexivity].
Defined.

(** ** The interactive loop *)

Lemma encode_items_nospace (dicts_encode : gmap string (gmap string Z))
    (text lang : string) :
  Forall (fun x => x <> EmptyString /\ all_chars nospace x = true)
    (encode dicts_encode text lang).
Proof.
  unfold encode. destruct (dicts_encode !! lang) as [enc|]; [| constructor].
  pose proof (phase1_decode enc ∅ text lang) as Hraw.
  pose proof (compress_rle (fst (phase1 enc lang (tokenize text lang)))) as HR.
  apply (Rle_Forall _ _ _ HR).
  - eapply Forall_impl; [exact Hraw | now intros x [H _]].
  - intros k. split; [apply append_nonempty; discriminate |].
    now rewrite all_chars_app, str_nospace.
Qed.

Lemma strip_form_nospace (token : string) :
  strip_form token <> EmptyString /\ all_chars nospace (strip_form token) = true.
Proof.
  destruct (strip_form_canonical token) as (v & t & Hv & ->).
  unfold wire_text. cbn [fst snd]. split.
  - apply append_nonempty. destruct t; discriminate.
  - rewrite all_chars_app, str_nospace. now destruct t.
Qed.

Lemma map_fixed {A} (f : A -> A) (l : list A) :
  map f l = l <-> Forall (fun x => f x = x) l.
Proof.
  induction l as [|x l IH]; cbn [map].
  - split; [constructor | reflexivity].
  - split.
    + intros [= Hx Hl]. constructor; [exact Hx | now apply IH].
    + intros H. apply Forall_cons in H as [Hx Hl]. rewrite Hx. f_equal.
      now apply IH.
Qed.

Lemma encode_empty_text (dicts_encode : gmap string (gmap string Z))
    (lang : string) :
  encode dicts_encode EmptyString lang = [].
Proof.
  unfold encode, tokenize. destruct (dicts_encode !! lang); [| reflexivity].
  destruct (String.eqb lang "zh"); [reflexivity |].
  now destruct (String.eqb lang "ar").
Qed.

Lemma detect_language_header (text : string) :
  header_lang (Some (detect_language text)) = Some (detect_language text)
  /\ exists c l, detect_language text = String c l.
Proof.
  pose proof (detect_language_cases text) as H. simpl in H.
  destruct H as [<- | [<- | [<- | [<- | [<- | []]]]]]; split; eauto.
Qed.

(** X20.  A turn of the interactive loop on an ASCII line that is no
    command and of which something can be encoded, the wire items of at
    most 4300 digits each and the words of the lexicon ASCII, never
    fails: it writes the strip with one block for each wire item and one
    for the header, the strip gives the detected language back, the text
    shown is decoded from the content read from the strip, and the
    verification succeeds exactly when this content is the wire text,
    which is when every wire item is the canonical text of a wire token
    of value at most 9,999,999,999. *)
Theorem main_turn_verification (dicts_encode : gmap string (gmap string Z))
    (dicts_decode : gmap string (gmap Z string)) (line : string) (fs : files) :
  let entrada := PyStr.strip line in
  let lang := detect_language entrada in
  let ids := encode dicts_encode entrada lang in
  is_ascii line = true ->
  forallb item_ok ids = true ->
  (forall dec i w,
     dicts_decode !! lang = Some dec -> dec !! i = Some w -> is_ascii w = true) ->
  is_one_of ["salir"; "quit"; "exit"] (Py.lower entrada) = false ->
  is_one_of ["leer"; "read"] (Py.lower entrada) = false ->
  ids <> [] ->
  exists fs' content ok,
    main_turn dicts_encode dicts_decode line fs
    = Some (fs', Encoded lang ids (Py.join " " ids)
                   (Z.of_nat (length ids) + 1)
                   (decode dicts_decode content lang) ok)
    /\ read_strip "strip.png" fs' = Some (Some lang, None, content)
    /\ (ok = true <-> content = Py.join " " ids)
    /\ (ok = true
        <-> Forall (fun i => exists v t, 0 <= v <= 9999999999 /\ i = wire_text (v, t))
              ids).
Proof.
  intros entrada lang ids _ _ _ Hquit Hread Hids.
  destruct (strip_round_trip_general ids (Some lang) None "strip.png" fs)
    as (fs' & Hcreate & Hreadback).
  destruct (detect_language_header entrada) as [Hhead (c & l & Hlang)].
  fold lang in Hhead, Hlang.
  assert (Htruthy : Py.truthy (Some lang) = true) by now rewrite Hlang.
  rewrite Hhead, Htruthy in Hreadback. rewrite Htruthy in Hcreate.
  cbn [orb andb negb app header_dtype] in Hcreate, Hreadback.
  exists fs', (Py.join " " (map strip_form ids)),
    (String.eqb (Py.join " " ids) (Py.join " " (map strip_form ids))).
  split; [| split; [exact Hreadback | split]].
  - unfold main_turn. fold entrada.
    destruct entrada as [|e0 e] eqn:Ee.
    { exfalso. apply Hids. apply encode_empty_text. }
    rewrite Hquit, Hread. fold lang ids.
    destruct ids as [|i0 is0] eqn:Ei; [congruence |].
    rewrite Hcreate.
    rewrite (proj2 (Z.eqb_neq _ _)) by lia.
    rewrite Hreadback. now rewrite Hlang.
  - rewrite String.eqb_eq. split; intros E; now symmetry.
  - rewrite String.eqb_eq. split.
    + intros E. apply (f_equal Py.split) in E.
      rewrite !split_join in E.
      * symmetry in E. apply map_fixed in E.
        eapply Forall_impl; [exact E |]. intros i Hi. rewrite <- Hi.
        apply strip_form_canonical.
      * apply Forall_forall. intros x Hx.
        apply list_elem_of_In, in_map_iff in Hx as (t & <- & _).
        apply strip_form_nospace.
      * apply encode_items_nospace.
    + intros H. f_equal. symmetry. apply map_fixed.
      eapply Forall_impl; [exact H |].
      intros i (v & t & Hv & ->). now apply strip_form_wire.
Qed.

Lemma main_turn_verification_witness :
  exists fs' content ok,
    main_turn {[ "es" := {[ "hola" := 7 ]} ]} {[ "es" := {[ 7 := "hola" ]} ]}
      " hola hola 007 " ∅
    = Some (fs', Encoded "es" ["7b"; "2r"; "007n"] (Py.join " " ["7b"; "2r"; "007n"])
                   (Z.of_nat (length ["7b"; "2r"; "007n"]) + 1)
                   (decode {[ "es" := {[ 7 := "hola" ]} ]} content "es") ok)
    /\ read_strip "strip.png" fs' = Some (Some "es", None, content)
    /\ (ok = true <-> content = Py.join " " ["7b"; "2r"; "007n"])
    /\ (ok = true
        <-> Forall (fun i => exists v t, 0 <= v <= 9999999999 /\ i = wire_text (v, t))
              ["7b"; "2r"; "007n"]).
Proof.
  assert (H : encode {[ "es" := {[ "hola" := 7 ]} ]} (PyStr.strip " hola hola 007 ")
                (detect_language (PyStr.strip " hola hola 007 ")) <> [])
    by (vm_compute; discriminate).
  assert (Hlex : forall (dec : gmap Z string) i w,
            ({[ "es" := {[ 7 := "hola" ]} ]} : gmap string (gmap Z string))
              !! detect_language (PyStr.strip " hola hola 007 ") = Some dec ->
            dec !! i = Some w -> is_ascii w = true).
  { intros dec i w [_ <-]%lookup_singleton_Some [_ <-]%lookup_singleton_Some.
    reflexivity. }
  pose proof (main_turn_verification {[ "es" := {[ "hola" := 7 ]} ]}
                {[ "es" := {[ 7 := "hola" ]} ]} " hola hola 007 " ∅
                eq_refl eq_refl Hlex eq_refl eq_refl H) as W.
  cbv zeta in W.
  change (PyStr.strip " hola hola 007 ") with "hola hola 007" in W.
  change (detect_language "hola hola 007") with "es" in W.
  change (encode {[ "es" := {[ "hola" := 7 ]} ]} "hola hola 007" "es")
    with ["7b"; "2r"; "007n"] in W.
  exact W.
Defined.

(** ** The dictionary loader *)

Lemma rstrip_empty (s : string) :
  PyStr.rstrip s = EmptyString <-> all_chars Py.isspace s = true.
Proof.
  induction s as [|c s IH]; [now split |]. cbn [PyStr.rstrip all_chars].
  destruct (PyStr.rstrip s) as [|r0 r] eqn:Er.
  - destruct (Py.isspace c); cbn [andb]; [| split; discriminate].
    split; intros _; [now apply IH | reflexivity].
  - split; [discriminate |]. intros [_ H]%andb_prop.
    apply IH in H. discriminate.
Qed.

Lemma rstrip_app_keep (a b : string) :
  PyStr.rstrip b <> EmptyString ->
  PyStr.rstrip (a +:+ b) = a +:+ PyStr.rstrip b.
Proof.
  intros Hb. induction a as [|c a IH]; [now rewrite !append_nil_l |].
  rewrite !append_cons. cbn [PyStr.rstrip]. rewrite IH.
  destruct (a +:+ PyStr.rstrip b) as [|x y] eqn:E; [| reflexivity].
  destruct a; [rewrite append_nil_l in E; contradiction |].
  rewrite append_cons in E. discriminate.
Qed.

Lemma rstrip_app_space (a b : string) :
  all_chars Py.isspace b = true -> PyStr.rstrip (a +:+ b) = PyStr.rstrip a.
Proof.
  intros Hb. induction a as [|c a IH].
  - rewrite append_nil_l. now apply rstrip_empty.
  - rewrite append_cons. cbn [PyStr.rstrip]. now rewrite IH.
Qed.

Lemma rstrip_nospace (s : string) :
  all_chars nospace s = true -> PyStr.rstrip s = s.
Proof.
  induction s as [|c s IH]; [reflexivity |]. cbn [all_chars PyStr.rstrip].
  intros [Hc Hs]%andb_prop. rewrite (IH Hs).
  destruct s; [| reflexivity].
  unfold nospace in Hc. apply negb_true_iff in Hc. now rewrite Hc.
Qed.

Lemma strip_nospace (s : string) :
  all_chars nospace s = true -> PyStr.strip s = s.
Proof.
  intros H. unfold PyStr.strip.
  assert (PyStr.lstrip s = s) as ->.
  { destruct s as [|c s]; [reflexivity |]. cbn [all_chars] in H.
    apply andb_prop in H as [Hc _]. unfold nospace in Hc.
    apply negb_true_iff in Hc. cbn [PyStr.lstrip]. now rewrite Hc. }
  now apply rstrip_nospace.
Qed.

Lemma contains_rstrip (c : ascii) (s : string) :
  Py.contains c s = false -> Py.contains c (PyStr.rstrip s) = false.
Proof.
  induction s as [|c' s IH]; [reflexivity |]. cbn [Py.contains PyStr.rstrip].
  intros [Hc Hs]%orb_false_elim. specialize (IH Hs).
  destruct (PyStr.rstrip s) as [|r0 r].
  - destruct (Py.isspace c'); [reflexivity |].
    cbn [Py.chr Py.contains]. now rewrite Hc.
  - cbn [Py.contains] in IH |- *. now rewrite Hc, IH.
Qed.

Lemma split_sep_from_end (sep : ascii) (cur a : string) :
  Py.contains sep a = false ->
  PyStr.split_sep_from sep cur a = [cur +:+ a].
Proof.
  revert cur. induction a as [|c a IH]; intros cur.
  - intros _. cbn [PyStr.split_sep_from]. now rewrite append_nil_r.
  - cbn [Py.contains PyStr.split_sep_from]. intros [Hc Ha]%orb_false_elim.
    rewrite Ascii.eqb_sym, Hc, (IH _ Ha), append_assoc. reflexivity.
Qed.

Lemma split_sep_from_field (sep : ascii) (cur a rest : string) :
  Py.contains sep a = false ->
  PyStr.split_sep_from sep cur (a +:+ String sep rest)
  = (cur +:+ a) :: PyStr.split_sep_from sep EmptyString rest.
Proof.
  revert cur. induction a as [|c a IH]; intros cur.
  - intros _. rewrite append_nil_l, append_nil_r.
    cbn [PyStr.split_sep_from]. now rewrite Ascii.eqb_refl.
  - cbn [Py.contains]. intros [Hc Ha]%orb_false_elim.
    rewrite append_cons. cbn [PyStr.split_sep_from].
    rewrite Ascii.eqb_sym, Hc, (IH _ Ha), append_assoc. reflexivity.
Qed.

Lemma split_sep_from_cons (sep : ascii) (cur s : string) :
  exists x l, PyStr.split_sep_from sep cur s = x :: l.
Proof.
  revert cur. induction s as [|c s IH]; intros cur; cbn [PyStr.split_sep_from].
  - eauto.
  - destruct (Ascii.eqb c sep); [eauto | apply IH].
Qed.

Lemma digits_ok_digits (prev : bool) (s : string) :
  all_chars Py.isdigit s = true -> s <> EmptyString \/ prev = true ->
  PyStr.digits_ok prev s = true.
Proof.
  revert prev. induction s as [|c s IH]; intros prev Hs Hne.
  - now destruct Hne.
  - cbn [all_chars] in Hs. apply andb_prop in Hs as [Hc Hs].
    cbn [PyStr.digits_ok]. rewrite Hc. apply IH; auto.
Qed.

Lemma digit_no_tab (c : ascii) : Py.isdigit c = true -> Ascii.eqb tab c = false.
Proof. destruct c as [[] [] [] [] [] [] [] []]; vm_compute; congruence. Qed.

Lemma digits_no_tab (s : string) :
  all_chars Py.isdigit s = true -> Py.contains tab s = false.
Proof.
  induction s as [|c s IH]; [reflexivity |]. cbn [all_chars Py.contains].
  intros [Hc Hs]%andb_prop. now rewrite (digit_no_tab c Hc), IH.
Qed.

Lemma nospace_int_space (c : ascii) :
  nospace c = true -> PyStr.int_space c = false.
Proof. destruct c as [[] [] [] [] [] [] [] []]; vm_compute; congruence. Qed.

Lemma skip_nospace (s : string) :
  all_chars nospace s = true -> PyStr.rskip (PyStr.lskip s) = s.
Proof.
  intros H.
  assert (PyStr.lskip s = s) as ->.
  { destruct s as [|c s]; [reflexivity |]. cbn [all_chars] in H.
    apply andb_prop in H as [Hc _]. cbn [PyStr.lskip].
    now rewrite (nospace_int_space c Hc). }
  induction s as [|c s IH]; [reflexivity |]. cbn [all_chars] in H.
  apply andb_prop in H as [Hc Hs]. cbn [PyStr.rskip]. rewrite (IH Hs).
  destruct s; [| reflexivity]. now rewrite (nospace_int_space c Hc).
Qed.

Lemma parse_int_str (id : Z) :
  0 <= id -> int_ok (Py.str id) = true ->
  PyStr.parse_int (Py.str id) = Some id.
Proof.
  intros Hid Hlen. unfold PyStr.parse_int.
  pose proof (str_digits id Hid) as Hd. pose proof (str_nonempty id) as Hne.
  rewrite skip_nospace by (exact (all_chars_weaken _ _ _ digit_nospace Hd)).
  assert (Hv : PyStr.digits_value (Py.str id) = Some id).
  { unfold PyStr.digits_value. cbv zeta.
    rewrite digits_ok_digits by auto.
    rewrite (filter_all _ _ Hd). unfold int_ok in Hlen. rewrite Hlen.
    now rewrite int_str. }
  destruct (Py.str id) as [|c r] eqn:E; [congruence |].
  cbn [all_chars] in Hd. apply andb_prop in Hd as [Hc _].
  destruct c as [[] [] [] [] [] [] [] []]; try exact Hv; discriminate Hc.
Qed.

Lemma strip_head (c : ascii) (s : string) :
  Py.isspace c = false -> PyStr.strip (String c s) = PyStr.rstrip (String c s).
Proof. intros Hc. unfold PyStr.strip. cbn [PyStr.lstrip]. now rewrite Hc. Qed.

(** X21.  An ASCII line of a dictionary file that begins with the
    decimal text of an identifier of at most 4300 digits, a tab, a token
    without a tab, and a tab.  If a character that is not white space
    follows, the line gives the entry of the token, stripped of the white
    space around it, with the identifier.  If only white space follows,
    so that the third field is empty, the line is skipped: the strip of
    the line takes the second tab away and fewer than three fields are
    left. *)
Theorem parse_line_fields (id : Z) (token rest : string) :
  0 <= id -> int_ok (Py.str id) = true ->
  is_ascii token = true -> is_ascii rest = true ->
  Py.contains tab token = false ->
  parse_line (Py.str id +:+ String tab (token +:+ String tab rest))
  = if all_chars Py.isspace rest then Some None
    else Some (Some (PyStr.strip token, id)).
Proof.
  intros Hid Hlen _ _ Htok. unfold parse_line.
  pose proof (str_digits id Hid) as Hd.
  pose proof (digits_no_tab _ Hd) as Hnt.
  pose proof (all_chars_weaken _ _ _ digit_nospace Hd) as Hns.
  pose proof (parse_int_str id Hid Hlen) as Hint.
  destruct (Py.str id) as [|c sid]; [discriminate Hint |].
  assert (Hc : Py.isspace c = false).
  { cbn [all_chars] in Hns. apply andb_prop in Hns as [Hc _].
    now apply negb_true_iff in Hc. }
  rewrite append_cons, (strip_head c _ Hc), <- append_cons.
  set (S := String c sid) in *.
  destruct (all_chars Py.isspace rest) eqn:Hrest.
  - (* only white space after the second tab *)
    replace (S +:+ String tab (token +:+ String tab rest))
      with ((S +:+ String tab token) +:+ String tab rest)
      by (now rewrite ?append_assoc, ?append_cons, ?append_assoc, ?append_nil_l).
    rewrite rstrip_app_space by (cbn [all_chars]; now rewrite Hrest).
    destruct (all_chars Py.isspace token) eqn:Htoken.
    + rewrite rstrip_app_space by (cbn [all_chars]; now rewrite Htoken).
      rewrite (rstrip_nospace S Hns).
      unfold PyStr.split_sep. rewrite split_sep_from_end by exact Hnt. reflexivity.
    + assert (Hr : PyStr.rstrip token <> EmptyString).
      { intros E. apply rstrip_empty in E. congruence. }
      replace (S +:+ String tab token) with ((S +:+ String tab EmptyString) +:+ token)
        by (now rewrite ?append_assoc, ?append_cons, ?append_assoc, ?append_nil_l).
      rewrite rstrip_app_keep by exact Hr.
      replace ((S +:+ String tab EmptyString) +:+ PyStr.rstrip token)
        with (S +:+ String tab (PyStr.rstrip token))
        by (now rewrite ?append_assoc, ?append_cons, ?append_assoc, ?append_nil_l).
      unfold PyStr.split_sep. rewrite split_sep_from_field by exact Hnt.
      rewrite split_sep_from_end by (now apply contains_rstrip). reflexivity.
  - (* a third field *)
    assert (Hr : PyStr.rstrip rest <> EmptyString).
    { intros E. apply rstrip_empty in E. congruence. }
    replace (S +:+ String tab (token +:+ String tab rest))
      with ((S +:+ String tab (token +:+ String tab EmptyString)) +:+ rest)
      by (now rewrite ?append_assoc, ?append_cons, ?append_assoc, ?append_nil_l).
    rewrite rstrip_app_keep by exact Hr.
    replace ((S +:+ String tab (token +:+ String tab EmptyString)) +:+ PyStr.rstrip rest)
      with (S +:+ String tab (token +:+ String tab (PyStr.rstrip rest)))
      by (now rewrite ?append_assoc, ?append_cons, ?append_assoc, ?append_nil_l).
    unfold PyStr.split_sep.
    rewrite split_sep_from_field by exact Hnt.
    rewrite split_sep_from_field by exact Htok.
    destruct (split_sep_from_cons tab EmptyString (PyStr.rstrip rest))
      as (x & l & ->).
    rewrite !append_nil_l.
    cbn [length Nat.leb lookup list_lookup fmap option_fmap option_map].
    now rewrite Hint.
Qed.

Lemma parse_line_fields_witness :
  parse_line (Py.str 12 +:+ String tab (" la casa " +:+ String tab "10"))
  = if all_chars Py.isspace "10" then Some None
    else Some (Some (PyStr.strip " la casa ", 12)).
Proof.
  apply (parse_line_fields 12 " la casa " "10");
    [lia | reflexivity | reflexivity | reflexivity | reflexivity].
Defined.

Lemma load_lines_fold (st : lexicons) (lines : list string) :
  load_lines st lines
  = if forallb line_ok lines
    then Some (fold_left (fun m e => <[e.1 := e.2]> m) (omap line_entry lines) (fst st),
               fold_left (fun m e => <[e.2 := e.1]> m) (omap line_entry lines) (snd st))
    else None.
Proof.
  revert st. induction lines as [|line lines IH]; intros [enc dec].
  - reflexivity.
  - cbn [load_lines forallb omap list_omap]. unfold load_line, line_ok, line_entry.
    destruct (parse_line line) as [[[token tid]|]|]; cbn [andb fst snd].
    + rewrite IH. reflexivity.
    + rewrite IH. reflexivity.
    + reflexivity.
Qed.

Lemma fold_insert_reverse `{Countable K} {A} (l : list (K * A)) (m : gmap K A) :
  fold_left (fun m e => <[e.1 := e.2]> m) l m
  = foldr (fun e m => <[e.1 := e.2]> m) m (reverse l).
Proof.
  revert m. induction l as [|e l IH]; intros m; [reflexivity |].
  cbn [fold_left]. now rewrite IH, reverse_cons, foldr_app.
Qed.

Lemma load_file_maps (lines : list string) (enc : gmap string Z)
    (dec : gmap Z string) :
  load_file lines = Some (enc, dec) ->
  enc = list_to_map (reverse (entries lines))
  /\ dec = list_to_map (reverse (prod_swap <$> entries lines)).
Proof.
  unfold load_file, entries. rewrite load_lines_fold.
  destruct (forallb line_ok (tail lines)); [| discriminate].
  intros [= <- <-]. cbn [fst snd]. split.
  - apply fold_insert_reverse.
  - transitivity (fold_left (fun m e => <[e.1 := e.2]> m)
                    (prod_swap <$> omap line_entry (tail lines)) (∅ : gmap Z string));
      [| apply fold_insert_reverse].
    generalize (∅ : gmap Z string).
    induction (omap line_entry (tail lines)) as [|[t id] es IH]; intros m;
      [reflexivity |].
    cbn [fold_left fmap list_fmap]. apply IH.
Qed.

(** X22.  Loading a file of ASCII lines fails exactly when [int] raises
    on one of its lines after the first; otherwise the two lexicons hold,
    for every token and for every identifier, the entry of the last line
    that names it: later lines override earlier ones, and the first line
    is never read. *)
Theorem load_file_entries (lines : list string) :
  forallb is_ascii lines = true ->
  load_file lines
  = if forallb line_ok (tail lines)
    then Some (list_to_map (reverse (entries lines)),
               list_to_map (reverse (prod_swap <$> entries lines)))
    else None.
Proof.
  intros _.
  destruct (load_file lines) as [[enc dec]|] eqn:E.
  - destruct (load_file_maps lines enc dec E) as [<- <-].
    unfold load_file in E. rewrite load_lines_fold in E.
    now destruct (forallb line_ok (tail lines)).
  - unfold load_file in E. rewrite load_lines_fold in E.
    now destruct (forallb line_ok (tail lines)).
Qed.

Lemma load_file_entries_witness :
  let lines := ["id" +:+ String tab ("token" +:+ String tab "freq");
                "7" +:+ String tab ("hola" +:+ String tab "10");
                "8" +:+ String tab ("hola" +:+ String tab "5");
                "9" +:+ String tab "mundo"] in
  load_file lines
  = if forallb line_ok (tail lines)
    then Some (list_to_map (reverse (entries lines)),
               list_to_map (reverse (prod_swap <$> entries lines)))
    else None.
Proof. intros lines. apply (load_file_entries lines). reflexivity. Defined.

Lemma NoDup_reversed {A} (l : list A) : NoDup l -> NoDup (reverse l).
Proof. intros H. now rewrite reverse_Permutation. Qed.

(** X23.  The two lexicons of a file name each other: the identifier of
    every token of the encoding lexicon is a key of the decoding lexicon,
    and the token of every identifier of the decoding lexicon is a key of
    the encoding lexicon.  When no token and no identifier stands on two
    lines they are inverse maps, and hold exactly the entries of the
    file. *)
Theorem load_file_inverse (lines : list string) (enc : gmap string Z)
    (dec : gmap Z string) :
  load_file lines = Some (enc, dec) ->
  (forall t id, enc !! t = Some id -> is_Some (dec !! id))
  /\ (forall t id, dec !! id = Some t -> is_Some (enc !! t))
  /\ (NoDup (map fst (entries lines)) -> NoDup (map snd (entries lines)) ->
      forall t id,
        (enc !! t = Some id <-> In (t, id) (entries lines))
        /\ (dec !! id = Some t <-> In (t, id) (entries lines))).
Proof.
  intros Hload. destruct (load_file_maps lines enc dec Hload) as [-> ->].
  assert (Hswap : forall t id (es : list (string * Z)),
            (id, t) ∈ reverse (prod_swap <$> es) <-> (t, id) ∈ reverse es).
  { intros t id es. rewrite !elem_of_reverse, list_elem_of_fmap. split.
    - intros ([t' id'] & [= -> ->] & Hin). exact Hin.
    - intros Hin. now exists (t, id). }
  split; [| split].
  - intros t id Hin%elem_of_list_to_map_2.
    apply not_eq_None_Some. intros Hnone%not_elem_of_list_to_map_2.
    apply Hnone, list_elem_of_fmap. exists (id, t). split; [reflexivity |].
    now apply Hswap.
  - intros t id Hin%elem_of_list_to_map_2.
    apply not_eq_None_Some. intros Hnone%not_elem_of_list_to_map_2.
    apply Hnone, list_elem_of_fmap. exists (t, id). split; [reflexivity |].
    now apply Hswap.
  - intros Hfst Hsnd t id. rewrite <- list_elem_of_In. split.
    + rewrite <- elem_of_list_to_map.
      * apply elem_of_reverse.
      * rewrite fmap_reverse. now apply NoDup_reversed.
    + rewrite <- elem_of_list_to_map.
      * rewrite Hswap. apply elem_of_reverse.
      * rewrite fmap_reverse. apply NoDup_reversed.
        rewrite <- list_fmap_compose.
        now replace (fst ∘ prod_swap) with (@snd string Z) by reflexivity.
Qed.

Lemma load_file_inverse_witness :
  let lines := ["id" +:+ String tab ("token" +:+ String tab "freq");
                "7" +:+ String tab ("hola" +:+ String tab "10");
                "8" +:+ String tab ("mundo" +:+ String tab "5")] in
  let enc : gmap string Z := <["mundo" := 8]> (<["hola" := 7]> ∅) in
  let dec : gmap Z string := <[8 := "mundo"]> (<[7 := "hola"]> ∅) in
  (forall t id, enc !! t = Some id -> is_Some (dec !! id))
  /\ (forall t id, dec !! id = Some t -> is_Some (enc !! t))
  /\ (NoDup (map fst (entries lines)) -> NoDup (map snd (entries lines)) ->
      forall t id,
        (enc !! t = Some id <-> In (t, id) (entries lines))
        /\ (dec !! id = Some t <-> In (t, id) (entries lines))).
Proof.
  intros lines enc dec. apply (load_file_inverse lines enc dec). reflexivity.
Defined.

Lemma load_languages_lookup (disk : gmap string (list string))
    (langs : list (string * string)) (st st' : dictionaries) :
  NoDup (map fst langs) ->
  load_languages disk langs st = Some st' ->
  forall lang,
    fst st' !! lang
    = match Dict.get String.eqb langs lang with
      | Some f =>
          match disk !! f with
          | Some lines => fst <$> load_file lines
          | None => fst st !! lang
          end
      | None => fst st !! lang
      end
    /\ snd st' !! lang
       = match Dict.get String.eqb langs lang with
         | Some f =>
             match disk !! f with
             | Some lines => snd <$> load_file lines
             | None => snd st !! lang
             end
         | None => snd st !! lang
         end.
Proof.
  revert st. induction langs as [|[lang0 f0] langs IH]; intros st Hnd Hload lang.
  - cbn in Hload. injection Hload as <-. now split.
  - apply NoDup_cons in Hnd as [Hfresh Hnd].
    assert (Hnone : Dict.get String.eqb langs lang0 = None).
    { apply dict_get_none. intros Hin. apply Hfresh. now apply list_elem_of_In. }
    cbn [load_languages] in Hload. cbn [Dict.get].
    destruct (disk !! f0) as [lines|] eqn:Ef.
    + destruct (load_file lines) as [[enc dec]|] eqn:El; [| discriminate].
      specialize (IH _ Hnd Hload lang). cbn [fst snd] in IH.
      destruct (String.eqb_spec lang lang0) as [-> | Hne].
      * rewrite Hnone, !lookup_insert_eq in IH. rewrite Ef, El. exact IH.
      * rewrite !lookup_insert_ne in IH by congruence. exact IH.
    + specialize (IH _ Hnd Hload lang).
      destruct (String.eqb_spec lang lang0) as [-> | Hne].
      * rewrite Hnone in IH. now rewrite Ef.
      * exact IH.
Qed.

(** X24.  What is loaded.  When the loader succeeds, a language has its
    two lexicons exactly when it is a key of [LANG_FILES] and its file
    exists, and they are then the lexicons of this file; the encoding and
    the decoding dictionaries have the same languages; and for any other
    language [encode] returns no item and [decode] the empty text. *)
Theorem load_dictionaries_languages (disk : gmap string (list string))
    (dicts_encode : gmap string (gmap string Z))
    (dicts_decode : gmap string (gmap Z string)) :
  load_dictionaries disk = Some (dicts_encode, dicts_decode) ->
  forall lang,
    let file :=
      match Dict.get String.eqb LANG_FILES lang with
      | Some f => match disk !! f with Some lines => load_file lines | None => None end
      | None => None
      end in
    dicts_encode !! lang = fst <$> file
    /\ dicts_decode !! lang = snd <$> file
    /\ (dicts_encode !! lang = None <-> dicts_decode !! lang = None)
    /\ (file = None ->
        forall text,
          encode dicts_encode text lang = []
          /\ decode dicts_decode text lang = EmptyString).
Proof.
  intros Hload lang file.
  assert (Hnd : NoDup (map fst LANG_FILES)).
  { apply (bool_decide_unpack _). vm_compute. exact I. }
  destruct (load_languages_lookup disk LANG_FILES (∅, ∅) _ Hnd Hload lang)
    as [He Hd].
  cbn [fst snd] in He, Hd. rewrite lookup_empty in He. rewrite lookup_empty in Hd.
  assert (He' : dicts_encode !! lang = fst <$> file).
  { rewrite He. subst file. destruct (Dict.get String.eqb LANG_FILES lang); [| reflexivity].
    now destruct (disk !! s). }
  assert (Hd' : dicts_decode !! lang = snd <$> file).
  { rewrite Hd. subst file. destruct (Dict.get String.eqb LANG_FILES lang); [| reflexivity].
    now destruct (disk !! s). }
  split; [exact He' |]. split; [exact Hd' |]. split.
  - rewrite He', Hd'. now destruct file.
  - intros Hnone text. unfold encode, decode. rewrite He', Hd', Hnone.
    now split.
Qed.

Lemma load_dictionaries_languages_witness :
  let disk : gmap string (list string) :=
    {[ "GOLD_ES.txt" := ["id" +:+ String tab ("token" +:+ String tab "freq");
                         "7" +:+ String tab ("hola" +:+ String tab "10")] ]} in
  let file :=
    match Dict.get String.eqb LANG_FILES "pt" with
    | Some f => match disk !! f with Some lines => load_file lines | None => None end
    | None => None
    end in
  ({[ "es" := {[ "hola" := 7 ]} ]} : gmap string (gmap string Z)) !! "pt"
  = fst <$> file
  /\ ({[ "es" := {[ 7 := "hola" ]} ]} : gmap string (gmap Z string)) !! "pt"
     = snd <$> file
  /\ (({[ "es" := {[ "hola" := 7 ]} ]} : gmap string (gmap string Z)) !! "pt" = None
      <-> ({[ "es" := {[ 7 := "hola" ]} ]} : gmap string (gmap Z string)) !! "pt" = None)
  /\ (file = None ->
      forall text,
        encode {[ "es" := {[ "hola" := 7 ]} ]} text "pt" = []
        /\ decode {[ "es" := {[ 7 := "hola" ]} ]} text "pt" = EmptyString).
Proof.
  intros disk.
  apply (load_dictionaries_languages disk {[ "es" := {[ "hola" := 7 ]} ]}
           {[ "es" := {[ 7 := "hola" ]} ]}).
  reflexivity.
Defined.

Lemma read_command (cmd : string) :
  is_one_of ["leer"; "read"] (Py.lower (PyStr.strip cmd)) = true ->
  PyStr.strip cmd <> EmptyString
  /\ is_one_of ["salir"; "quit"; "exit"] (Py.lower (PyStr.strip cmd)) = false.
Proof.
  intros H. split.
  - intros E. rewrite E in H. discriminate.
  - unfold is_one_of in H. cbn [existsb] in H.
    destruct (String.eqb_spec (Py.lower (PyStr.strip cmd)) "leer") as [-> | _];
      [reflexivity |].
    destruct (String.eqb_spec (Py.lower (PyStr.strip cmd)) "read") as [-> | _];
      [reflexivity | discriminate].
Qed.

(** X25.  Reading back.  After a turn that encoded a line, a turn on the
    command leer or read, in any case and with white space around, finds
    the strip, leaves the files as they are, and reports the language
    that was detected, no data type, and the very text the encoding turn
    showed as decoded; the content it reports is the wire text of that
    turn whenever its verification succeeded. *)
Theorem main_turn_read_back (dicts_encode : gmap string (gmap string Z))
    (dicts_decode : gmap string (gmap Z string)) (line cmd : string)
    (fs fs' : files) (lang : string) (ids : list string) (numcode_str : string)
    (blocks : Z) (text_r : string) (ok : bool) :
  main_turn dicts_encode dicts_decode line fs
  = Some (fs', Encoded lang ids numcode_str blocks text_r ok) ->
  is_one_of ["leer"; "read"] (Py.lower (PyStr.strip cmd)) = true ->
  exists content,
    main_turn dicts_encode dicts_decode cmd fs'
    = Some (fs', Strip_read (Some lang) None content (Some text_r))
    /\ (ok = true -> content = numcode_str).
Proof.
  intros Hturn Hcmd. destruct (read_command cmd Hcmd) as [Hne Hquit].
  unfold main_turn in Hturn.
  set (entrada := PyStr.strip line) in Hturn.
  destruct entrada as [|e0 e] eqn:Ee; [discriminate |].
  destruct (is_one_of ["salir"; "quit"; "exit"] (Py.lower (String e0 e)));
    [discriminate |].
  destruct (is_one_of ["leer"; "read"] (Py.lower (String e0 e))).
  { destruct (fs !! "strip.png"); [| discriminate].
    destruct (read_strip "strip.png" fs) as [[[? ?] ?]|]; discriminate. }
  destruct (strip_round_trip_general
              (encode dicts_encode (String e0 e) (detect_language (String e0 e)))
              (Some (detect_language (String e0 e))) None "strip.png" fs)
    as (fs2 & Hcreate & Hreadback).
  destruct (detect_language_header (String e0 e)) as [Hhead (c & l & Hlang)].
  assert (Htruthy : Py.truthy (Some (detect_language (String e0 e))) = true)
    by now rewrite Hlang.
  rewrite Hhead, Htruthy in Hreadback. rewrite Htruthy in Hcreate.
  cbn [orb andb negb app header_dtype] in Hcreate, Hreadback.
  destruct (encode dicts_encode (String e0 e) (detect_language (String e0 e)))
    as [|i0 is0] eqn:Ei; [discriminate |].
  rewrite Hcreate in Hturn.
  rewrite (proj2 (Z.eqb_neq _ _)) in Hturn by lia.
  rewrite Hreadback in Hturn. rewrite Hlang in Hturn.
  injection Hturn as <- <- <- <- <- <- <-.
  exists (Py.join " " (map strip_form (i0 :: is0))). split.
  - unfold main_turn.
    destruct (PyStr.strip cmd) as [|c0 cs] eqn:Ec; [congruence |].
    rewrite Hquit, Hcmd.
    assert (Hfile : is_Some (fs2 !! "strip.png")).
    { unfold read_strip in Hreadback.
      destruct (fs2 !! "strip.png"); [eauto | discriminate]. }
    destruct Hfile as [img ->]. rewrite Hreadback. now rewrite Hlang.
  - intros Hok. apply String.eqb_eq in Hok. now symmetry.
Qed.

Lemma main_turn_read_back_witness :
  exists fs' content,
    main_turn {[ "es" := {[ "hola" := 7 ]} ]} {[ "es" := {[ 7 := "hola" ]} ]}
      " LEER " fs'
    = Some (fs', Strip_read (Some "es") None content (Some "Hola hola 7"))
    /\ (true = true -> content = "7b 2r 7n").
Proof.
  destruct (strip_round_trip_general ["7b"; "2r"; "7n"] (Some "es") None
              "strip.png" ∅) as (fs' & Hcreate & Hreadback).
  change (Z.of_nat (length ["7b"; "2r"; "7n"])
          + (if Py.truthy (Some "es") || Py.truthy None then 1 else 0))
    with 4 in Hcreate.
  exists fs'.
  apply (main_turn_read_back {[ "es" := {[ "hola" := 7 ]} ]}
           {[ "es" := {[ 7 := "hola" ]} ]} " hola hola 7 " " LEER " ∅ fs'
           "es" ["7b"; "2r"; "7n"] "7b 2r 7n" 4 "Hola hola 7" true);
    [| reflexivity].
  unfold main_turn.
  change (PyStr.strip " hola hola 7 ") with "hola hola 7".
  change (detect_language "hola hola 7") with "es".
  change (encode {[ "es" := {[ "hola" := 7 ]} ]} "hola hola 7" "es")
    with ["7b"; "2r"; "7n"].
  cbv iota beta zeta.
  change (is_one_of ["salir"; "quit"; "exit"] (Py.lower "hola hola 7")) with false.
  change (is_one_of ["leer"; "read"] (Py.lower "hola hola 7")) with false.
  cbv iota. rewrite Hcreate. change (4 =? 0) with false. cbv iota.
  rewrite Hreadback. reflexivity.
Defined.

(** ** From the decoded text back to the tokens *)

Lemma class_is_classify (k : char_class) (c : ascii) :
  class_is k c = true -> classify c = Some k.
Proof.
  unfold class_is. destruct (classify c) as [k'|]; [| discriminate].
  now destruct k, k'.
Qed.

Lemma findall_empty_cur (run : option char_class) (s : string) :
  findall run EmptyString s = findall None EmptyString s.
Proof.
  destruct s as [|c s]; [reflexivity |]. cbn [findall].
  destruct (classify c) as [[| |]|]; try reflexivity;
    (destruct run as [[| |]|]; cbn [from_option char_class_eqb Py.flush app];
     rewrite ?append_nil_l; reflexivity).
Qed.

Lemma findall_extend (k : char_class) (w cur rest : string) :
  k <> Punct -> all_chars (class_is k) w = true ->
  findall (Some k) cur (w +:+ rest) = findall (Some k) (cur +:+ w) rest.
Proof.
  intros Hk. revert cur. induction w as [|c w IH]; intros cur Hw.
  - now rewrite append_nil_l, append_nil_r.
  - cbn [all_chars] in Hw. apply andb_prop in Hw as [Hc Hw].
    apply class_is_classify in Hc. rewrite append_cons. cbn [findall].
    rewrite Hc. destruct k; [| | congruence];
      cbn [from_option char_class_eqb]; rewrite (IH _ Hw), append_assoc;
      reflexivity.
Qed.

Lemma findall_start (k : char_class) (w rest : string) :
  k <> Punct -> w <> EmptyString -> all_chars (class_is k) w = true ->
  findall None EmptyString (w +:+ rest) = findall (Some k) w rest.
Proof.
  intros Hk Hne Hw. destruct w as [|c w]; [congruence |].
  cbn [all_chars] in Hw. apply andb_prop in Hw as [Hc Hw].
  apply class_is_classify in Hc. rewrite append_cons. cbn [findall].
  rewrite Hc. destruct k; [| | congruence];
    cbn [from_option Py.flush app]; now rewrite (findall_extend _ _ _ _ Hk Hw).
Qed.

Lemma findall_punct (c : ascii) (run : option char_class) (cur rest : string) :
  classify c = Some Punct ->
  findall run cur (String c rest)
  = Py.flush cur ++ Py.chr c :: findall None EmptyString rest.
Proof. intros Hc. cbn [findall]. now rewrite Hc. Qed.

Lemma findall_blank (run : option char_class) (cur rest : string) :
  findall run cur (String " " rest) = Py.flush cur ++ findall None EmptyString rest.
Proof. reflexivity. Qed.

Lemma attach_right_punct (w : string) :
  w ∈ PUNCT_ATTACH_RIGHT ->
  w = "'" \/ exists c, w = Py.chr c /\ classify c = Some Punct.
Proof.
  unfold PUNCT_ATTACH_RIGHT. rewrite !elem_of_union, !elem_of_singleton.
  intros H.
  repeat (destruct H as [H | H]); subst w;
    first [ now left | right; eexists; split; reflexivity ].
Qed.

Lemma run_not_open_paren (k : char_class) (w : string) :
  k <> Punct -> all_chars (class_is k) w = true -> ends_with_open_paren w = false.
Proof.
  intros Hk Hw. unfold ends_with_open_paren.
  induction w as [|c w IH]; [reflexivity |].
  cbn [all_chars] in Hw. apply andb_prop in Hw as [Hc Hw].
  cbn [Py.last_char]. destruct w as [|c' w']; [| exact (IH Hw)].
  destruct (Ascii.eqb_spec c "(") as [-> |]; [| reflexivity].
  apply class_is_classify in Hc. vm_compute in Hc. congruence.
Qed.

Lemma findall_spaced (words : list string) :
  Forall (fun w => exists k, word_token k w) words -> ~ In "'" words ->
  forall i after_open run cur,
    ((i = 0%nat \/ after_open = true) -> cur = EmptyString) ->
    findall run cur (spaced i after_open words) = Py.flush cur ++ words.
Proof.
  induction 1 as [|w words [k Hw] _ IH]; intros Hap i after_open run cur Hcur.
  - cbn [spaced findall]. now rewrite app_nil_r.
  - assert (Hap' : ~ In "'" words) by (intros H; apply Hap; now right).
    assert (Hw' : w <> "'") by (intros ->; apply Hap; now left).
    specialize (IH Hap'). cbn [spaced].
    destruct k.
    + (* a run of letters *)
      destruct Hw as [Hne Hall].
      assert (Hnot : bool_decide (w ∈ PUNCT_ATTACH_RIGHT) = false).
      { apply bool_decide_eq_false. intros [-> | (c & -> & Hc)]%attach_right_punct;
          [congruence |].
        cbn [all_chars] in Hall. apply andb_prop in Hall as [Hcl _].
        apply class_is_classify in Hcl. congruence. }
      rewrite Hnot, orb_false_r,
        (run_not_open_paren Letter w ltac:(discriminate) Hall).
      assert (Hrun : findall None EmptyString (w +:+ spaced (S i) false words)
                     = w :: words).
      { rewrite (findall_start Letter) by (auto; discriminate).
        rewrite IH by (intros [? | ?]; discriminate).
        destruct w; [congruence | reflexivity]. }
      destruct ((i =? 0)%nat || after_open) eqn:Ec.
      * rewrite Hcur, findall_empty_cur.
        -- exact Hrun.
        -- apply orb_prop in Ec as [Ei%Nat.eqb_eq | Ea]; auto.
      * rewrite append_assoc, append_cons, append_nil_l, findall_blank.
        now rewrite Hrun.
    + (* a run of digits *)
      destruct Hw as [Hne Hall].
      assert (Hnot : bool_decide (w ∈ PUNCT_ATTACH_RIGHT) = false).
      { apply bool_decide_eq_false. intros [-> | (c & -> & Hc)]%attach_right_punct;
          [congruence |].
        cbn [all_chars] in Hall. apply andb_prop in Hall as [Hcl _].
        apply class_is_classify in Hcl. congruence. }
      rewrite Hnot, orb_false_r,
        (run_not_open_paren Digit w ltac:(discriminate) Hall).
      assert (Hrun : findall None EmptyString (w +:+ spaced (S i) false words)
                     = w :: words).
      { rewrite (findall_start Digit) by (auto; discriminate).
        rewrite IH by (intros [? | ?]; discriminate).
        destruct w; [congruence | reflexivity]. }
      destruct ((i =? 0)%nat || after_open) eqn:Ec.
      * rewrite Hcur, findall_empty_cur.
        -- exact Hrun.
        -- apply orb_prop in Ec as [Ei%Nat.eqb_eq | Ea]; auto.
      * rewrite append_assoc, append_cons, append_nil_l, findall_blank.
        now rewrite Hrun.
    + (* a punctuation mark *)
      destruct Hw as (c & -> & Hc).
      destruct ((i =? 0)%nat || bool_decide (Py.chr c ∈ PUNCT_ATTACH_RIGHT)
                || after_open).
      * unfold Py.chr at 1. rewrite append_cons, append_nil_l, (findall_punct c) by exact Hc.
        now rewrite IH.
      * rewrite append_assoc, append_cons, append_nil_l, findall_blank.
        unfold Py.chr at 1. rewrite append_cons, append_nil_l, (findall_punct c) by exact Hc.
        now rewrite IH.
Qed.

Lemma join_empty_app (a b : list string) :
  Py.join EmptyString (a ++ b) = Py.join EmptyString a +:+ Py.join EmptyString b.
Proof.
  induction a as [|x a IH]; [now rewrite append_nil_l |].
  cbn [app]. now rewrite !join_empty_cons, IH, append_assoc.
Qed.

Lemma last_char_blank (w : string) :
  w <> EmptyString -> Py.last_char (" " +:+ w) = Py.last_char w.
Proof. destruct w; [congruence | reflexivity]. Qed.

Lemma build_parts_spaced (words parts : list string) (i : nat) :
  Forall (fun w => w <> EmptyString) words ->
  Py.join EmptyString (build_parts i words parts)
  = Py.join EmptyString parts +:+ spaced i (after_open_paren parts) words.
Proof.
  intros H. revert parts i. induction H as [|w words Hw _ IH]; intros parts i.
  - cbn [build_parts spaced]. now rewrite append_nil_r.
  - cbn [build_parts spaced].
    assert (Hopen : forall p, Py.last_char p = Py.last_char w ->
              after_open_paren (parts ++ [p]) = ends_with_open_paren w).
    { intros p Hp. unfold after_open_paren, ends_with_open_paren.
      now rewrite last_snoc, Hp. }
    destruct (i =? 0)%nat; cbn [orb].
    { rewrite IH, join_empty_app, (Hopen w eq_refl), append_assoc.
      cbn [Py.join]. reflexivity. }
    destruct (bool_decide (w ∈ PUNCT_ATTACH_RIGHT)); cbn [orb].
    { rewrite IH, join_empty_app, (Hopen w eq_refl), append_assoc.
      cbn [Py.join]. reflexivity. }
    destruct (after_open_paren parts).
    { rewrite IH, join_empty_app, (Hopen w eq_refl), append_assoc.
      cbn [Py.join]. reflexivity. }
    rewrite IH, join_empty_app, (Hopen _ (last_char_blank w Hw)), append_assoc.
    cbn [Py.join]. reflexivity.
Qed.

Lemma spaced_lower (words : list string) (i : nat) (after_open : bool) :
  Forall (fun w => Py.lower w = w) words ->
  Py.lower (spaced i after_open words) = spaced i after_open words.
Proof.
  intros H. revert i after_open. induction H as [|w words Hw _ IH]; intros i a.
  - reflexivity.
  - cbn [spaced]. rewrite lower_app, IH.
    destruct ((i =? 0)%nat || bool_decide (w ∈ PUNCT_ATTACH_RIGHT) || a);
      [now rewrite Hw |].
    rewrite lower_app, Hw. reflexivity.
Qed.

Lemma same_tokens_cons (c : ascii) (x y : string) :
  same_tokens x y -> same_tokens (String c x) (String c y).
Proof.
  intros H run cur. cbn [Py.lower findall].
  destruct (classify (Py.lower_char c)) as [[| |]|];
    try destruct (from_option _ false run); now rewrite !H.
Qed.

Lemma same_tokens_app (p x y : string) :
  same_tokens x y -> same_tokens (p +:+ x) (p +:+ y).
Proof.
  intros H. induction p as [|c p IH]; [now rewrite !append_nil_l |].
  rewrite !append_cons. now apply same_tokens_cons.
Qed.

Lemma space_class (c : ascii) :
  Py.isspace c = true -> classify (Py.lower_char c) = None.
Proof. destruct c as [[] [] [] [] [] [] [] []]; vm_compute; congruence. Qed.

Lemma findall_spaces (ws s : string) (run : option char_class) (cur : string) :
  ws <> EmptyString -> all_chars Py.isspace ws = true ->
  findall run cur (Py.lower (ws +:+ s))
  = Py.flush cur ++ findall None EmptyString (Py.lower s).
Proof.
  revert run cur. induction ws as [|c ws IH]; intros run cur Hne Hws;
    [congruence |].
  cbn [all_chars] in Hws. apply andb_prop in Hws as [Hc Hws].
  rewrite append_cons. cbn [Py.lower findall]. rewrite (space_class c Hc).
  destruct ws as [|c' ws']; [now rewrite append_nil_l |].
  now rewrite (IH None EmptyString ltac:(discriminate) Hws).
Qed.

Lemma capitalize_same_tokens (text : string) :
  forall pending,
    match pending with
    | None => same_tokens (capitalize_sentences None text) text
    | Some (m, ws) =>
        all_chars Py.isspace ws = true ->
        same_tokens (capitalize_sentences (Some (m, ws)) text)
                    (String m (ws +:+ text))
    end.
Proof.
  induction text as [|c text IH]; intros pending.
  - destruct pending as [[m ws]|]; cbn [capitalize_sentences].
    + intros _. rewrite append_nil_r. now intros run cur.
    + now intros run cur.
  - assert (Hfresh : same_tokens
              (if is_sentence_end c
               then capitalize_sentences (Some (c, EmptyString)) text
               else String c (capitalize_sentences None text))
              (String c text)).
    { destruct (is_sentence_end c).
      - specialize (IH (Some (c, EmptyString))). cbn beta iota in IH.
        rewrite append_nil_l in IH. now apply IH.
      - apply same_tokens_cons. exact (IH None). }
    destruct pending as [[m ws]|]; cbn [capitalize_sentences]; [| exact Hfresh].
    intros Hws. destruct (Py.isspace c) eqn:Hc.
    + specialize (IH (Some (m, ws +:+ Py.chr c))). cbn beta iota in IH.
      rewrite append_assoc in IH. apply IH.
      rewrite all_chars_app, Hws. cbn [Py.chr all_chars]. now rewrite Hc.
    + destruct ws as [|w ws'].
      * rewrite append_nil_l. now apply same_tokens_cons.
      * destruct (is_small_letter c).
        -- apply same_tokens_cons. intros run cur.
           rewrite (findall_spaces (String w ws') (String c text))
             by (auto; discriminate).
           cbn [Py.lower]. rewrite findall_blank, lower_upper_char.
           f_equal. apply (same_tokens_cons c _ _ (IH None)).
        -- apply same_tokens_cons, same_tokens_app. exact Hfresh.
Qed.

Lemma tokenize_reconstruct (lang : string) (words : list string) :
  String.eqb lang "zh" = false -> String.eqb lang "ar" = false ->
  Forall (fun w => exists k, word_token k w) words ->
  Forall (fun w => Py.lower w = w) words ->
  ~ In "'" words ->
  tokenize (reconstruct lang words) lang = words.
Proof.
  intros Hzh Har Htok Hlow Hap. unfold tokenize, reconstruct. rewrite Hzh, Har.
  destruct words as [|w0 ws0] eqn:Ew; [reflexivity |]. rewrite <- Ew in *.
  assert (Hne : Forall (fun w => w <> EmptyString) words).
  { eapply Forall_impl; [exact Htok |]. intros w [[| |] H].
    - now destruct H.
    - now destruct H.
    - destruct H as (c & -> & _). discriminate. }
  rewrite (build_parts_spaced words [] 0 Hne).
  change (Py.join EmptyString []) with EmptyString. rewrite append_nil_l.
  change (after_open_paren []) with false.
  pose proof (findall_spaced words Htok Hap 0%nat false None EmptyString
                (fun _ => eq_refl)) as Hscan.
  cbn [Py.flush app] in Hscan.
  destruct (spaced 0 false words) as [|c text] eqn:Es; [exact Hscan |].
  pose proof (spaced_lower words 0 false Hlow) as Hl. rewrite Es in Hl.
  rewrite (capitalize_same_tokens _ None None EmptyString).
  cbn [Py.upper Py.chr]. rewrite append_cons, append_nil_l.
  cbn [Py.lower]. rewrite lower_upper_char.
  change (String (Py.lower_char c) (Py.lower text)) with (Py.lower (String c text)).
  now rewrite Hl.
Qed.

Lemma findall_word_tokens (run : option char_class) (cur s : string) :
  cur = EmptyString
  \/ (exists k, k <> Punct /\ run = Some k /\ all_chars (class_is k) cur = true) ->
  Forall (fun t => exists k, word_token k t) (findall run cur s).
Proof.
  revert run cur. induction s as [|c s IH]; intros run cur Hinv.
  - destruct cur as [|a cur]; [constructor |]. constructor; [| constructor].
    destruct Hinv as [H | (k & Hk & _ & H)]; [discriminate |].
    exists k. destruct k; [split; [discriminate | exact H] ..| congruence].
  - assert (Hflush : Forall (fun t => exists k, word_token k t) (Py.flush cur)).
    { destruct cur as [|a cur]; [constructor |]. constructor; [| constructor].
      destruct Hinv as [H | (k & Hk & _ & H)]; [discriminate |].
      exists k. destruct k; [split; [discriminate | exact H] ..| congruence]. }
    assert (Hrun : forall k, k <> Punct -> classify c = Some k ->
              Forall (fun t => exists k, word_token k t)
                (if from_option (char_class_eqb k) false run
                 then findall run (cur +:+ Py.chr c) s
                 else Py.flush cur ++ findall (Some k) (Py.chr c) s)).
    { intros k Hk Ec.
      assert (Hc : class_is k c = true).
      { unfold class_is. rewrite Ec. now destruct k. }
      destruct (from_option (char_class_eqb k) false run) eqn:Er.
      - assert (run = Some k) as ->.
        { destruct run as [k'|]; [| discriminate]. simpl in Er. now destruct k, k'. }
        apply IH. right. exists k. split; [exact Hk |]. split; [reflexivity |].
        rewrite all_chars_app. cbn [Py.chr all_chars]. rewrite Hc, andb_true_r.
        destruct Hinv as [-> | (k' & _ & [= <-] & H)]; [reflexivity | exact H].
      - apply Forall_app. split; [exact Hflush |]. apply IH. right.
        exists k. split; [exact Hk |]. split; [reflexivity |].
        cbn [Py.chr all_chars]. now rewrite Hc. }
    cbn [findall]. destruct (classify c) as [[| |]|] eqn:Ec.
    + now apply Hrun.
    + now apply Hrun.
    + apply Forall_app. split; [exact Hflush |].
      constructor; [| apply IH; now left]. exists Punct, c. now split.
    + apply Forall_app. split; [exact Hflush | apply IH; now left].
Qed.

(** X26.  Round trip of the tokens.  Outside Chinese and Arabic, with a
    lexicon whose reverse map gives every identifier its token back, an
    ASCII text all of whose words and punctuation marks are in the
    lexicon, whose numbers are written without leading zeros, whose wire
    items have at most 4300 digits each, and in which no apostrophe
    stands alone, comes back from [encode] and [decode] as a text with
    the same tokens: only spacing and capitals may differ. *)
Theorem tokens_round_trip (dicts_encode : gmap string (gmap string Z))
    (dicts_decode : gmap string (gmap Z string))
    (enc : gmap string Z) (dec : gmap Z string) (text lang : string) :
  dicts_encode !! lang = Some enc -> dicts_decode !! lang = Some dec ->
  (forall t id, enc !! t = Some id -> 0 <= id /\ dec !! id = Some t) ->
  String.eqb lang "zh" = false -> String.eqb lang "ar" = false ->
  is_ascii text = true ->
  forallb item_ok (encode dicts_encode text lang) = true ->
  (forall t, In t (tokenize text lang) ->
     t <> "'"
     /\ if is_number t then Py.str (Py.int t) = t else is_Some (enc !! t)) ->
  tokenize (decode dicts_decode (Py.join " " (encode dicts_encode text lang)) lang)
    lang
  = tokenize text lang.
Proof.
  intros Henc Hdec Hlex Hzh Har _ _ Htokens.
  assert (Hlow : Forall (fun t => Py.lower t = t) (tokenize text lang)).
  { unfold tokenize. rewrite Hzh, Har.
    eapply Forall_impl;
      [apply (findall_chars_of (fun c => Ascii.eqb (Py.lower_char c) c));
       [reflexivity | apply lower_is_lower] |].
    intros t. apply lower_fixed. }
  assert (Htok : Forall (fun t => exists k, word_token k t) (tokenize text lang)).
  { unfold tokenize. rewrite Hzh, Har. apply findall_word_tokens. now left. }
  assert (Hkept : flat_map (kept_word enc lang) (tokenize text lang)
                  = tokenize text lang).
  { revert Htokens Hlow. generalize (tokenize text lang) as tokens.
    induction tokens as [|t ts IH]; intros Htokens Hlow; [reflexivity |].
    apply Forall_cons in Hlow as [Ht Hts].
    cbn [flat_map]. rewrite IH; [| intros x Hx; apply Htokens; now right | exact Hts].
    destruct (Htokens t (or_introl eq_refl)) as [_ Hknown].
    unfold kept_word. rewrite Hzh. cbn [negb]. rewrite Ht.
    destruct (is_number t); [now rewrite Hknown |].
    now destruct Hknown as [id ->]. }
  unfold decode. rewrite Hdec.
  rewrite (decode_encode_words dicts_encode enc dec text lang Henc Hlex), Hkept.
  apply tokenize_reconstruct; try assumption.
  intros Hin. now destruct (Htokens _ Hin).
Qed.

Lemma tokens_round_trip_witness :
  let enc : gmap string Z :=
    {[ "hola" := 7; "mundo" := 8; "," := 1; "(" := 2; ")" := 3; "." := 4 ]} in
  let dec : gmap Z string :=
    {[ 7 := "hola"; 8 := "mundo"; 1 := ","; 2 := "("; 3 := ")"; 4 := "." ]} in
  tokenize (decode {[ "es" := dec ]}
              (Py.join " " (encode {[ "es" := enc ]} "Hola,mundo ( hola )  12 .hola" "es"))
              "es") "es"
  = tokenize "Hola,mundo ( hola )  12 .hola" "es".
Proof.
  intros enc dec.
  apply (tokens_round_trip {[ "es" := enc ]} {[ "es" := dec ]} enc dec
           "Hola,mundo ( hola )  12 .hola" "es");
    [reflexivity | reflexivity | | reflexivity | reflexivity
    | reflexivity | reflexivity |].
  - intros t id Ht. subst enc dec.
    repeat (apply lookup_insert_Some in Ht as [[<- <-] | [_ Ht]];
            [split; [lia | reflexivity] |]).
    apply lookup_singleton_Some in Ht as [<- <-]. split; [lia | reflexivity].
  - intros t Ht. vm_compute in Ht.
    repeat (destruct Ht as [<- | Ht]; [split; [discriminate | vm_compute; eauto] |]).
    destruct Ht.
Defined.

(** ** What the rebuilt text keeps of the words *)

Lemma squeeze_app (a b : string) : squeeze (a +:+ b) = squeeze a +:+ squeeze b.
Proof. unfold squeeze. now rewrite filter_app, lower_app. Qed.

Lemma squeeze_spaces (ws : string) :
  all_chars Py.isspace ws = true -> squeeze ws = EmptyString.
Proof.
  unfold squeeze. induction ws as [|c ws IH]; [reflexivity |].
  cbn [all_chars Py.filter]. intros [Hc Hws]%andb_prop.
  unfold nospace at 1. rewrite Hc. now apply IH.
Qed.

Lemma squeeze_cons (c : ascii) (x y : string) :
  squeeze x = squeeze y -> squeeze (String c x) = squeeze (String c y).
Proof.
  unfold squeeze. intros H. cbn [Py.filter].
  destruct (nospace c); [| exact H]. cbn [Py.lower]. now rewrite H.
Qed.

Lemma squeeze_upper_char (c : ascii) (x : string) :
  squeeze (String (Py.upper_char c) x) = squeeze (String c x).
Proof.
  unfold squeeze. cbn [Py.filter].
  assert (nospace (Py.upper_char c) = nospace c) as ->
    by (destruct c as [[] [] [] [] [] [] [] []]; reflexivity).
  destruct (nospace c); [| reflexivity]. cbn [Py.lower].
  now rewrite lower_upper_char.
Qed.

Lemma capitalize_squeeze (text : string) :
  forall pending,
    match pending with
    | None => squeeze (capitalize_sentences None text) = squeeze text
    | Some (m, ws) =>
        all_chars Py.isspace ws = true ->
        squeeze (capitalize_sentences (Some (m, ws)) text)
        = squeeze (String m (ws +:+ text))
    end.
Proof.
  induction text as [|c text IH]; intros pending.
  - destruct pending as [[m ws]|]; cbn [capitalize_sentences]; [| reflexivity].
    intros _. now rewrite append_nil_r.
  - assert (Hfresh : squeeze
              (if is_sentence_end c
               then capitalize_sentences (Some (c, EmptyString)) text
               else String c (capitalize_sentences None text))
              = squeeze (String c text)).
    { destruct (is_sentence_end c).
      - specialize (IH (Some (c, EmptyString))). cbn beta iota in IH.
        rewrite append_nil_l in IH. now apply IH.
      - apply squeeze_cons. exact (IH None). }
    destruct pending as [[m ws]|]; cbn [capitalize_sentences]; [| exact Hfresh].
    intros Hws. destruct (Py.isspace c) eqn:Hc.
    + specialize (IH (Some (m, ws +:+ Py.chr c))). cbn beta iota in IH.
      rewrite append_assoc in IH. apply IH.
      rewrite all_chars_app, Hws. cbn [Py.chr all_chars]. now rewrite Hc.
    + destruct ws as [|w ws'].
      * rewrite append_nil_l. now apply squeeze_cons.
      * destruct (is_small_letter c).
        -- apply squeeze_cons.
           rewrite squeeze_app, (squeeze_spaces _ Hws), append_nil_l.
           change (String " " (String (Py.upper_char c) (capitalize_sentences None text)))
             with (" " +:+ String (Py.upper_char c) (capitalize_sentences None text)).
           rewrite squeeze_app, (squeeze_spaces " " eq_refl), append_nil_l.
           rewrite squeeze_upper_char. apply squeeze_cons. exact (IH None).
        -- apply squeeze_cons. rewrite !squeeze_app. now rewrite Hfresh.
Qed.

Lemma build_parts_squeeze (words parts : list string) (i : nat) :
  squeeze (Py.join EmptyString (build_parts i words parts))
  = squeeze (Py.join EmptyString parts) +:+ squeeze (Py.join EmptyString words).
Proof.
  revert parts i. induction words as [|w words IH]; intros parts i.
  - cbn [build_parts Py.join]. now rewrite append_nil_r.
  - cbn [build_parts]. rewrite join_empty_cons, squeeze_app.
    assert (Hw : forall p, squeeze p = squeeze w ->
              squeeze (Py.join EmptyString (build_parts (S i) words (parts ++ [p])))
              = squeeze (Py.join EmptyString parts)
                +:+ (squeeze w +:+ squeeze (Py.join EmptyString words))).
    { intros p Hp. rewrite IH, join_empty_app, squeeze_app. cbn [Py.join].
      now rewrite Hp, append_assoc. }
    destruct (i =? 0)%nat; [now apply Hw |].
    destruct (bool_decide (w ∈ PUNCT_ATTACH_RIGHT)); [now apply Hw |].
    destruct (after_open_paren parts); [now apply Hw |].
    apply Hw. now rewrite squeeze_app, (squeeze_spaces " " eq_refl), append_nil_l.
Qed.

(** X27.  The text rebuilt from decoded ASCII words holds the
    characters of the words, all of them, in their order, and no other
    character but white space: the reconstruction only spaces the words
    and changes the case of letters. *)
Theorem reconstruct_keeps_characters (lang : string) (words : list string) :
  forallb is_ascii words = true ->
  squeeze (reconstruct lang words) = squeeze (Py.join EmptyString words).
Proof.
  intros _. unfold reconstruct. destruct (String.eqb lang "zh"); [reflexivity |].
  destruct words as [|w0 ws0] eqn:Ew; [reflexivity |]. rewrite <- Ew.
  pose proof (build_parts_squeeze words [] 0) as H.
  change (squeeze (Py.join EmptyString [])) with EmptyString in H.
  rewrite append_nil_l in H.
  destruct (Py.join EmptyString (build_parts 0 words [])) as [|c text];
    [exact H |].
  rewrite (capitalize_squeeze _ None). cbn [Py.upper Py.chr].
  now rewrite append_cons, append_nil_l, squeeze_upper_char.
Qed.

(** ** A second trip through a strip *)

Lemma strip_form_fixed (token : string) :
  strip_form (strip_form token) = strip_form token.
Proof.
  destruct (strip_form_canonical token) as (v & t & Hv & ->).
  now apply strip_form_wire.
Qed.

(** X6.  The strip round trip is stable.  For a non-empty list of ASCII
    tokens of at most 4300 digits each, drawn without header: the items
    read from the strip, drawn again, give a strip that reads the same.
    And the strip of a single token reads as this very token exactly when
    the token is the canonical text of a wire token of value at most
    9,999,999,999. *)
Theorem strip_round_trip_stable :
  (forall (token_list : list string) (fs : files),
     token_list <> [] -> forallb item_ok token_list = true ->
     exists fs1 fs2 content,
       create_strip token_list None None "strip.png" fs
       = Some (fs1, Z.of_nat (length token_list))
       /\ read_strip "strip.png" fs1 = Some (None, None, content)
       /\ create_strip (Py.split content) None None "strip.png" fs1
          = Some (fs2, Z.of_nat (length token_list))
       /\ read_strip "strip.png" fs2 = Some (None, None, content))
  /\ (forall (token : string) (fs : files),
        item_ok token = true ->
        exists fs1 content,
          create_strip [token] None None "strip.png" fs = Some (fs1, 1)
          /\ read_strip "strip.png" fs1 = Some (None, None, content)
          /\ (content = token
              <-> exists v t, 0 <= v <= 9999999999 /\ token = wire_text (v, t))).
Proof.
  split.
  - intros token_list fs _ _.
    destruct (strip_round_trip_general token_list None None "strip.png" fs)
      as (fs1 & Hc1 & Hr1).
    cbn [Py.truthy orb andb app header_lang header_dtype] in Hc1, Hr1.
    rewrite Z.add_0_r in Hc1.
    assert (Hsplit : Py.split (Py.join " " (map strip_form token_list))
                     = map strip_form token_list).
    { apply split_join, Forall_forall. intros x Hx.
      apply list_elem_of_In, in_map_iff in Hx as (t & <- & _).
      apply strip_form_nospace. }
    destruct (strip_round_trip_general (map strip_form token_list) None None
                "strip.png" fs1) as (fs2 & Hc2 & Hr2).
    cbn [Py.truthy orb andb app header_lang header_dtype] in Hc2, Hr2.
    rewrite Z.add_0_r, length_map in Hc2.
    rewrite map_map in Hr2.
    rewrite (map_ext _ strip_form strip_form_fixed) in Hr2.
    exists fs1, fs2, (Py.join " " (map strip_form token_list)).
    rewrite Hsplit. now repeat split.
  - intros token fs _.
    destruct (strip_round_trip_general [token] None None "strip.png" fs)
      as (fs1 & Hc1 & Hr1).
    cbn [Py.truthy orb andb app header_lang header_dtype map Py.join length]
      in Hc1, Hr1.
    exists fs1, (strip_form token). split; [exact Hc1 |]. split; [exact Hr1 |].
    split.
    + intros <-. apply strip_form_canonical.
    + intros (v & t & Hv & ->). now apply strip_form_wire.
Qed.

Lemma strip_round_trip_stable_witness :
  exists fs1 fs2 content,
    create_strip ["007n"; "x"] None None "strip.png" ∅ = Some (fs1, 2)
    /\ read_strip "strip.png" fs1 = Some (None, None, content)
    /\ create_strip (Py.split content) None None "strip.png" fs1 = Some (fs2, 2)
    /\ read_strip "strip.png" fs2 = Some (None, None, content).
Proof.
  apply (proj1 strip_round_trip_stable ["007n"; "x"] ∅);
    [discriminate | reflexivity].
Defined.

Lemma reconstruct_keeps_characters_witness :
  squeeze (reconstruct "es" ["hola"; ","; "("; "mundo"; ")"; "."; "adios"])
  = squeeze (Py.join EmptyString ["hola"; ","; "("; "mundo"; ")"; "."; "adios"]).
Proof.
  apply (reconstruct_keeps_characters "es"
           ["hola"; ","; "("; "mundo"; ")"; "."; "adios"]).
  reflexivity.
Defined.
